(** * brief-sales-hub: the prospect pipeline and its metrics

    A shallow embedding of the presentation logic of the CRM front end:
    - [src/components/MetricsDialog.tsx]   (the metrics aggregator),
    - [src/components/Dashboard.tsx]       (the pipeline board and its handlers),
    - [src/components/AddProspectDialog.tsx] (the create form),
    - [src/components/EditProspectDialog.tsx] (the edit form),
    - the auth screen ([handleSignIn], [handleSignUp]).

    Numbers.  A number of the program is an IEEE 754 double (the
    primitive [float]s and their specification [SpecFloat]): the value of
    a prospect, the sums of the aggregator and the conversion rate are
    computed as the program computes them, and the rounding of a quotient
    or of a sum shows in the result.

    Effects.  A handler is a computation in the monad [Eff] below: it
    reads and writes the component state, appends to a trace of observable
    events (requests issued, state setters called, notifications shown,
    diagnostics logged) and may throw; [try_catch] is the source's
    [try { } catch { }].  The hosted
    backend is a collaborator: a handler is run against an arbitrary
    function from a request to the outcome of its promise, a response or
    a rejection. *)

From Stdlib Require Import List String Ascii Bool Arith ZArith Lia.
From Stdlib Require Import Permutation.
From Stdlib Require Import QArith Qround Qpower Lqa Floats Uint63.
Import ListNotations.

Local Open Scope list_scope.
Local Open Scope string_scope.

(** ** Data model *)

(** [stage: 'new' | 'in_talks' | 'closed'] *)
Inductive Stage : Type := new | in_talks | closed.

Definition stage_eqb (a b : Stage) : bool :=
  match a, b with
  | new, new | in_talks, in_talks | closed, closed => true
  | _, _ => false
  end.

(** [interface Prospect] of Dashboard.tsx.  An optional field ([phone?],
    [value?], ...) is [None] when it is [undefined] or [null]; [value] is
    a [number], a double. *)
Record Prospect : Type := mkProspect {
  id : string;
  user_id : string;
  full_name : string;
  email : string;
  phone : option string;
  company : option string;
  stage : Stage;
  value : option float;
  notes : option string;
  created_at : string
}.

(** [{ ...prospect, stage: newStage }] *)
Definition with_stage (newStage : Stage) (prospect : Prospect) : Prospect :=
  {| id := id prospect;
     user_id := user_id prospect;
     full_name := full_name prospect;
     email := email prospect;
     phone := phone prospect;
     company := company prospect;
     stage := newStage;
     value := value prospect;
     notes := notes prospect;
     created_at := created_at prospect |}.

(** ** Decimal digits and [Number.prototype.toFixed] *)

Definition digit (d : Z) : string :=
  String (ascii_of_nat (48 + Z.to_nat d)) "".

(** The decimal representation of a non-negative integer, most significant
    digit first.  [fuel] bounds the number of digits. *)
Fixpoint decimal_fuel (fuel : nat) (n : Z) : string :=
  match fuel with
  | O => ""
  | S fuel' =>
      if (n <? 10)%Z then digit n
      else decimal_fuel fuel' (n / 10) ++ digit (n mod 10)
  end.

Definition decimal (n : Z) : string :=
  decimal_fuel (S (Z.to_nat (Z.log2 n))) n.

(** The number a string of decimal digits stands for, read from the left
    onto [acc]. *)
Fixpoint number_of (acc : Z) (s : string) : Z :=
  match s with
  | EmptyString => acc
  | String c s' =>
      number_of (10 * acc + (Z.of_nat (nat_of_ascii c) - 48)) s'
  end.

Fixpoint zeros (k : nat) : string :=
  match k with
  | O => ""
  | S k' => String "0" (zeros k')
  end.

(** ** Doubles *)

(** A count as a double: [of_uint63] is exact below 2^53. *)
Definition float_of_nat (n : nat) : float :=
  PrimFloat.of_uint63 (Uint63.of_Z (Z.of_nat n)).

(** [ToBoolean] of a number: 0, -0 and NaN are falsy. *)
Definition falsy_number (x : float) : bool :=
  PrimFloat.is_zero x || PrimFloat.is_nan x.

Definition pow2 (e : Z) : Q := Qpower 2 e.

(** The real number a finite positive double [m * 2^e] stands for. *)
Definition SFvalue (m : positive) (e : Z) : Q :=
  inject_Z (Z.pos m) * pow2 e.

Section Number.

(** [Number::toString], which [toFixed] falls back to at and above
    10^21 (exponent notation).  It is a built-in that no number of this
    program reaches; it stays a parameter. *)
Variable NumberToString : Q -> string.

(** ECMAScript [Number.prototype.toFixed(fractionDigits)], steps 7-12, on
    the real number [x] a finite double stands for:
    - a negative [x] gives the sign "-" and is negated;
    - at and above 10^21 the result is [ToString(x)];
    - otherwise [n] is the integer for which [n / 10^f - x] is as close
      to zero as possible, the larger one of two; its digits are padded
      with zeros to [f + 1] characters and the point is put before the
      last [f]. *)
Definition toFixed_real (x : Q) (fractionDigits : nat) : string :=
  let f := fractionDigits in
  let s := if Qle_bool 0 x then "" else "-" in
  let x := if Qle_bool 0 x then x else (- x)%Q in
  let m :=
    if Qle_bool (inject_Z (10 ^ 21)) x then NumberToString x
    else
      let n := Qfloor (x * inject_Z (10 ^ Z.of_nat f) + (1 # 2)) in
      let m := if (n =? 0)%Z then "0" else decimal n in
      match f with
      | O => m
      | S _ =>
          let k := length m in
          let m := if (k <=? f)%nat then zeros (f + 1 - k) ++ m else m in
          let k := if (k <=? f)%nat then (f + 1)%nat else k in
          let a := substring 0 (k - f) m in
          let b := substring (k - f) f m in
          a ++ "." ++ b
      end in
  s ++ m.

(** [x.toFixed(fractionDigits)] on a double: step 6 answers a double that
    is not finite with its name, the other steps work on its real value. *)
Definition toFixed (x : float) (fractionDigits : nat) : string :=
  match Prim2SF x with
  | S754_nan => "NaN"
  | S754_infinity s => if s then "-Infinity" else "Infinity"
  | S754_zero _ => toFixed_real 0 fractionDigits
  | S754_finite s m e =>
      toFixed_real (if s then (- SFvalue m e)%Q else SFvalue m e)
        fractionDigits
  end.

(** ** MetricsDialog.tsx: the metrics aggregator *)

Section Metrics.

Variable prospects : list Prospect.

Definition in_stage (s : Stage) (p : Prospect) : bool :=
  stage_eqb (stage p) s.

Definition totalProspects : nat := List.length prospects.
Definition newProspects : nat :=
  List.length (filter (in_stage new) prospects).
Definition inTalksProspects : nat :=
  List.length (filter (in_stage in_talks) prospects).
Definition closedProspects : nat :=
  List.length (filter (in_stage closed) prospects).

(** [totalProspects > 0
      ? ((closedProspects / totalProspects) * 100).toFixed(1) : '0'] *)
Definition conversionRate : string :=
  if (0 <? totalProspects)%nat
  then toFixed
         (float_of_nat closedProspects / float_of_nat totalProspects * 100)%float
         1
  else "0".

(** [p.value || 0]: an absent value and a falsy one (0, NaN) give 0. *)
Definition or_zero (v : option float) : float :=
  match v with
  | Some x => if falsy_number x then 0%float else x
  | None => 0%float
  end.

(** [(sum, p) => sum + (p.value || 0)], an addition of doubles. *)
Definition add_value (sum : float) (p : Prospect) : float :=
  (sum + or_zero (value p))%float.

(** [prospects.reduce((sum, p) => sum + (p.value || 0), 0)] *)
Definition totalValue : float := fold_left add_value prospects 0%float.

Definition closedValue : float :=
  fold_left add_value (filter (in_stage closed) prospects) 0%float.

End Metrics.

End Number.

(** ** Effects of a handler *)

(** The error object of a rejected request. *)
Record Error : Type := mkError { message : string }.

(** The argument of [toast({ title, description, variant })]; [variant] is
    [None] where the call leaves it out. *)
Record Toast : Type := mkToast {
  title : string;
  description : string;
  variant : option string
}.

(** What a handler does that its environment can observe, in order. *)
Inductive Event (Req : Type) : Type :=
| Request (r : Req)                      (* a request sent to the backend *)
| ToastShown (t : Toast)                 (* [toast(...)] *)
| ConsoleError (label : string) (e : Error)   (* [console.error(label, e)] *)
| Callback (name : string) (arg : option bool)  (* a prop callback invoked *)
| SetState.                              (* a state setter called *)

Arguments Request {Req} r.
Arguments ToastShown {Req} t.
Arguments ConsoleError {Req} label e.
Arguments Callback {Req} name arg.
Arguments SetState {Req}.

(** How a block ends: normally with a value, or by [throw]. *)
Inductive Completion (A : Type) : Type :=
| Normal (a : A)
| Throw (e : Error).

Arguments Normal {A} a.
Arguments Throw {A} e.

Section Eff.

Context {Req S : Type}.

Definition Eff (A : Type) : Type :=
  S -> Completion A * S * list (Event Req).

Definition ret {A : Type} (a : A) : Eff A :=
  fun s => (Normal a, s, []).

Definition bind {A B : Type} (m : Eff A) (k : A -> Eff B) : Eff B :=
  fun s =>
    match m s with
    | (Normal a, s1, t1) =>
        let '(r, s2, t2) := k a s1 in (r, s2, (t1 ++ t2)%list)
    | (Throw e, s1, t1) => (Throw e, s1, t1)
    end.

Definition throw {A : Type} (e : Error) : Eff A :=
  fun s => (Throw e, s, []).

(** [try { body } catch (error) { handler }] *)
Definition try_catch (body : Eff unit) (handler : Error -> Eff unit)
  : Eff unit :=
  fun s =>
    match body s with
    | (Normal a, s1, t1) => (Normal a, s1, t1)
    | (Throw e, s1, t1) =>
        let '(r, s2, t2) := handler e s1 in (r, s2, (t1 ++ t2)%list)
    end.

(** [try { body } finally { fin }] *)
Definition finally (body : Eff unit) (fin : Eff unit) : Eff unit :=
  fun s =>
    match body s with
    | (Normal a, s1, t1) =>
        let '(r, s2, t2) := fin s1 in (r, s2, (t1 ++ t2)%list)
    | (Throw e, s1, t1) =>
        match fin s1 with
        | (Normal _, s2, t2) => (Throw e, s2, (t1 ++ t2)%list)
        | (Throw e', s2, t2) => (Throw e', s2, (t1 ++ t2)%list)
        end
    end.

Definition emit (ev : Event Req) : Eff unit :=
  fun s => (Normal tt, s, [ev]).

(** A state setter called with an updater function: the call is an event
    of the trace, and the state is written. *)
Definition update (f : S -> S) : Eff unit :=
  fun s => (Normal tt, f s, [SetState]).

(** [await] of a request: the request is sent, and the promise of the
    collaborator is fulfilled with a response or rejected with an error,
    which [await] throws. *)
Definition await {Resp : Type} (backend : Req -> Completion Resp) (r : Req)
  : Eff Resp :=
  fun s => (backend r, s, [Request r]).

Definition toast (t : Toast) : Eff unit := emit (ToastShown t).

Definition console_error (label : string) (e : Error) : Eff unit :=
  emit (ConsoleError label e).

(** The state a handler leaves and the events it produced. *)
Definition final_state {A : Type} (m : Eff A) (s : S) : S :=
  snd (fst (m s)).

Definition trace {A : Type} (m : Eff A) (s : S) : list (Event Req) :=
  snd (m s).

End Eff.

Declare Scope eff_scope.
Delimit Scope eff_scope with eff.
Notation "x <- m ;; k" := (bind m (fun x => k))
  (at level 61, m at next level, right associativity) : eff_scope.
Notation "m ;; k" := (bind m (fun _ => k))
  (at level 61, right associativity) : eff_scope.

(** Unfolds the operations of [Eff], so that a handler run on a state
    computes. *)
Ltac run_eff :=
  unfold finally, try_catch, bind, await, update, throw, console_error,
    toast, emit.

(** The requests among the events of a trace. *)
Fixpoint requests {Req : Type} (t : list (Event Req)) : list Req :=
  match t with
  | [] => []
  | Request r :: t' => r :: requests t'
  | _ :: t' => requests t'
  end.

(** The notifications among the events of a trace. *)
Fixpoint toasts {Req : Type} (t : list (Event Req)) : list Toast :=
  match t with
  | [] => []
  | ToastShown x :: t' => x :: toasts t'
  | _ :: t' => toasts t'
  end.

(** The response of the storage collaborator: [{ error }]. *)
Record Response : Type := mkResponse { error : option Error }.

(** The error a request ends with, if any: the [error] of the response, or
    the error the promise was rejected with. *)
Definition failure (c : Completion Response) : option Error :=
  match c with
  | Normal resp => error resp
  | Throw e => Some e
  end.

(** ** Dashboard.tsx: the pipeline board *)

Module Dashboard.

(** [stageConfig[stage].title] *)
Definition stageConfig_title (s : Stage) : string :=
  match s with
  | new => "New Prospects"
  | in_talks => "In Talks"
  | closed => "Closed Deals"
  end.

(** The [useState] cells of the component. *)
Record State : Type := mkState {
  prospects : list Prospect;
  loading : bool;
  showAddDialog : bool;
  editingProspect : option Prospect;
  showMetrics : bool
}.

(** [setProspects(prev => f prev)] *)
Definition setProspects (f : list Prospect -> list Prospect) (s : State)
  : State :=
  {| prospects := f (prospects s);
     loading := loading s;
     showAddDialog := showAddDialog s;
     editingProspect := editingProspect s;
     showMetrics := showMetrics s |}.

(** The requests the board sends to the [prospects] table. *)
Inductive Req : Type :=
| update_stage (newStage : Stage) (id : string)
    (* [.update({ stage: newStage }).eq('id', id)] *)
| delete_by_id (id : string).
    (* [.delete().eq('id', id)] *)

(** The drop result of the drag-and-drop library.  The droppables of the
    board are its three columns, [<Droppable droppableId={stage}>]: a
    [droppableId] is a stage. *)
Record DraggableLocation : Type := mkLocation {
  droppableId : Stage;
  index : nat
}.

Record DropResult : Type := mkDropResult {
  draggableId : string;
  source : DraggableLocation;
  destination : option DraggableLocation
}.

Section Handlers.

Variable supabase : Req -> Completion Response.

Local Open Scope eff_scope.

Definition handleDragEnd (result : DropResult) : Eff (Req := Req) unit :=
  match destination result with
  | None => ret tt
  | Some destination =>
      if stage_eqb (droppableId (source result)) (droppableId destination)
      then ret tt
      else
        let newStage := droppableId destination in
        try_catch
          (resp <- await supabase
                     (update_stage newStage (draggableId result)) ;;
           match error resp with
           | Some error => throw error
           | None =>
               update (setProspects (fun prev =>
                 map (fun prospect =>
                        if (id prospect =? draggableId result)%string
                        then with_stage newStage prospect
                        else prospect) prev)) ;;
               toast {| title := "Prospect moved";
                        description :=
                          "Moved to " ++ stageConfig_title newStage;
                        variant := None |}
           end)
          (fun error =>
             console_error "Error updating prospect stage:" error ;;
             toast {| title := "Error";
                      description := "Failed to update prospect stage";
                      variant := Some "destructive" |})
  end.

Definition handleDeleteProspect (prospectId : string)
  : Eff (Req := Req) unit :=
  try_catch
    (resp <- await supabase (delete_by_id prospectId) ;;
     match error resp with
     | Some error => throw error
     | None =>
         update (setProspects (fun prev =>
           filter (fun p => negb (id p =? prospectId)%string) prev)) ;;
         toast {| title := "Prospect deleted";
                  description := "Prospect has been removed successfully";
                  variant := None |}
     end)
    (fun error =>
       console_error "Error deleting prospect:" error ;;
       toast {| title := "Error";
                description := "Failed to delete prospect";
                variant := Some "destructive" |}).

End Handlers.

Section Card.

(** [new Intl.NumberFormat('en-US', { style: 'currency',
    currency: 'USD' }).format], a built-in. *)
Variable format_USD : float -> string.

(** [if (!amount) return ''] holds for [undefined] and for a falsy
    number, 0 among them. *)
Definition formatCurrency (amount : option float) : string :=
  match amount with
  | None => ""
  | Some a => if falsy_number a then "" else format_USD a
  end.

(** The value of a JSX child expression. *)
Inductive Child : Type :=
| child_undefined
| child_number (n : float)
| child_Badge (text : string).   (* [<Badge ...>text</Badge>] *)

(** [{prospect.value && (<Badge>{formatCurrency(prospect.value)}</Badge>)}]:
    [a && b] is [a] when [a] is falsy ([undefined], 0) and [b]
    otherwise. *)
Definition value_slot (prospect : Prospect) : Child :=
  match value prospect with
  | None => child_undefined
  | Some v =>
      if falsy_number v then child_number v
      else child_Badge (formatCurrency (value prospect))
  end.

(** What React puts on the page for a child: nothing for [undefined]
    ([null], [false]), a text node for a number (0 included), the
    element for an element. *)
Inductive Node : Type :=
| text_of_number (n : float)
| Badge (text : string).

Definition render (c : Child) : list Node :=
  match c with
  | child_undefined => []
  | child_number n => [text_of_number n]
  | child_Badge text => [Badge text]
  end.

Definition is_Badge (n : Node) : bool :=
  match n with
  | Badge _ => true
  | text_of_number _ => false
  end.

End Card.

End Dashboard.

(** ** Forms: [FormData] and the coercions of a payload *)

(** [new FormData(form)]: [formData.get(name)] is the text of the field
    [name], or [null] ([None]) when the form has no such field. *)
Definition FormData : Type := string -> option string.

Definition get (formData : FormData) (name : string) : option string :=
  formData name.

(** Truthiness of [string | null]: [null] and the empty string are falsy. *)
Definition truthy (x : option string) : bool :=
  match x with
  | None => false
  | Some s => negb (s =? "")
  end.

(** [x || null] *)
Definition or_null (x : option string) : option string :=
  if truthy x then x else None.

(** [x || d] *)
Definition or_default (x : option string) (d : string) : option string :=
  if truthy x then x else Some d.

(** [s.includes(search)]: [search] occurs in [s] at some position. *)
Fixpoint includes (s search : string) : bool :=
  prefix search s ||
  match s with
  | EmptyString => false
  | String _ s' => includes s' search
  end.

(** ** AddProspectDialog.tsx: the create form *)

Module AddProspectDialog.

(** The session's user, of which the form reads [user.id]. *)
Record User : Type := mkUser { id : string }.

(** The object [prospectData] handed to [insert].  A field cast with
    [as string] holds what [formData.get] returned. *)
Record ProspectData : Type := mkProspectData {
  user_id : string;
  full_name : option string;
  email : option string;
  phone : option string;
  company : option string;
  stage : option string;
  value : option float;
  notes : option string
}.

Inductive Req : Type :=
| insert (rows : list ProspectData).   (* [.from('prospects').insert(rows)] *)

Record State : Type := mkState { isLoading : bool }.

Definition setIsLoading (b : bool) (_ : State) : State :=
  {| isLoading := b |}.

Section Handlers.

Variable supabase : Req -> Completion Response.

(** [parseFloat], a built-in from text to doubles. *)
Variable parseFloat : string -> float.

Local Open Scope eff_scope.

Definition prospectData (user : User) (formData : FormData)
  : ProspectData :=
  {| user_id := id user;
     full_name := get formData "fullName";
     email := get formData "email";
     phone := or_null (get formData "phone");
     company := or_null (get formData "company");
     stage := or_default (get formData "stage") "new";
     value :=
       if truthy (get formData "value")
       then option_map parseFloat (get formData "value")
       else None;
     notes := or_null (get formData "notes") |}.

Definition handleSubmit (user : option User) (formData : FormData)
  : Eff (Req := Req) unit :=
  match user with
  | None => ret tt
  | Some user =>
      update (setIsLoading true) ;;
      finally
        (try_catch
           (resp <- await supabase (insert [prospectData user formData]) ;;
            match error resp with
            | Some error => throw error
            | None =>
                toast {| title := "Prospect added";
                         description :=
                           "New prospect has been added successfully";
                         variant := None |} ;;
                emit (Callback "onProspectAdded" None) ;;
                emit (Callback "onOpenChange" (Some false)) ;;
                emit (Callback "reset" None)
            end)
           (fun error =>
              console_error "Error adding prospect:" error ;;
              toast {| title := "Error";
                       description := "Failed to add prospect";
                       variant := Some "destructive" |}))
        (update (setIsLoading false))
  end.

End Handlers.

End AddProspectDialog.

(** ** The auth screen *)

Module Auth.

Inductive Req : Type :=
| signUp (email password fullName : option string).

Record State : Type := mkState { isLoading : bool }.

Definition setIsLoading (b : bool) (_ : State) : State :=
  {| isLoading := b |}.

Section Handlers.

(** [signUp] of the session provider, which answers [{ error }]. *)
Variable useAuth : Req -> Completion Response.

Local Open Scope eff_scope.

Definition handleSignUp (formData : FormData) : Eff (Req := Req) unit :=
  update (setIsLoading true) ;;
  let email := get formData "email" in
  let password := get formData "password" in
  let fullName := get formData "fullName" in
  resp <- await useAuth (signUp email password fullName) ;;
  match error resp with
  | Some error =>
      if includes (message error) "already registered"
      then toast {| title := "Account exists";
                    description :=
                      "This email is already registered. Please sign in instead.";
                    variant := Some "destructive" |}
      else toast {| title := "Sign up failed";
                    description := message error;
                    variant := Some "destructive" |}
  | None =>
      toast {| title := "Account created!";
               description :=
                 "Please check your email to verify your account.";
               variant := None |}
  end ;;
  update (setIsLoading false).

End Handlers.

End Auth.

(** ** The conversion rate in the words of the specification *)

(** A count as an exact number. *)
Definition of_nat (n : nat) : Q := inject_Z (Z.of_nat n).

(** [round(q, 1)] counted in tenths: the multiple of 1/10 nearest to [q],
    the upper one of two. *)
Definition round_tenths (q : Q) : Z := Qfloor (q * 10 + (1 # 2)).

(** A number of tenths written with one decimal place. *)
Definition one_decimal (tenths : Z) : string :=
  decimal (tenths / 10) ++ "." ++ digit (tenths mod 10).

(** "round(100 x closed/total, 1) when total > 0, "0.0" when total = 0" *)
Definition spec_conversionRate (total closed : nat) : string :=
  if (total =? 0)%nat then "0.0"
  else one_decimal (round_tenths (100 * (of_nat closed / of_nat total))).

(** The same with the text the component has for the empty list. *)
Definition amended_conversionRate (total closed : nat) : string :=
  if (total =? 0)%nat then "0"
  else one_decimal (round_tenths (100 * (of_nat closed / of_nat total))).

(** [100 * closed / total] lies half way between two tenths. *)
Definition half_way (closed total : nat) : Prop :=
  (0 < Z.of_nat total)%Z /\
  ((2000 * Z.of_nat closed + Z.of_nat total) mod (2 * Z.of_nat total) = 0)%Z.

(** ** Rounding in binary64 *)

(** The unit roundoff of binary64, 2^-53. *)
Definition unit_roundoff : Q := 1 # 9007199254740992.

(** The record [SpecFloat] keeps while it shifts a mantissa: the integer
    part of the rational [N / D], whether its fraction is at least a half,
    and whether anything is left besides. *)
Definition rep (N D : Z) (mrs : shr_record) : Prop :=
  shr_m mrs = (N / D)%Z /\
  shr_r mrs = (D <=? 2 * (N mod D))%Z /\
  shr_s mrs = negb (N mod D =? 0)%Z && negb (2 * (N mod D) =? D)%Z.

(** The location of [N / D] between two integers. *)
Definition loc_of (N D : Z) : location :=
  if (N mod D =? 0)%Z then loc_Exact
  else loc_Inexact (2 * (N mod D) ?= D)%Z.

(** ** The value totals in the words of the specification *)

(** The real number a double stands for, where it is finite. *)
Definition real (x : float) : Q :=
  match Prim2SF x with
  | S754_finite s m e => if s then - SFvalue m e else SFvalue m e
  | _ => 0
  end.

(** The value of a record, "treating an absent value as 0". *)
Definition value_or_absent (p : Prospect) : Q :=
  match value p with
  | Some v => real v
  | None => 0
  end.

(** The sum of [f] over the records of a list that satisfy [keep]. *)
Fixpoint sum_over (keep : Prospect -> bool) (f : Prospect -> Q)
    (ps : list Prospect) : Q :=
  match ps with
  | [] => 0
  | p :: ps' => (if keep p then f p else 0) + sum_over keep f ps'
  end.

(** "closed-stage records". *)
Definition closed_stage (p : Prospect) : bool :=
  match stage p with
  | closed => true
  | _ => false
  end.

(** A whole number below 2^53; such a number is a double. *)
Definition whole (v : float) : Prop :=
  exists n : nat, (Z.of_nat n < 2 ^ 53)%Z /\ v = float_of_nat n.

(** Every present value is a whole number, and so are the sums: the
    exact sum of the values is below 2^53. *)
Definition whole_values (ps : list Prospect) : Prop :=
  (forall p v, In p ps -> value p = Some v -> whole v) /\
  sum_over (fun _ => true) value_or_absent ps < inject_Z (2 ^ 53).

(** "every present value is non-negative": the comparison [0 <= v] of
    doubles holds, as it does for 0, for -0, for a positive number and
    for Infinity, and does not for NaN. *)
Definition values_nonneg (ps : list Prospect) : Prop :=
  forall p v, In p ps -> value p = Some v -> (0 <=? v)%float = true.

(** ** Sums of doubles

    The doubles of the totals are zero, positive or infinite.  They are
    counted here in units of 2^-1074, the least positive double, of which
    every finite double is a whole multiple; Infinity counts as [top],
    2^1024 in units, which no finite double reaches. *)

Definition top : Z := (2 ^ 2098)%Z.

Definition units (x : spec_float) : Z :=
  match x with
  | S754_finite false m e => (Z.pos m * 2 ^ (e + 1074))%Z
  | S754_infinity false => top
  | _ => 0%Z
  end.

(** The double +0, Infinity, or a positive double: a mantissa of 53 bits
    with an exponent of the format, or a shorter one with the least
    exponent. *)
Definition plain (x : spec_float) : Prop :=
  x = S754_zero false \/ x = S754_infinity false \/
  exists (m : positive) (e : Z),
    x = S754_finite false m e /\
    (Z.pos m < 2 ^ 53 /\ -1074 <= e <= 971 /\
     (2 ^ 52 <= Z.pos m \/ e = -1074))%Z.

(** [r] is a double next to the exact number [q], both in units, short
    of overflow: a number below 2^53 units is a double itself; otherwise
    [q] has [d] binary digits, [r] has at most 53 significant ones at
    this magnitude, and it is within half a unit in the last place of
    [q]. *)
Definition nearest (q r : Z) : Prop :=
  (0 <= q < 2 ^ 53 /\ r = q)%Z \/
  exists d : Z,
    (53 <= d /\ 2 ^ (d - 1) <= q < 2 ^ d /\
     (2 ^ (d - 53) | r) /\
     - 2 ^ (d - 53) <= 2 * (r - q) <= 2 ^ (d - 53))%Z.

(** [r] is the double the exact number [q] is rounded to: a double next
    to [q], or Infinity where that double is [top] or beyond. *)
Definition rounded (q r : Z) : Prop :=
  (top <= q /\ r = top)%Z \/
  (q < top /\ exists r0 : Z, nearest q r0 /\ r = Z.min r0 top)%Z.

(** ** Stage changes and deletions in the words of the specification *)

(** [p'] has every field of [p] other than [stage]. *)
Definition same_but_stage (p p' : Prospect) : Prop :=
  id p' = id p /\ user_id p' = user_id p /\ full_name p' = full_name p /\
  email p' = email p /\ phone p' = phone p /\ company p' = company p /\
  value p' = value p /\ notes p' = notes p /\ created_at p' = created_at p.

(** The list "with exactly the records of id [pid] removed". *)
Fixpoint without_id (pid : string) (ps : list Prospect) : list Prospect :=
  match ps with
  | [] => []
  | q :: ps' =>
      if (id q =? pid)%string then without_id pid ps'
      else q :: without_id pid ps'
  end.

(** The updater [handleDragEnd] hands to [setProspects], by name. *)
Definition moved (r : string) (B : Stage) (prev : list Prospect)
  : list Prospect :=
  map (fun prospect =>
         if (id prospect =? r)%string then with_stage B prospect
         else prospect) prev.

(** The records of id [pid]. *)
Definition with_id (pid : string) (ps : list Prospect) : list Prospect :=
  filter (fun q => (id q =? pid)%string) ps.

(** ** Sample data *)

(** The list of the three-record scenario. *)
Definition ada : Prospect :=
  mkProspect "p1" "u1" "Ada" "ada@example.com" None None
    new (Some 1000%float) None "2025-08-05T08:03:48Z".

Definition bob : Prospect :=
  mkProspect "p2" "u1" "Bob" "bob@example.com" None None
    in_talks (Some 500%float) None "2025-08-05T08:03:49Z".

Definition cyd : Prospect :=
  mkProspect "p3" "u1" "Cyd" "cyd@example.com" None None
    closed (Some 2000%float) None "2025-08-05T08:03:50Z".

Definition scenario : list Prospect := [ada; bob; cyd].

(** A record whose value is 0, and the same record without a value. *)
Definition dora : Prospect :=
  mkProspect "p4" "u1" "Dora" "dora@example.com" None None
    new (Some 0%float) None "2025-08-05T08:03:51Z".

Definition dora_no_value : Prospect :=
  mkProspect "p4" "u1" "Dora" "dora@example.com" None None
    new None None "2025-08-05T08:03:51Z".

(** A closed record of a given value; two records of 0.1 and 0.2, and
    three of 2.48, 0.01 and 0.01, in two orders. *)
Definition priced (pid : string) (v : float) : Prospect :=
  mkProspect pid "u1" "Eve" "eve@example.com" None None
    closed (Some v) None "2025-08-05T08:03:52Z".

#[warnings="-inexact-float"]
Definition dimes : list Prospect := [priced "p5" 0.1; priced "p6" 0.2].

#[warnings="-inexact-float"]
Definition cents_last : list Prospect :=
  [priced "p7" 2.48; priced "p8" 0.01; priced "p9" 0.01].

#[warnings="-inexact-float"]
Definition cents_first : list Prospect :=
  [priced "p8" 0.01; priced "p9" 0.01; priced "p7" 2.48].

(** The board showing the scenario's list. *)
Definition board : Dashboard.State :=
  Dashboard.mkState scenario false false None false.

(** A backend that accepts every request, one that answers every request
    with an error of the given message, and one that cannot be reached. *)
Definition accepting {Req : Type} (_ : Req) : Completion Response :=
  Normal {| error := None |}.

Definition rejecting {Req : Type} (msg : string) (_ : Req)
  : Completion Response :=
  Normal {| error := Some (mkError msg) |}.

Definition unreachable {Req : Type} (msg : string) (_ : Req)
  : Completion Response :=
  Throw (mkError msg).

(** A drag of the record [r] from column [A], dropped on [dest]. *)
Definition drag (r : string) (A : Stage)
    (dest : option Dashboard.DraggableLocation) : Dashboard.DropResult :=
  Dashboard.mkDropResult r (Dashboard.mkLocation A 0) dest.

(** The create form with the required fields filled and the rest as the
    page first shows it. *)
Definition required_only : FormData :=
  fun name =>
    if (name =? "fullName")%string then Some "Ada Lovelace"
    else if (name =? "email")%string then Some "ada@example.com"
    else if (name =? "stage")%string then Some "new"
    else if (name =? "password")%string then Some "secret"
    else Some "".

(** ** The create form in the words of the specification *)

(** A field "left blank": missing from the form, or empty. *)
Definition blank (x : option string) : Prop := x = None \/ x = Some "".

(** [msg] "contains the substring" [sub]. *)
Definition contains (msg sub : string) : Prop :=
  exists pre post : string, msg = pre ++ sub ++ post.

(** * The rest of the components *)

(** ** MetricsDialog.tsx: the pie chart, the stage breakdown, the recent
    records *)

Module MetricsDialog.

(** [stageColors] *)
Definition stageColors (s : Stage) : string :=
  match s with
  | new => "#3B82F6"
  | in_talks => "#F59E0B"
  | closed => "#10B981"
  end.

(** [stageLabels] *)
Definition stageLabels (s : Stage) : string :=
  match s with
  | new => "New Prospects"
  | in_talks => "In Talks"
  | closed => "Closed Deals"
  end.

(** The keys of [stageLabels], in the order [Object.entries] lists them. *)
Definition stages : list Stage := [new; in_talks; closed].

(** An entry of [pieData]: [{ name, value, color }]. *)
Record PieEntry : Type := mkPieEntry {
  name : string;
  value : nat;
  color : string
}.

(** What the card "Pipeline Distribution" shows. *)
Inductive PieCard : Type :=
| PieChart (data : list PieEntry)
| NoData.                        (* [<p>No data to display</p>] *)

Section Charts.

Variable NumberToString : Q -> string.

Variable prospects : list Prospect.

(** [[ ... ].filter(item => item.value > 0)] *)
Definition pieData : list PieEntry :=
  filter (fun item => (0 <? value item)%nat)
    [ {| name := "New Prospects";
         value := newProspects prospects;
         color := stageColors new |};
      {| name := "In Talks";
         value := inTalksProspects prospects;
         color := stageColors in_talks |};
      {| name := "Closed Deals";
         value := closedProspects prospects;
         color := stageColors closed |} ].

(** [pieData.length > 0 ? (<PieChart> ...) : (... No data to display ...)] *)
Definition pie_card : PieCard :=
  if (0 <? List.length pieData)%nat then PieChart pieData else NoData.

(** The stage breakdown:
    [const count = prospects.filter(p => p.stage === stage).length] *)
Definition count (stage : Stage) : nat :=
  List.length (filter (in_stage stage) prospects).

(** [totalProspects > 0
      ? ((count / totalProspects) * 100).toFixed(1) : '0'] *)
Definition percentage (stage : Stage) : string :=
  if (0 <? totalProspects prospects)%nat
  then toFixed NumberToString
         (float_of_nat (count stage)
          / float_of_nat (totalProspects prospects) * 100)%float
         1
  else "0".

(** [Object.entries(stageLabels).map(([stage, label]) => ...)]: the label,
    the text "% of total" follows, and the count in the badge. *)
Definition breakdown : list (string * string * nat) :=
  map (fun stage => (stageLabels stage, percentage stage, count stage))
    stages.

(** [new Date(text).getTime()], a built-in: the time value of a date text
    in milliseconds, [None] for an invalid date (NaN). *)
Variable Date_parse : string -> option Z.

(** [TimeClip]: a date further than 8.64e15 ms from the epoch is invalid. *)
Definition TimeClip (t : Z) : option Z :=
  if (Z.abs t <=? 8640000000000000)%Z then Some t else None.

(** [new Date(now.getTime() - 30 * 24 * 60 * 60 * 1000)] *)
Definition thirtyDaysAgo (now : Z) : option Z :=
  TimeClip (now - 30 * 24 * 60 * 60 * 1000).

(** [a >= b] on two dates: their time values are compared, and a
    comparison with NaN is false. *)
Definition date_ge (a b : option Z) : bool :=
  match a, b with
  | Some x, Some y => (y <=? x)%Z
  | _, _ => false
  end.

(** [getRecentProspects], at the time value [now] of [new Date()]. *)
Definition getRecentProspects (now : Z) : nat :=
  List.length
    (filter (fun p => date_ge (Date_parse (created_at p)) (thirtyDaysAgo now))
       prospects).

End Charts.

End MetricsDialog.

(** ** Dashboard.tsx: loading the list, the columns, the initials *)

Module Pipeline.

(** [.from('prospects').select('*')
      .order('created_at', { ascending: false })] *)
Inductive Req : Type :=
| select_all.

(** The response of a select: [{ data, error }]. *)
Record Rows : Type := mkRows {
  data : option (list Prospect);
  error : option Error
}.

(** [setLoading(b)] *)
Definition setLoading (b : bool) (s : Dashboard.State) : Dashboard.State :=
  {| Dashboard.prospects := Dashboard.prospects s;
     Dashboard.loading := b;
     Dashboard.showAddDialog := Dashboard.showAddDialog s;
     Dashboard.editingProspect := Dashboard.editingProspect s;
     Dashboard.showMetrics := Dashboard.showMetrics s |}.

Section Handlers.

Variable supabase : Req -> Completion Rows.

Local Open Scope eff_scope.

Definition fetchProspects : Eff (Req := Req) unit :=
  finally
    (try_catch
       (resp <- await supabase select_all ;;
        match error resp with
        | Some error => throw error
        | None =>
            (* [setProspects((data || []))] *)
            update (Dashboard.setProspects (fun _ =>
              match data resp with
              | Some rows => rows
              | None => []
              end))
        end)
       (fun error =>
          console_error "Error fetching prospects:" error ;;
          toast {| title := "Error";
                   description := "Failed to load prospects";
                   variant := Some "destructive" |}))
    (update (setLoading false)).

End Handlers.

(** [const stageProspects = prospects.filter(p => p.stage === stage)], the
    cards of the column [stage]. *)
Definition stageProspects (prospects : list Prospect) (stage : Stage)
  : list Prospect :=
  filter (in_stage stage) prospects.

(** [s.split(sep)] for a separator of one character. *)
Fixpoint split (sep : ascii) (s : string) : list string :=
  match s with
  | EmptyString => [""]
  | String c s' =>
      if (c =? sep)%char then "" :: split sep s'
      else
        match split sep s' with
        | w :: ws => String c w :: ws
        | [] => [String c ""]
        end
  end.

(** [n[0]]: the first character, [undefined] for the empty string. *)
Definition first (n : string) : option ascii :=
  match n with
  | EmptyString => None
  | String c _ => Some c
  end.

(** [l.join('')]: an [undefined] element is joined as the empty string. *)
Fixpoint join (l : list (option ascii)) : string :=
  match l with
  | [] => ""
  | None :: l' => join l'
  | Some c :: l' => String c (join l')
  end.

(** [name.split(' ').map(n => n[0]).join('')], the receiver of
    [toUpperCase] in [getInitials]. *)
Definition first_letters (name : string) : string :=
  join (map first (split " " name)).

Section Initials.

(** [String.prototype.toUpperCase], a built-in. *)
Variable toUpperCase : string -> string.

(** [s.slice(0, 2)] is [substring 0 2 s]: the first two characters, or all
    of a shorter string. *)
Definition getInitials (name : string) : string :=
  substring 0 2 (toUpperCase (first_letters name)).

End Initials.

End Pipeline.

(** ** EditProspectDialog.tsx: the edit form *)



Module EditProspectDialog.

Section Defaults.

(** [Number::toString]: the text of a number put in an attribute. *)
Variable NumberToString : float -> string.


End Defaults.

(** The object [updateData] handed to [update]. *)
Record UpdateData : Type := mkUpdateData {
  full_name : option string;
  email : option string;
  phone : option string;
  company : option string;
  stage : option string;
  value : option float;
  notes : option string
}.

Inductive Req : Type :=
| update_eq_id (updateData : UpdateData) (id : string).
    (* [.from('prospects').update(updateData).eq('id', id)] *)

Record State : Type := mkState { isLoading : bool; isDeleting : bool }.

Definition setIsLoading (b : bool) (s : State) : State :=
  {| isLoading := b; isDeleting := isDeleting s |}.

Section Handlers.

Variable supabase : Req -> Completion Response.

Variable parseFloat : string -> float.

(** The prop [prospect] of the dialog. *)
Variable prospect : Prospect.

Local Open Scope eff_scope.

Definition updateData (formData : FormData) : UpdateData :=
  {| full_name := get formData "fullName";
     email := get formData "email";
     phone := or_null (get formData "phone");
     company := or_null (get formData "company");
     stage := get formData "stage";
     value :=
       if truthy (get formData "value")
       then option_map parseFloat (get formData "value")
       else None;
     notes := or_null (get formData "notes") |}.

Definition handleSubmit (formData : FormData) : Eff (Req := Req) unit :=
  update (setIsLoading true) ;;
  finally
    (try_catch
       (resp <- await supabase
                  (update_eq_id (updateData formData) (id prospect)) ;;
        match error resp with
        | Some error => throw error
        | None =>
            toast {| title := "Prospect updated";
                     description :=
                       "Prospect information has been updated successfully";
                     variant := None |} ;;
            emit (Callback "onProspectUpdated" None) ;;
            emit (Callback "onOpenChange" (Some false))
        end)
       (fun error =>
          console_error "Error updating prospect:" error ;;
          toast {| title := "Error";
                   description := "Failed to update prospect";
                   variant := Some "destructive" |}))
    (update (setIsLoading false)).

End Handlers.

End EditProspectDialog.

(** ** The auth screen: signing in *)

Module SignIn.

Inductive Req : Type :=
| signIn (email password : option string).

Section Handlers.

(** [signIn] of the session provider, which answers [{ error }]. *)
Variable useAuth : Req -> Completion Response.

Local Open Scope eff_scope.

Definition handleSignIn (formData : FormData) : Eff (Req := Req) unit :=
  update (Auth.setIsLoading true) ;;
  let email := get formData "email" in
  let password := get formData "password" in
  resp <- await useAuth (signIn email password) ;;
  match error resp with
  | Some error =>
      toast {| title := "Sign in failed";
               description := message error;
               variant := Some "destructive" |}
  | None =>
      toast {| title := "Welcome back!";
               description := "You have successfully signed in.";
               variant := None |}
  end ;;
  update (Auth.setIsLoading false).

End Handlers.

End SignIn.

(** ** Words for the properties of these parts *)

(** The callbacks among the events of a trace. *)
Fixpoint callbacks {Req : Type} (t : list (Event Req))
  : list (string * option bool) :=
  match t with
  | [] => []
  | Callback name arg :: t' => (name, arg) :: callbacks t'
  | _ :: t' => callbacks t'
  end.

(** The sum of the values of the entries of a pie. *)
Definition pie_total (data : list MetricsDialog.PieEntry) : nat :=
  fold_right (fun item n => (MetricsDialog.value item + n)%nat) 0%nat data.

(** A word: a text without a space. *)
Fixpoint is_word (w : string) : bool :=
  match w with
  | EmptyString => true
  | String c w' => negb (c =? " ")%char && is_word w'
  end.

(** Words written one after the other, a space between two of them. *)
Fixpoint spaced (ws : list string) : string :=
  match ws with
  | [] => ""
  | [w] => w
  | w :: ws' => w ++ " " ++ spaced ws'
  end.


Definition refusing (msg : string) (_ : Pipeline.Req)
  : Completion Pipeline.Rows :=
  Normal {| Pipeline.data := None; Pipeline.error := Some (mkError msg) |}.

(** * Properties *)

(** ** Decimal digits *)

Lemma log2_tenth_lt (n : Z) : (10 <= n)%Z -> (Z.log2 (n / 10) < Z.log2 n)%Z.
Proof.
  intros Hn.
  assert (Hle : (n / 10 <= n / 2)%Z).
  { apply Z.div_le_compat_l; lia. }
  assert (H8 : (3 <= Z.log2 n)%Z).
  { change 3%Z with (Z.log2 8). apply Z.log2_le_mono. lia. }
  assert (Hhalf : Z.log2 (n / 2) = (Z.log2 n - 1)%Z).
  { change 2%Z with (2 ^ 1)%Z. rewrite <- Z.shiftr_div_pow2 by lia.
    rewrite Z.log2_shiftr by lia. lia. }
  apply Z.log2_le_mono in Hle. lia.
Qed.

Lemma decimal_fuel_enough (f1 f2 : nat) (n : Z) :
  (Z.log2 n < Z.of_nat f1)%Z -> (Z.log2 n < Z.of_nat f2)%Z ->
  decimal_fuel f1 n = decimal_fuel f2 n.
Proof.
  revert f2 n.
  induction f1 as [|f1 IH]; intros f2 n H1 H2.
  - pose proof (Z.log2_nonneg n). lia.
  - destruct f2 as [|f2].
    + pose proof (Z.log2_nonneg n). lia.
    + cbn [decimal_fuel].
      destruct (Z.ltb_spec n 10) as [Hlt|Hge]; [reflexivity|].
      pose proof (log2_tenth_lt n Hge).
      f_equal. apply IH; lia.
Qed.

Lemma decimal_small (n : Z) : (n < 10)%Z -> decimal n = digit n.
Proof.
  intros Hn. unfold decimal. cbn [decimal_fuel].
  destruct (Z.ltb_spec n 10); [reflexivity | lia].
Qed.

Lemma decimal_step (n : Z) :
  (10 <= n)%Z -> decimal n = decimal (n / 10) ++ digit (n mod 10).
Proof.
  intros Hn. unfold decimal at 1. cbn [decimal_fuel].
  destruct (Z.ltb_spec n 10); [lia|].
  f_equal. unfold decimal.
  pose proof (log2_tenth_lt n Hn).
  pose proof (Z.log2_nonneg (n / 10)).
  apply decimal_fuel_enough; lia.
Qed.

(** ** The digits of [decimal] read back *)

Lemma number_of_app (a b : string) (acc : Z) :
  number_of acc (a ++ b) = number_of (number_of acc a) b.
Proof.
  revert acc. induction a as [|c a IH]; intros acc; cbn; [reflexivity|].
  apply IH.
Qed.

Lemma number_of_digit (d acc : Z) :
  (0 <= d < 10)%Z -> number_of acc (digit d) = (10 * acc + d)%Z.
Proof.
  intros Hd. unfold digit. cbn [number_of].
  rewrite nat_ascii_embedding by lia. lia.
Qed.

(** [decimal n] is the decimal notation of [n]. *)
Lemma number_of_decimal (n : Z) : (0 <= n)%Z -> number_of 0 (decimal n) = n.
Proof.
  intros Hn. pattern n. apply Zlt_0_ind; [|exact Hn].
  clear n Hn. intros n IH Hn.
  destruct (Z_lt_le_dec n 10) as [Hlt|Hge].
  - rewrite decimal_small by exact Hlt. rewrite number_of_digit; lia.
  - rewrite decimal_step by exact Hge.
    rewrite number_of_app, IH.
    + pose proof (Z.mod_pos_bound n 10 ltac:(lia)).
      rewrite number_of_digit by lia.
      pose proof (Z.div_mod n 10 ltac:(lia)). lia.
    + split; [apply Z.div_pos; lia | apply Z.div_lt_upper_bound; lia].
Qed.

(** ** Slices of a string *)

Lemma length_app (a b : string) :
  String.length (a ++ b) = (String.length a + String.length b)%nat.
Proof.
  induction a as [|c a IH]; cbn; [reflexivity | now rewrite IH].
Qed.

Lemma substring_whole (b : string) : substring 0 (String.length b) b = b.
Proof.
  induction b as [|c b IH]; cbn; [reflexivity | now rewrite IH].
Qed.

Lemma substring_head (a b : string) :
  substring 0 (String.length a) (a ++ b) = a.
Proof.
  induction a as [|c a IH]; cbn.
  - now destruct b.
  - now rewrite IH.
Qed.

Lemma substring_tail (a b : string) (n : nat) :
  substring (String.length a) n (a ++ b) = substring 0 n b.
Proof.
  induction a as [|c a IH]; cbn; [reflexivity | exact IH].
Qed.

Lemma length_digit (d : Z) : String.length (digit d) = 1%nat.
Proof. reflexivity. Qed.

(** ** [toFixed(1)] *)

Section NumberFacts.

Variable NumberToString : Q -> string.

(** A non-negative real below 10^21 comes out of [toFixed(1)] as its
    nearest number of tenths, written with one decimal place. *)
Lemma toFixed_one (x : Q) :
  0 <= x -> x < inject_Z (10 ^ 21) ->
  toFixed_real NumberToString x 1 = one_decimal (round_tenths x).
Proof.
  intros Hpos Hbig.
  assert (H0 : Qle_bool 0 x = true) by now apply Qle_bool_iff.
  assert (H21 : Qle_bool (inject_Z (10 ^ 21)) x = false).
  { destruct (Qle_bool (inject_Z (10 ^ 21)) x) eqn:E; [|reflexivity].
    apply Qle_bool_iff in E. exfalso. exact (Qlt_not_le _ _ Hbig E). }
  unfold toFixed_real. rewrite H0, H21.
  change (inject_Z (10 ^ Z.of_nat 1)) with 10%Q.
  fold (round_tenths x).
  assert (Hn : (0 <= round_tenths x)%Z).
  { unfold round_tenths. change 0%Z with (Qfloor 0).
    apply Qfloor_resp_le.
    apply Qle_trans with (x * 10 + 0).
    - rewrite Qplus_0_r. apply Qmult_le_0_compat; [exact Hpos | discriminate].
    - apply Qplus_le_r. discriminate. }
  generalize dependent (round_tenths x). intros n Hn.
  unfold one_decimal. cbn [append].
  destruct (Z.eqb_spec n 0) as [->|Hnz].
  - reflexivity.
  - destruct (Z_lt_le_dec n 10) as [Hlt|Hge].
    + rewrite (decimal_small n Hlt).
      rewrite Z.div_small, Z.mod_small by lia.
      reflexivity.
    + rewrite (decimal_step n Hge).
      set (hi := decimal (n / 10)). set (lo := digit (n mod 10)).
      rewrite length_app. change (String.length lo) with 1%nat.
      assert (Hlen : (1 <= String.length hi)%nat).
      { subst hi. destruct (Z_lt_le_dec (n / 10) 10) as [Hs|Hs].
        - rewrite decimal_small by exact Hs. cbn. lia.
        - rewrite decimal_step by exact Hs. rewrite length_app, length_digit.
          lia. }
      destruct (Nat.leb_spec (String.length hi + 1) 1) as [Hk|Hk]; [lia|].
      replace (String.length hi + 1 - 1)%nat with (String.length hi) by lia.
      rewrite substring_head, substring_tail.
      change 1%nat with (String.length lo) at 1.
      rewrite substring_whole. reflexivity.
Qed.

End NumberFacts.

(** ** Rounding to tenths *)

(** [round_tenths q] is within a twentieth of [q], and it is the upper
    tenth when [q] is half way between two. *)
Lemma round_tenths_bounds (q : Q) :
  q - (1 # 20) < inject_Z (round_tenths q) / 10 /\
  inject_Z (round_tenths q) / 10 <= q + (1 # 20).
Proof.
  unfold round_tenths.
  pose proof (Qfloor_le (q * 10 + (1 # 2))) as Hlo.
  pose proof (Qlt_floor (q * 10 + (1 # 2))) as Hhi.
  rewrite inject_Z_plus in Hhi. change (inject_Z 1) with 1 in Hhi.
  set (n := inject_Z (Qfloor (q * 10 + (1 # 2)))) in *.
  split.
  - apply Qlt_shift_div_l; [reflexivity|]. lra.
  - apply Qle_shift_div_r; [reflexivity|]. lra.
Qed.

(** No other number of tenths is within these bounds. *)
Lemma round_tenths_unique (q : Q) (m : Z) :
  q - (1 # 20) < inject_Z m / 10 -> inject_Z m / 10 <= q + (1 # 20) ->
  m = round_tenths q.
Proof.
  intros Hlo Hhi.
  destruct (round_tenths_bounds q) as [Hlo' Hhi'].
  set (n := round_tenths q) in *.
  assert (Hm : inject_Z m / 10 == inject_Z m * (1 # 10)) by (field).
  assert (Hn : inject_Z n / 10 == inject_Z n * (1 # 10)) by (field).
  rewrite Hm in Hlo, Hhi. rewrite Hn in Hlo', Hhi'.
  assert (H1 : inject_Z m < inject_Z (n + 1)).
  { rewrite inject_Z_plus. change (inject_Z 1) with 1. lra. }
  assert (H2 : inject_Z n < inject_Z (m + 1)).
  { rewrite inject_Z_plus. change (inject_Z 1) with 1. lra. }
  rewrite <- Zlt_Qlt in H1, H2. lia.
Qed.

Lemma round_tenths_comp (p q : Q) : p == q -> round_tenths p = round_tenths q.
Proof.
  intros H. unfold round_tenths. apply Qfloor_comp. now rewrite H.
Qed.

(** ** Rounding in binary64

    [SpecFloat] defines the operations of binary64 on mantissas and
    exponents.  For operands in the normal range, away from underflow and
    overflow, the result of a division or a multiplication is a double
    within a relative error of 2^-53 of the exact result. *)

Section Rounding.

Local Open Scope Z_scope.

(** The number of binary digits of a mantissa. *)
Lemma digits2_pos_bounds (p : positive) :
  2 ^ (Z.pos (digits2_pos p) - 1) <= Z.pos p < 2 ^ Z.pos (digits2_pos p).
Proof.
  induction p as [p IH|p IH|]; cbn [digits2_pos].
  - rewrite Pos2Z.inj_succ.
    replace (Z.succ (Z.pos (digits2_pos p)) - 1)
      with (Z.succ (Z.pos (digits2_pos p) - 1)) by lia.
    rewrite !Z.pow_succ_r by lia. lia.
  - rewrite Pos2Z.inj_succ.
    replace (Z.succ (Z.pos (digits2_pos p)) - 1)
      with (Z.succ (Z.pos (digits2_pos p) - 1)) by lia.
    rewrite !Z.pow_succ_r by lia. lia.
  - cbn. lia.
Qed.

(** Conversely, the bounds determine the number of digits. *)
Lemma digits2_pos_unique (p : positive) (d : Z) :
  2 ^ (d - 1) <= Z.pos p < 2 ^ d -> Z.pos (digits2_pos p) = d.
Proof.
  intros [Hlo Hhi].
  destruct (digits2_pos_bounds p) as [Hlo' Hhi'].
  assert (Hd : 0 < d).
  { destruct (Z_lt_le_dec 0 d); [assumption|].
    rewrite Z.pow_neg_r in Hlo by lia.
    assert (2 ^ d <= 2 ^ 0) by (apply Z.pow_le_mono_r; lia). cbn in H. lia. }
  set (d' := Z.pos (digits2_pos p)) in *.
  destruct (Z.lt_trichotomy d' d) as [H|[H|H]]; [|assumption|].
  - assert (2 ^ d' <= 2 ^ (d - 1)) by (apply Z.pow_le_mono_r; lia). lia.
  - assert (2 ^ d <= 2 ^ (d' - 1)) by (apply Z.pow_le_mono_r; lia). lia.
Qed.

(** One shift halves the rational the record stands for. *)
Lemma rep_shr_1 (N D : Z) (mrs : shr_record) :
  0 <= N -> 0 < D -> rep N D mrs -> rep N (2 * D) (shr_1 mrs).
Proof.
  intros HN HD [Hm [Hr Hs]].
  assert (Hq : 0 <= N / D) by (apply Z.div_pos; lia).
  pose proof (Z.mod_pos_bound N D HD) as Hrho.
  pose proof (Z.div_mod N D ltac:(lia)) as Hdm.
  pose proof (Z.mod_pos_bound N (2 * D) ltac:(lia)) as Hrho2.
  pose proof (Z.div_mod N (2 * D) ltac:(lia)) as Hdm2.
  assert (Hdd : N / (2 * D) = N / D / 2).
  { rewrite Z.mul_comm. rewrite <- Z.div_div by lia. reflexivity. }
  pose proof (Z.div_mod (N / D) 2 ltac:(lia)) as Hpar.
  pose proof (Z.mod_pos_bound (N / D) 2 ltac:(lia)) as Hparb.
  assert (Hmod2 : N mod (2 * D) = N mod D + D * ((N / D) mod 2)) by nia.
  assert (Hb : (N / D) mod 2 = 0 /\ N mod (2 * D) = N mod D \/
               (N / D) mod 2 = 1 /\ N mod (2 * D) = N mod D + D).
  { assert (Hc : (N / D) mod 2 = 0 \/ (N / D) mod 2 = 1) by lia.
    destruct Hc as [Hc|Hc]; rewrite Hc in Hmod2; [left|right]; split; lia. }
  clear Hmod2 Hdm2 Hdm.
  destruct mrs as [m r s]. cbn [shr_m shr_r shr_s] in *. subst m.
  unfold rep.
  assert (Hs' : (r || s) = negb (N mod D =? 0)).
  { subst r s.
    destruct (Z.leb_spec D (2 * (N mod D))); destruct (Z.eqb_spec (N mod D) 0);
      destruct (Z.eqb_spec (2 * (N mod D)) D); cbn; try reflexivity; exfalso; lia. }
  assert (Hsfin : negb (N mod D =? 0) =
     negb (N mod (2 * D) =? 0) && negb (2 * (N mod (2 * D)) =? 2 * D)).
  { destruct (Z.eqb_spec (N mod D) 0); destruct (Z.eqb_spec (N mod (2 * D)) 0);
      destruct (Z.eqb_spec (2 * (N mod (2 * D))) (2 * D)); cbn; try reflexivity;
      exfalso; lia. }
  assert (Hrfin : (2 * D <=? 2 * (N mod (2 * D))) = Z.odd (N / D)).
  { destruct Hb as [[Hb1 Hb2]|[Hb1 Hb2]]; rewrite Zmod_odd in Hb1;
      destruct (Z.odd (N / D)); try discriminate Hb1.
    - apply Z.leb_gt. lia.
    - apply Z.leb_le. lia. }
  rewrite Hdd, Hrfin, <- Hsfin, <- Hs'. clear - Hq.
  destruct (N / D) as [|[p|p|]|p]; [| | | |lia]; cbn [shr_1 shr_m shr_r shr_s Z.odd];
    (split; [|split; reflexivity]).
  - reflexivity.
  - rewrite Pos2Z.inj_xI. apply Z.div_unique with 1; lia.
  - rewrite Pos2Z.inj_xO. apply Z.div_unique with 0; lia.
  - reflexivity.
Qed.

(** [p] shifts divide it by [2^p]. *)
Lemma rep_iter (p : positive) : forall (N D : Z) (mrs : shr_record),
  0 <= N -> 0 < D -> rep N D mrs ->
  rep N (2 ^ Z.pos p * D) (iter_pos shr_1 p mrs).
Proof.
  induction p as [p IH|p IH|]; intros N D mrs HN HD H; cbn [iter_pos].
  - apply rep_shr_1 in H; [|assumption..].
    apply IH in H; [|lia..]. apply IH in H; [|nia..].
    replace (2 ^ Z.pos p~1 * D) with (2 ^ Z.pos p * (2 ^ Z.pos p * (2 * D))); [exact H|].
    replace (Z.pos p~1) with (Z.pos p + Z.pos p + 1) by lia.
    rewrite !Z.pow_add_r by lia. change (2 ^ 1) with 2. ring.
  - apply IH in H; [|lia..]. apply IH in H; [|nia..].
    replace (2 ^ Z.pos p~0 * D) with (2 ^ Z.pos p * (2 ^ Z.pos p * D)); [exact H|].
    replace (Z.pos p~0) with (Z.pos p + Z.pos p) by lia.
    rewrite !Z.pow_add_r by lia. ring.
  - apply rep_shr_1 in H; [|assumption..]. exact H.
Qed.

(** The record built from the integer part and the location of [N / D]
    stands for [N / D]. *)
Lemma rep_of_loc (N D : Z) :
  0 < D -> rep N D (shr_record_of_loc (N / D) (loc_of N D)).
Proof.
  intros HD. unfold rep, loc_of.
  pose proof (Z.mod_pos_bound N D HD) as Hrho.
  destruct (Z.eqb_spec (N mod D) 0) as [E|E].
  - cbn [shr_record_of_loc shr_m shr_r shr_s negb andb].
    repeat split. symmetry. apply Z.leb_gt. lia.
  - destruct (Z.compare_spec (2 * (N mod D)) D) as [C|C|C];
      cbn [shr_record_of_loc shr_m shr_r shr_s negb andb];
      (split; [reflexivity|]); split; symmetry.
    + apply Z.leb_le. lia.
    + apply negb_false_iff, Z.eqb_eq. exact C.
    + apply Z.leb_gt. lia.
    + apply negb_true_iff, Z.eqb_neq. lia.
    + apply Z.leb_le. lia.
    + apply negb_true_iff, Z.eqb_neq. lia.
Qed.

(** Rounding to nearest, ties to even, picks a neighbouring integer
    within a half of the rational. *)
Lemma round_rep (N D : Z) (mrs : shr_record) :
  0 < D -> rep N D mrs ->
  let m1 := round_nearest_even (shr_m mrs) (loc_of_shr_record mrs) in
  (m1 = N / D \/ m1 = N / D + 1) /\
  - D <= 2 * (m1 * D - N) <= D.
Proof.
  intros HD [Hm [Hr Hs]] m1. subst m1.
  pose proof (Z.mod_pos_bound N D HD) as Hrho.
  pose proof (Z.div_mod N D ltac:(lia)) as Hdm.
  destruct mrs as [m r s]. cbn [shr_m shr_r shr_s loc_of_shr_record] in *.
  subst m.
  destruct r, s; cbn [round_nearest_even];
    symmetry in Hr; symmetry in Hs;
    [apply Z.leb_le in Hr | apply Z.leb_le in Hr
    | apply Z.leb_gt in Hr | apply Z.leb_gt in Hr].
  - apply andb_true_iff in Hs. destruct Hs as [_ Hs].
    apply negb_true_iff, Z.eqb_neq in Hs. split; [right; reflexivity | nia].
  - apply andb_false_iff in Hs.
    assert (E : 2 * (N mod D) = D).
    { destruct Hs as [Hs|Hs]; apply negb_false_iff, Z.eqb_eq in Hs; lia. }
    destruct (Z.even (N / D)); (split; [auto | nia]).
  - split; [left; reflexivity | nia].
  - apply andb_false_iff in Hs.
    assert (E : N mod D = 0).
    { destruct Hs as [Hs|Hs]; apply negb_false_iff, Z.eqb_eq in Hs; lia. }
    split; [left; reflexivity | nia].
Qed.

Lemma Zdigits2_bounds (m d : Z) :
  0 < d -> Zdigits2 m = d -> 0 <= m -> 2 ^ (d - 1) <= m < 2 ^ d.
Proof.
  intros Hd H Hm. destruct m as [|p|p]; cbn in H; [lia| |lia].
  subst d. apply digits2_pos_bounds.
Qed.

(** The exponent of the format, away from underflow. *)
Lemma fexp_normal (E : Z) :
  -1074 <= E - 53 -> fexp prec emax E = E - 53.
Proof.
  intros H. unfold fexp, SpecFloat.emin, prec, emax. lia.
Qed.

(** The rounding step of every operation.  The mantissa [N / D] in units
    of [2^ex], with its location, has at least 53 digits and is away from
    underflow: the result is the double [m * 2^e] of a 53-bit mantissa,
    or Infinity if [e] is beyond the exponents of the format, and
    [m * 2^(e - ex)] is within half a unit in the last place of [N / D]. *)
Lemma binary_round_aux_wide (s : bool) (N D ex : Z) :
  0 < D -> 0 <= N ->
  let mx := N / D in
  let d := Zdigits2 mx in
  53 <= d -> -1074 <= d + ex - 53 ->
  exists (m : positive) (e : Z),
    binary_round_aux prec emax s mx ex (loc_of N D)
    = (if e <=? emax - prec then S754_finite s m e else S754_infinity s) /\
    2 ^ 52 <= Z.pos m < 2 ^ 53 /\
    ex + (d - 53) <= e <= ex + (d - 53) + 1 /\
    - (2 ^ (d - 53) * D) <= 2 * (Z.pos m * 2 ^ (e - ex) * D - N)
      <= 2 ^ (d - 53) * D.
Proof.
  intros HD HN mx d Hd Hlo.
  assert (Hmx0 : 0 <= mx) by (apply Z.div_pos; lia).
  destruct (Zdigits2_bounds mx d ltac:(lia) eq_refl Hmx0) as [Hmlo Hmhi].
  set (k := d - 53) in *.
  assert (Hk : 0 <= k) by lia.
  assert (H2k : 0 < 2 ^ k) by (apply Z.pow_pos_nonneg; lia).
  (* first shift *)
  assert (Hfirst : exists mrs', 
             shr (shr_record_of_loc mx (loc_of N D)) ex k = (mrs', ex + k) /\
             rep N (2 ^ k * D) mrs').
  { pose proof (rep_of_loc N D HD) as Hrep. fold mx in Hrep.
    destruct k as [|p|p] eqn:Ek; [| |lia].
    - eexists. split; [cbn [shr]; rewrite Z.add_0_r; reflexivity|].
      change (2 ^ 0) with 1. rewrite Z.mul_1_l. exact Hrep.
    - eexists. split; [cbn [shr]; reflexivity|].
      apply rep_iter; assumption. }
  destruct Hfirst as [mrs' [Hshr Hrep']].
  unfold binary_round_aux, shr_fexp.
  fold d. rewrite (fexp_normal (d + ex)) by lia.
  replace (d + ex - 53 - ex) with k by lia.
  rewrite Hshr.
  pose proof (round_rep N (2 ^ k * D) mrs' ltac:(nia) Hrep') as [Hm1 Herr].
  set (m1 := round_nearest_even (shr_m mrs') (loc_of_shr_record mrs')) in *.
  assert (Hq' : N / (2 ^ k * D) = mx / 2 ^ k).
  { subst mx. rewrite (Z.mul_comm (2 ^ k) D), Z.div_div by lia. reflexivity. }
  assert (Hqlo : 2 ^ 52 <= mx / 2 ^ k).
  { apply Z.div_le_lower_bound; [lia|].
    rewrite <- Z.pow_add_r by lia. replace (k + 52) with (d - 1) by lia. exact Hmlo. }
  assert (Hqhi : mx / 2 ^ k < 2 ^ 53).
  { apply Z.div_lt_upper_bound; [lia|].
    rewrite <- Z.pow_add_r by lia. replace (k + 53) with d by lia. exact Hmhi. }
  rewrite Hq' in Hm1.
  assert (Hm1r : 2 ^ 52 <= m1 <= 2 ^ 53) by lia.
  destruct (Z_lt_le_dec m1 (2 ^ 53)) as [Hlt|Hge].
  - (* no carry *)
    destruct m1 as [|m|m] eqn:Em1; [cbn in Hm1r; lia| |lia].
    assert (Hdig : Zdigits2 (Z.pos m) = 53).
    { cbn [Zdigits2]. apply digits2_pos_unique. change (53 - 1) with 52. lia. }
    rewrite Hdig, (fexp_normal (53 + (ex + k))) by lia.
    replace (53 + (ex + k) - 53 - (ex + k)) with 0 by lia.
    cbn [shr shr_record_of_loc shr_m].
    exists m, (ex + k).
    split; [reflexivity|]. split; [lia|]. split; [lia|].
    replace (ex + k - ex) with k by lia. lia.
  - (* carry *)
    assert (Em1 : m1 = 2 ^ 53) by lia.
    rewrite Em1 in *.
    change (2 ^ 53) with 9007199254740992 at 1 2.
    cbn [Zdigits2 digits2_pos Pos.succ].
    rewrite (fexp_normal (54 + (ex + k))) by lia.
    replace (54 + (ex + k) - 53 - (ex + k)) with 1 by lia.
    cbn [shr shr_record_of_loc iter_pos shr_1 shr_m].
    eexists _, (ex + k + 1).
    split; [reflexivity|]. split; [cbn; lia|]. split; [lia|].
    replace (ex + k + 1 - ex) with (k + 1) by lia.
    rewrite Z.pow_add_r by lia. change (2 ^ 1) with 2.
    change (2 ^ 53) with 9007199254740992 in Herr. lia.
Qed.

(** The same step away from overflow too: the result is a normal
    double. *)
Lemma binary_round_aux_normal (s : bool) (N D ex : Z) :
  0 < D -> 0 <= N ->
  let mx := N / D in
  let d := Zdigits2 mx in
  53 <= d -> -1074 <= d + ex - 53 -> d + ex <= 1023 ->
  exists (m : positive) (e : Z),
    binary_round_aux prec emax s mx ex (loc_of N D) = S754_finite s m e /\
    2 ^ 52 <= Z.pos m < 2 ^ 53 /\
    ex + (d - 53) <= e <= ex + (d - 53) + 1 /\
    - (2 ^ (d - 53) * D) <= 2 * (Z.pos m * 2 ^ (e - ex) * D - N)
      <= 2 ^ (d - 53) * D.
Proof.
  intros HD HN mx d Hd Hlo Hhi.
  destruct (binary_round_aux_wide s N D ex HD HN Hd Hlo)
    as [m [e [Hr [Hm [He Herr]]]]].
  fold mx d in Hr, He, Herr.
  assert (Hle : (e <=? emax - prec) = true).
  { apply Z.leb_le. unfold emax, prec. lia. }
  rewrite Hle in Hr. exists m, e. auto.
Qed.

Lemma loc_of_exact (N : Z) : loc_of N 1 = loc_Exact.
Proof. unfold loc_of. now rewrite Z.mod_1_r. Qed.

(** Shifting a mantissa left. *)
Lemma pos_iter_xO (p q : positive) :
  Z.pos (Pos.iter xO p q) = Z.pos p * 2 ^ Z.pos q.
Proof.
  induction q as [|q IH] using Pos.peano_ind.
  - cbn [Pos.iter]. rewrite Pos2Z.inj_xO. change (2 ^ 1) with 2. lia.
  - rewrite Pos.iter_succ, Pos2Z.inj_xO, IH, Pos2Z.inj_succ, Z.pow_succ_r by lia.
    ring.
Qed.

(** An integer below 2^53 is a double. *)
Lemma binary_normalize_int (n : Z) :
  0 < n < 2 ^ 53 ->
  exists (m : positive) (e : Z),
    binary_normalize prec emax n 0 false = S754_finite false m e /\
    2 ^ 52 <= Z.pos m < 2 ^ 53 /\ -52 <= e <= 0 /\
    Z.pos m = n * 2 ^ (- e).
Proof.
  intros [Hn0 Hn53]. destruct n as [|p|p]; [lia| |lia].
  cbn [binary_normalize]. unfold binary_round.
  pose proof (digits2_pos_bounds p) as Hd.
  set (d := Z.pos (digits2_pos p)) in *.
  assert (Hd53 : d <= 53).
  { destruct (Z_le_gt_dec d 53); [assumption|].
    assert (2 ^ 53 <= 2 ^ (d - 1)) by (apply Z.pow_le_mono_r; lia). lia. }
  assert (Hd1 : 1 <= d) by (subst d; lia).
  rewrite (fexp_normal (d + 0)) by lia.
  assert (Halign : exists mz, shl_align p 0 (d + 0 - 53) = (mz, d - 53) /\
                     Z.pos mz = Z.pos p * 2 ^ (53 - d)).
  { unfold shl_align. replace (d + 0 - 53 - 0) with (d - 53) by lia.
    destruct (d - 53) as [|k|k] eqn:Ek; [| lia |].
    - exists p. split; [reflexivity|]. replace (53 - d) with 0 by lia. lia.
    - exists (Pos.iter xO p k). split; [f_equal; lia|].
      rewrite pos_iter_xO. f_equal. f_equal. lia. }
  destruct Halign as [mz [-> Hmz]].
  assert (Hmzr : 2 ^ 52 <= Z.pos mz < 2 ^ 53).
  { rewrite Hmz. split.
    - replace 52 with ((d - 1) + (53 - d)) by lia.
      rewrite Z.pow_add_r by lia. apply Z.mul_le_mono_nonneg_r; [|lia].
      apply Z.pow_nonneg; lia.
    - replace 53 with (d + (53 - d)) at 2 by lia.
      rewrite Z.pow_add_r by lia. apply Z.mul_lt_mono_pos_r; [|lia].
      apply Z.pow_pos_nonneg; lia. }
  assert (Hdig : Zdigits2 (Z.pos mz) = 53).
  { cbn [Zdigits2]. apply digits2_pos_unique. change (53 - 1) with 52. exact Hmzr. }
  pose proof (binary_round_aux_normal false (Z.pos mz) 1 (d - 53)
                ltac:(lia) ltac:(lia)) as H.
  cbv zeta in H. rewrite Z.div_1_r, Hdig, loc_of_exact in H.
  specialize (H ltac:(lia) ltac:(lia) ltac:(lia)).
  destruct H as [m [e [Hr [Hm [He Herr]]]]].
  change (2 ^ (53 - 53)) with 1 in Herr.
  assert (Hee : e = d - 53).
  { destruct (Z.eq_dec e (d - 53)) as [E|E]; [exact E|].
    assert (E1 : e - (d - 53) = 1) by lia. rewrite E1 in Herr.
    change (2 ^ 1) with 2 in Herr. lia. }
  subst e. replace (d - 53 - (d - 53)) with 0 in Herr by lia.
  change (2 ^ 0) with 1 in Herr.
  exists m, (d - 53). split; [exact Hr|]. split; [exact Hm|]. split; [lia|].
  replace (- (d - 53)) with (53 - d) by lia. lia.
Qed.

(** The relative form of the rounding error: with [V] the rounded
    mantissa in units of [2^ex], [V * D] is within [V * D / 2^53] of [N]. *)
Lemma binary_round_aux_relative (s : bool) (N D ex : Z) :
  0 < D -> 0 <= N ->
  53 <= Zdigits2 (N / D) ->
  -1074 <= Zdigits2 (N / D) + ex - 53 -> Zdigits2 (N / D) + ex <= 1023 ->
  exists (m : positive) (e : Z),
    binary_round_aux prec emax s (N / D) ex (loc_of N D) = S754_finite s m e /\
    2 ^ 52 <= Z.pos m < 2 ^ 53 /\
    ex + (Zdigits2 (N / D) - 53) <= e <= ex + (Zdigits2 (N / D) - 53) + 1 /\
    - (Z.pos m * 2 ^ (e - ex) * D)
      <= 2 ^ 53 * (Z.pos m * 2 ^ (e - ex) * D - N)
      <= Z.pos m * 2 ^ (e - ex) * D.
Proof.
  intros HD HN Hd Hlo Hhi.
  destruct (binary_round_aux_normal s N D ex HD HN Hd Hlo Hhi)
    as [m [e [Hr [Hm [He Herr]]]]].
  exists m, e. split; [exact Hr|]. split; [exact Hm|]. split; [exact He|].
  set (k := Zdigits2 (N / D) - 53) in *.
  assert (Hk : 0 <= k) by lia.
  assert (Hpow : 2 ^ k <= 2 ^ (e - ex)) by (apply Z.pow_le_mono_r; lia).
  assert (H2k : 0 < 2 ^ k) by (apply Z.pow_pos_nonneg; lia).
  set (V := Z.pos m * 2 ^ (e - ex)) in *.
  assert (HV : 2 ^ 52 * 2 ^ k <= V).
  { subst V. apply Z.mul_le_mono_nonneg; lia. }
  assert (HVD : 2 ^ 52 * (2 ^ k * D) <= V * D).
  { rewrite Z.mul_assoc. apply Z.mul_le_mono_nonneg_r; lia. }
  change (2 ^ 53) with (2 ^ 52 * 2). change (2 ^ 52) with 4503599627370496 in *.
  lia.
Qed.

(** The location [SFdiv] computes from the remainder [r] of a division by
    [D] is the location of the quotient. *)
Lemma new_location_loc (D r : Z) :
  0 < D -> 0 <= r < D ->
  new_location D r = if r =? 0 then loc_Exact else loc_Inexact (2 * r ?= D).
Proof.
  intros HD Hr. unfold new_location, new_location_even, new_location_odd.
  destruct (Z.even D) eqn:Ev; [reflexivity|].
  destruct (Z.eqb_spec r 0); [reflexivity|]. f_equal.
  assert (Hodd : D mod 2 = 1).
  { rewrite Zmod_even, Ev. reflexivity. }
  pose proof (Z.div_mod D 2 ltac:(lia)) as Hdm.
  destruct (Z.compare_spec (2 * r + 1) D); destruct (Z.compare_spec (2 * r) D);
    try reflexivity; exfalso; lia.
Qed.

(** Bounds on a mantissa bound its number of digits. *)
Lemma digits_between (q : Z) (a b : Z) :
  0 < a -> 2 ^ (a - 1) <= q < 2 ^ b -> a <= Zdigits2 q <= b.
Proof.
  intros Ha [Hlo Hhi].
  assert (0 < 2 ^ (a - 1)) by (apply Z.pow_pos_nonneg; lia).
  destruct q as [|p|p]; [lia| |lia]. cbn [Zdigits2].
  destruct (digits2_pos_bounds p) as [Hl Hh].
  set (d := Z.pos (digits2_pos p)) in *.
  split.
  - destruct (Z_le_gt_dec a d); [assumption|].
    assert (2 ^ d <= 2 ^ (a - 1)) by (apply Z.pow_le_mono_r; lia). lia.
  - destruct (Z_le_gt_dec d b); [assumption|].
    assert (0 <= b).
    { destruct (Z_le_gt_dec 0 b); [assumption|].
      rewrite Z.pow_neg_r in Hhi by lia. lia. }
    assert (2 ^ b <= 2 ^ (d - 1)) by (apply Z.pow_le_mono_r; lia). lia.
Qed.

(** The quotient of two normal doubles of moderate exponents. *)
Lemma SFdiv_normal (mx my : positive) (ex ey : Z) :
  2 ^ 52 <= Z.pos mx < 2 ^ 53 -> 2 ^ 52 <= Z.pos my < 2 ^ 53 ->
  -900 <= ex - ey <= 900 ->
  exists (m : positive) (e : Z),
    SFdiv prec emax (S754_finite false mx ex) (S754_finite false my ey)
    = S754_finite false m e /\
    2 ^ 52 <= Z.pos m < 2 ^ 53 /\
    ex - ey - 53 <= e <= ex - ey - 51 /\
    - (Z.pos m * 2 ^ (e - (ex - ey - 53)) * Z.pos my)
      <= 2 ^ 53 * (Z.pos m * 2 ^ (e - (ex - ey - 53)) * Z.pos my
                   - Z.pos mx * 2 ^ 53)
      <= Z.pos m * 2 ^ (e - (ex - ey - 53)) * Z.pos my.
Proof.
  intros Hx Hy He.
  assert (Hdx : Zdigits2 (Z.pos mx) = 53).
  { cbn [Zdigits2]. apply digits2_pos_unique. change (53 - 1) with 52. exact Hx. }
  assert (Hdy : Zdigits2 (Z.pos my) = 53).
  { cbn [Zdigits2]. apply digits2_pos_unique. change (53 - 1) with 52. exact Hy. }
  unfold SFdiv, SFdiv_core_binary. rewrite Hdx, Hdy.
  replace (53 + ex - (53 + ey)) with (ex - ey) by lia.
  rewrite (fexp_normal (ex - ey)) by lia.
  rewrite Z.min_l by lia.
  replace (ex - ey - (ex - ey - 53)) with 53 by lia.
  rewrite Z.shiftl_mul_pow2 by lia.
  set (N := Z.pos mx * 2 ^ 53). set (D := Z.pos my).
  assert (HD : 0 < D) by (subst D; lia).
  assert (HN : 0 <= N) by (subst N; lia).
  pose proof (Z_div_mod N D ltac:(lia)) as Hdiv.
  unfold Z.div, Z.modulo in *.
  destruct (Z.div_eucl N D) as [q r] eqn:Eqr.
  destruct Hdiv as [HNq Hr].
  assert (Hq : q = N / D).
  { unfold Z.div. now rewrite Eqr. }
  assert (Hrr : r = N mod D).
  { unfold Z.modulo. now rewrite Eqr. }
  rewrite (new_location_loc D r HD Hr).
  assert (Hloc : (if r =? 0 then loc_Exact else loc_Inexact (2 * r ?= D))
                 = loc_of N D).
  { unfold loc_of. now rewrite <- Hrr. }
  rewrite Hloc, Hq. cbn [xorb].
  assert (Hqr : 2 ^ 52 <= N / D < 2 ^ 54).
  { split.
    - apply Z.div_le_lower_bound; [lia|]. subst N D.
      change (2 ^ 53) with 9007199254740992 in *.
      change (2 ^ 52) with 4503599627370496 in *. nia.
    - apply Z.div_lt_upper_bound; [lia|]. subst N D.
      change (2 ^ 54) with 18014398509481984.
      change (2 ^ 53) with 9007199254740992 in *.
      change (2 ^ 52) with 4503599627370496 in *. nia. }
  pose proof (digits_between (N / D) 53 54 ltac:(lia) Hqr) as Hdq.
  destruct (binary_round_aux_relative false N D (ex - ey - 53) HD HN
              ltac:(lia) ltac:(lia) ltac:(lia)) as [m [e [Hres [Hm [Hee Herr]]]]].
  exists m, e. split; [exact Hres|]. split; [exact Hm|]. split; [lia|exact Herr].
Qed.

(** The product of two normal doubles of moderate exponents. *)
Lemma SFmul_normal (mx my : positive) (ex ey : Z) :
  2 ^ 52 <= Z.pos mx < 2 ^ 53 -> 2 ^ 52 <= Z.pos my < 2 ^ 53 ->
  -900 <= ex + ey <= 800 ->
  exists (m : positive) (e : Z),
    SFmul prec emax (S754_finite false mx ex) (S754_finite false my ey)
    = S754_finite false m e /\
    2 ^ 52 <= Z.pos m < 2 ^ 53 /\
    ex + ey + 52 <= e <= ex + ey + 54 /\
    - (Z.pos m * 2 ^ (e - (ex + ey)))
      <= 2 ^ 53 * (Z.pos m * 2 ^ (e - (ex + ey)) - Z.pos mx * Z.pos my)
      <= Z.pos m * 2 ^ (e - (ex + ey)).
Proof.
  intros Hx Hy He.
  unfold SFmul. cbn [xorb].
  set (N := Z.pos mx * Z.pos my).
  assert (HN : 0 <= N) by (subst N; lia).
  assert (HNr : 2 ^ 104 <= N < 2 ^ 106).
  { subst N. change (2 ^ 104) with (2 ^ 52 * 2 ^ 52).
    change (2 ^ 106) with (2 ^ 53 * 2 ^ 53).
    change (2 ^ 53) with 9007199254740992 in *.
    change (2 ^ 52) with 4503599627370496 in *. nia. }
  pose proof (digits_between N 105 106 ltac:(lia) HNr) as Hd.
  pose proof (binary_round_aux_relative false N 1 (ex + ey) ltac:(lia) HN) as H.
  rewrite Z.div_1_r, loc_of_exact in H.
  destruct (H ltac:(lia) ltac:(lia) ltac:(lia)) as [m [e [Hres [Hm [Hee Herr]]]]].
  exists m, e. subst N.
  split; [exact Hres|]. split; [exact Hm|]. split; [lia|].
  rewrite !Z.mul_1_r in Herr. exact Herr.
Qed.

End Rounding.

(** ** The percentage in binary64 *)

Lemma pow2_pos (e : Z) : 0 < pow2 e.
Proof. unfold pow2. apply Qpower_0_lt. reflexivity. Qed.

Lemma pow2_plus (a b : Z) : pow2 (a + b) == pow2 a * pow2 b.
Proof. unfold pow2. apply Qpower_plus. discriminate. Qed.

Lemma pow2_of_Z (j : Z) : (0 <= j)%Z -> inject_Z (2 ^ j) == pow2 j.
Proof. intros H. unfold pow2. now rewrite Zpower_Qpower. Qed.

(** The relative error over the rationals, at any scale [sigma]. *)
Lemma rel_scale (V N D : Z) (sigma : Q) :
  (0 < D)%Z -> 0 < sigma ->
  (- (V * D) <= 2 ^ 53 * (V * D - N) <= V * D)%Z ->
  (1 - unit_roundoff) * (inject_Z V * sigma) <= inject_Z N / inject_Z D * sigma /\
  inject_Z N / inject_Z D * sigma <= (1 + unit_roundoff) * (inject_Z V * sigma).
Proof.
  intros HD Hs [Hlo Hhi].
  assert (Hd : 0 < inject_Z D).
  { change 0 with (inject_Z 0). now rewrite <- Zlt_Qlt. }
  change (2 ^ 53)%Z with 9007199254740992%Z in Hlo, Hhi.
  assert (Ha : (9007199254740991 * (V * D) <= 9007199254740992 * N)%Z) by lia.
  assert (Hb : (9007199254740992 * N <= 9007199254740993 * (V * D))%Z) by lia.
  clear Hlo Hhi.
  rewrite Zle_Qle, !inject_Z_mult in Ha, Hb.
  change (inject_Z 9007199254740991) with (9007199254740991 # 1) in Ha.
  change (inject_Z 9007199254740992) with (9007199254740992 # 1) in Ha, Hb.
  change (inject_Z 9007199254740993) with (9007199254740993 # 1) in Hb.
  set (a := inject_Z V) in *. set (n := inject_Z N) in *.
  set (d := inject_Z D) in *.
  assert (H1 : (1 - unit_roundoff) * a <= n / d).
  { apply Qle_shift_div_l; [exact Hd|]. unfold unit_roundoff. lra. }
  assert (H2 : n / d <= (1 + unit_roundoff) * a).
  { apply Qle_shift_div_r; [exact Hd|]. unfold unit_roundoff. lra. }
  split.
  - rewrite Qmult_assoc. apply Qmult_le_compat_r; [exact H1 | lra].
  - rewrite Qmult_assoc. apply Qmult_le_compat_r; [exact H2 | lra].
Qed.

(** A positive count below 2^53 is a normal double of that value. *)
Lemma Prim2SF_of_nat (n : nat) :
  (0 < Z.of_nat n < 2 ^ 53)%Z ->
  exists (m : positive) (e : Z),
    Prim2SF (float_of_nat n) = S754_finite false m e /\
    (2 ^ 52 <= Z.pos m < 2 ^ 53)%Z /\ (-52 <= e <= 0)%Z /\
    inject_Z (Z.pos m) == of_nat n * pow2 (- e).
Proof.
  intros Hn. unfold float_of_nat.
  rewrite FloatAxioms.of_uint63_spec, Uint63.of_Z_spec.
  rewrite Z.mod_small.
  - destruct (binary_normalize_int (Z.of_nat n) Hn) as [m [e [H [Hm [He Hv]]]]].
    exists m, e. split; [exact H|]. split; [exact Hm|]. split; [exact He|].
    rewrite Hv, inject_Z_mult, pow2_of_Z by lia. reflexivity.
  - split; [lia|]. apply Z.lt_trans with (2 ^ 53)%Z; [lia|]. reflexivity.
Qed.

Lemma pow2_nonzero (e : Z) : ~ pow2 e == 0.
Proof. pose proof (pow2_pos e). lra. Qed.

(** The double [(c / t) * 100] is within two roundings of the exact
    percentage. *)
Lemma percentage_binary64 (c t : nat) :
  (0 < Z.of_nat c <= Z.of_nat t)%Z -> (Z.of_nat t < 2 ^ 53)%Z ->
  exists (m : positive) (e : Z),
    Prim2SF (float_of_nat c / float_of_nat t * 100)%float
    = S754_finite false m e /\
    (1 - unit_roundoff) * (1 - unit_roundoff) * SFvalue m e <= 100 * (of_nat c / of_nat t) /\
    100 * (of_nat c / of_nat t) <= (1 + unit_roundoff) * (1 + unit_roundoff) * SFvalue m e.
Proof.
  intros Hc Ht.
  destruct (Prim2SF_of_nat c ltac:(lia)) as [mc [ec [Ec [Hmc [Hec Hvc]]]]].
  destruct (Prim2SF_of_nat t ltac:(lia)) as [mt [et [Et [Hmt [Het Hvt]]]]].
  assert (E100 : Prim2SF 100 = S754_finite false 7036874417766400 (-46)).
  { vm_compute. reflexivity. }
  rewrite FloatAxioms.mul_spec, FloatAxioms.div_spec, Ec, Et, E100.
  destruct (SFdiv_normal mc mt ec et Hmc Hmt ltac:(lia))
    as [m1 [e1 [Hdiv [Hm1 [He1 Herr1]]]]].
  unfold SF64mul, SF64div. rewrite Hdiv.
  destruct (SFmul_normal m1 7036874417766400 e1 (-46) Hm1
              ltac:(split; [discriminate | reflexivity]) ltac:(lia))
    as [m2 [e2 [Hmul [Hm2 [He2 Herr2]]]]].
  rewrite Hmul. exists m2, e2. split; [reflexivity|].
  (* the quotient *)
  set (e0 := (ec - et - 53)%Z) in *.
  destruct (rel_scale (Z.pos m1 * 2 ^ (e1 - e0)) (Z.pos mc * 2 ^ 53) (Z.pos mt)
              (pow2 e0) ltac:(lia) (pow2_pos e0) Herr1) as [Q1 Q2].
  assert (V1 : inject_Z (Z.pos m1 * 2 ^ (e1 - e0)) * pow2 e0 == SFvalue m1 e1).
  { unfold SFvalue. rewrite inject_Z_mult, pow2_of_Z by lia.
    rewrite <- Qmult_assoc, <- pow2_plus.
    replace (e1 - e0 + e0)%Z with e1 by lia. reflexivity. }
  assert (X1 : inject_Z (Z.pos mc * 2 ^ 53) / inject_Z (Z.pos mt) * pow2 e0
               == of_nat c / of_nat t).
  { rewrite inject_Z_mult, Hvc, Hvt, (pow2_of_Z 53) by lia.
    assert (Hg : pow2 (- et) == pow2 (- ec) * pow2 53 * pow2 e0).
    { rewrite <- !pow2_plus. replace (- ec + 53 + e0)%Z with (- et)%Z by (unfold e0; lia).
      reflexivity. }
    rewrite Hg.
    assert (Htq : ~ of_nat t == 0).
    { unfold of_nat. intros E.
      apply (inject_Z_injective (Z.of_nat t) 0) in E. lia. }
    field. repeat split; try apply pow2_nonzero; exact Htq. }
  rewrite V1, X1 in Q1, Q2.
  (* the product *)
  set (s2 := (e1 + -46)%Z) in *.
  assert (Herr2' : (- (Z.pos m2 * 2 ^ (e2 - s2) * 1)
                    <= 2 ^ 53 * (Z.pos m2 * 2 ^ (e2 - s2) * 1
                                 - Z.pos m1 * 7036874417766400)
                    <= Z.pos m2 * 2 ^ (e2 - s2) * 1)%Z) by lia.
  destruct (rel_scale (Z.pos m2 * 2 ^ (e2 - s2)) (Z.pos m1 * 7036874417766400) 1
              (pow2 s2) ltac:(lia) (pow2_pos s2) Herr2') as [Q3 Q4].
  assert (V2 : inject_Z (Z.pos m2 * 2 ^ (e2 - s2)) * pow2 s2 == SFvalue m2 e2).
  { unfold SFvalue. rewrite inject_Z_mult, pow2_of_Z by lia.
    rewrite <- Qmult_assoc, <- pow2_plus.
    replace (e2 - s2 + s2)%Z with e2 by lia. reflexivity. }
  assert (X2 : inject_Z (Z.pos m1 * 7036874417766400) / inject_Z 1 * pow2 s2
               == 100 * SFvalue m1 e1).
  { unfold SFvalue. rewrite inject_Z_mult.
    assert (Hp : pow2 e1 == pow2 46 * pow2 s2).
    { rewrite <- pow2_plus. replace (46 + s2)%Z with e1 by (unfold s2; lia). reflexivity. }
    rewrite Hp.
    change (inject_Z 7036874417766400) with (100 * inject_Z (2 ^ 46)).
    rewrite (pow2_of_Z 46) by lia.
    change (inject_Z 1) with 1. field. }
  rewrite V2, X2 in Q3, Q4.
  unfold unit_roundoff in *.
  split; lra.
Qed.

(** The floor of a rational between two consecutive integers. *)
Lemma Qfloor_between (y : Q) (z : Z) :
  inject_Z z <= y -> y < inject_Z z + 1 -> Qfloor y = z.
Proof.
  intros Hlo Hhi.
  pose proof (Qfloor_le y) as Hf1. pose proof (Qlt_floor y) as Hf2.
  rewrite inject_Z_plus in Hf2. change (inject_Z 1) with 1 in Hf2.
  assert (H1 : inject_Z z < inject_Z (Qfloor y + 1)).
  { rewrite inject_Z_plus. change (inject_Z 1) with 1. lra. }
  assert (H2 : inject_Z (Qfloor y) < inject_Z (z + 1)).
  { rewrite inject_Z_plus. change (inject_Z 1) with 1. lra. }
  rewrite <- Zlt_Qlt in H1, H2. lia.
Qed.

(** The tenths of the exact percentage, as an integer quotient. *)
Lemma round_tenths_quotient (c t : nat) :
  (0 < Z.of_nat t)%Z ->
  round_tenths (100 * (of_nat c / of_nat t)) =
  ((2000 * Z.of_nat c + Z.of_nat t) / (2 * Z.of_nat t))%Z.
Proof.
  intros Ht. unfold round_tenths. rewrite Zdiv_Qdiv. apply Qfloor_comp.
  rewrite inject_Z_plus, !inject_Z_mult. fold (of_nat c) (of_nat t).
  change (inject_Z 2000) with 2000. change (inject_Z 2) with 2.
  field. unfold of_nat. intros E.
  apply (inject_Z_injective (Z.of_nat t) 0) in E. lia.
Qed.

(** A number within two roundings of the exact percentage of a list of
    fewer than 2^32 records has the same tenths, unless the percentage is
    half way between two tenths, where it may have one less. *)
Lemma tenths_close (q : Q) (c t : nat) :
  (Z.of_nat c <= Z.of_nat t)%Z -> (0 < Z.of_nat t < 2 ^ 32)%Z ->
  (1 - unit_roundoff) * (1 - unit_roundoff) * q <= 100 * (of_nat c / of_nat t) ->
  100 * (of_nat c / of_nat t) <= (1 + unit_roundoff) * (1 + unit_roundoff) * q ->
  let n := round_tenths (100 * (of_nat c / of_nat t)) in
  (~ half_way c t -> round_tenths q = n) /\
  (half_way c t -> round_tenths q = n \/ round_tenths q = (n - 1)%Z).
Proof.
  intros Hct Ht Hlo Hhi n. subst n.
  rewrite (round_tenths_quotient c t) by lia.
  assert (Hhalf : half_way c t <->
            ((2000 * Z.of_nat c + Z.of_nat t) mod (2 * Z.of_nat t) = 0)%Z).
  { unfold half_way. split; [intros [_ H]; exact H | intros H; split; [lia | exact H]]. }
  rewrite Hhalf. clear Hhalf.
  set (A := (2000 * Z.of_nat c + Z.of_nat t)%Z).
  set (B := (2 * Z.of_nat t)%Z).
  pose proof (Z.div_mod A B ltac:(subst B; lia)) as Hdm.
  pose proof (Z.mod_pos_bound A B ltac:(subst B; lia)) as Hrho.
  set (n := (A / B)%Z) in *. set (rho := (A mod B)%Z) in *.
  assert (Hn0 : (0 <= n)%Z) by (subst n; apply Z.div_pos; subst A B; lia).
  assert (Hn1 : (n <= 1000)%Z).
  { subst n. apply Z.lt_succ_r. apply Z.div_lt_upper_bound; subst A B; lia. }
  assert (Hnt : (0 <= n * Z.of_nat t <= 1000 * Z.of_nat t)%Z) by nia.
  assert (Heq : (2 * (n * Z.of_nat t) + rho = 2000 * Z.of_nat c + Z.of_nat t)%Z).
  { subst A B. lia. }
  (* the same facts over the rationals *)
  set (tq := of_nat t). set (cq := of_nat c) in *.
  set (nq := inject_Z n). set (rq := inject_Z rho).
  assert (Htq : 0 < tq).
  { subst tq. unfold of_nat. change 0 with (inject_Z 0). rewrite <- Zlt_Qlt. lia. }
  assert (Htq32 : tq <= 4294967296).
  { subst tq. unfold of_nat. change 4294967296 with (inject_Z (2 ^ 32)).
    rewrite <- Zle_Qle. lia. }
  assert (Hcq : 0 <= cq).
  { subst cq. unfold of_nat. change 0 with (inject_Z 0). rewrite <- Zle_Qle. lia. }
  assert (HP0 : 0 <= nq * tq).
  { subst nq tq. unfold of_nat. rewrite <- inject_Z_mult.
    change 0 with (inject_Z 0). rewrite <- Zle_Qle. lia. }
  assert (HP1 : nq * tq <= 1000 * tq).
  { subst nq tq. unfold of_nat. change 1000 with (inject_Z 1000).
    rewrite <- !inject_Z_mult, <- Zle_Qle. lia. }
  assert (HeqQ : 2 * (nq * tq) + rq == 2000 * cq + tq).
  { subst nq tq cq rq. unfold of_nat.
    change 2 with (inject_Z 2). change 2000 with (inject_Z 2000).
    rewrite <- !inject_Z_mult, <- !inject_Z_plus. now rewrite Heq. }
  assert (Hrq0 : 0 <= rq).
  { subst rq. change 0 with (inject_Z 0). rewrite <- Zle_Qle. lia. }
  assert (E100 : 100 * cq == 100 * (cq / tq) * tq) by (field; lra).
  assert (HW1 : (1 - unit_roundoff) * (1 - unit_roundoff) * (q * tq) <= 100 * cq).
  { rewrite E100, Qmult_assoc.
    apply Qmult_le_compat_r; [exact Hlo | lra]. }
  assert (HW2 : 100 * cq <= (1 + unit_roundoff) * (1 + unit_roundoff) * (q * tq)).
  { rewrite E100, (Qmult_assoc _ q tq).
    apply Qmult_le_compat_r; [exact Hhi | lra]. }
  unfold unit_roundoff in HW1, HW2.
  assert (Hupper : q * 10 + (1 # 2) < nq + 1).
  { apply (Qmult_lt_r _ _ tq Htq).
    assert (Hr : rq + 1 <= 2 * tq).
    { subst rq tq. unfold of_nat. change 2 with (inject_Z 2).
      change 1 with (inject_Z 1).
      rewrite <- inject_Z_mult, <- inject_Z_plus, <- Zle_Qle. subst B. lia. }
    lra. }
  assert (Hlower1 : nq - 1 <= q * 10 + (1 # 2)).
  { apply (Qmult_le_r _ _ tq Htq). lra. }
  split.
  - intros Hnot. unfold round_tenths. apply Qfloor_between; [|exact Hupper].
    fold nq. apply (Qmult_le_r _ _ tq Htq).
    assert (Hr : 1 <= rq).
    { subst rq. change 1 with (inject_Z 1). rewrite <- Zle_Qle. lia. }
    lra.
  - intros _. unfold round_tenths.
    destruct (Qlt_le_dec (q * 10 + (1 # 2)) nq) as [Hbelow|Habove].
    + right. apply Qfloor_between.
      * unfold Z.sub. rewrite inject_Z_plus, inject_Z_opp.
        change (inject_Z 1) with 1. fold nq. lra.
      * unfold Z.sub. rewrite inject_Z_plus, inject_Z_opp.
        change (inject_Z 1) with 1. fold nq. lra.
    + left. apply Qfloor_between; [exact Habove | exact Hupper].
Qed.

(** ** C1: the conversion rate *)

Lemma filter_length_le {A : Type} (f : A -> bool) (l : list A) :
  (List.length (filter f l) <= List.length l)%nat.
Proof.
  induction l as [|a l IH]; cbn; [lia|].
  destruct (f a); cbn; lia.
Qed.

Lemma closed_le_total (ps : list Prospect) :
  (closedProspects ps <= totalProspects ps)%nat.
Proof. apply filter_length_le. Qed.

Lemma of_nat_pos (n : nat) : (0 < n)%nat -> 0 < of_nat n.
Proof.
  intros H. unfold of_nat. change 0 with (inject_Z 0).
  rewrite <- Zlt_Qlt. lia.
Qed.

Lemma of_nat_le (m n : nat) : (m <= n)%nat -> of_nat m <= of_nat n.
Proof.
  intros H. unfold of_nat. rewrite <- Zle_Qle. lia.
Qed.

(** The exact percentage lies between 0 and 100. *)
Lemma percentage_range (c t : nat) :
  (c <= t)%nat -> (0 < t)%nat ->
  0 <= 100 * (of_nat c / of_nat t) /\ 100 * (of_nat c / of_nat t) <= 100.
Proof.
  intros Hct Ht.
  pose proof (of_nat_pos t Ht) as Htq.
  pose proof (of_nat_le 0 c ltac:(lia)) as Hc0.
  pose proof (of_nat_le c t Hct) as Hcq.
  change (of_nat 0) with 0 in Hc0.
  assert (H0 : 0 <= of_nat c / of_nat t).
  { apply Qle_shift_div_l; [exact Htq|]. lra. }
  assert (H1 : of_nat c / of_nat t <= 1).
  { apply Qle_shift_div_r; [exact Htq|]. lra. }
  split; lra.
Qed.

Section RateFacts.

Variable NumberToString : Q -> string.

(** The rate of a list without a closed record is "0.0". *)
Lemma rate_of_none (t : nat) :
  (0 < Z.of_nat t < 2 ^ 53)%Z ->
  toFixed NumberToString (float_of_nat 0 / float_of_nat t * 100)%float 1
  = one_decimal 0.
Proof.
  intros Ht.
  destruct (Prim2SF_of_nat t Ht) as [mt [et [Et _]]].
  assert (E0 : Prim2SF (float_of_nat 0) = S754_zero false).
  { vm_compute. reflexivity. }
  assert (E100 : Prim2SF 100 = S754_finite false 7036874417766400 (-46)).
  { vm_compute. reflexivity. }
  unfold toFixed.
  rewrite FloatAxioms.mul_spec, FloatAxioms.div_spec, E0, Et, E100.
  reflexivity.
Qed.

(** The rate of a non-empty list is a number of tenths written with one
    decimal place: the tenths of the exact percentage, or one less where
    the percentage is half way between two tenths. *)
Lemma conversionRate_tenths (ps : list Prospect) :
  (0 < totalProspects ps)%nat ->
  (Z.of_nat (totalProspects ps) < 2 ^ 32)%Z ->
  let c := closedProspects ps in
  let t := totalProspects ps in
  let n := round_tenths (100 * (of_nat c / of_nat t)) in
  exists n64 : Z,
    conversionRate NumberToString ps = one_decimal n64 /\
    (~ half_way c t -> n64 = n) /\
    (half_way c t -> n64 = n \/ n64 = (n - 1)%Z).
Proof.
  intros Hpos H32 c t n.
  pose proof (closed_le_total ps) as Hle. fold c t in Hle.
  unfold conversionRate. fold c t.
  destruct (Nat.ltb_spec 0 t) as [_|Hn]; [|unfold t in Hn; lia].
  assert (Ht53 : (Z.of_nat t < 2 ^ 53)%Z).
  { apply Z.lt_trans with (2 ^ 32)%Z; [exact H32 | reflexivity]. }
  destruct (Nat.eq_dec c 0) as [Ec|Ec].
  - (* no closed record *)
    exists 0%Z. rewrite Ec.
    rewrite rate_of_none by (unfold t; lia).
    assert (En : n = 0%Z).
    { subst n. rewrite Ec. unfold round_tenths. apply Qfloor_between.
      - change (of_nat 0) with 0. rewrite (Qmult_comm 100).
        unfold Qdiv. rewrite !Qmult_0_l. discriminate.
      - change (of_nat 0) with 0. unfold Qdiv. rewrite (Qmult_comm 100).
        rewrite !Qmult_0_l. reflexivity. }
    rewrite En. split; [reflexivity|]. split; [reflexivity | left; reflexivity].
  - (* some closed record *)
    destruct (percentage_binary64 c t ltac:(lia) Ht53)
      as [m [e [Eprim [Hlo Hhi]]]].
    destruct (percentage_range c t Hle ltac:(unfold t; lia)) as [_ H100].
    assert (Hq0 : 0 <= SFvalue m e).
    { unfold SFvalue. apply Qmult_le_0_compat.
      - change 0 with (inject_Z 0). rewrite <- Zle_Qle. lia.
      - pose proof (pow2_pos e). lra. }
    assert (Hq21 : SFvalue m e < inject_Z (10 ^ 21)).
    { change (inject_Z (10 ^ 21)) with (1000000000000000000000 # 1).
      unfold unit_roundoff in Hlo. lra. }
    exists (round_tenths (SFvalue m e)). split.
    + unfold toFixed. rewrite Eprim. apply toFixed_one; assumption.
    + apply tenths_close; [lia | unfold t in *; lia | exact Hlo | exact Hhi].
Qed.

End RateFacts.

(** C1, as the component has it: for every prospect list (an array, of
    fewer than 2^32 records) the conversion rate is the text "0", without
    a decimal place, when the list is empty; otherwise it is
    round(100 x closed/total, 1) written with one decimal place, unless
    100 x closed/total is half way between two tenths: the binary64
    product (closed/total) x 100 can then fall below the half, and the
    rate is that value or one tenth less. *)
Theorem conversionRate_amended (NumberToString : Q -> string)
    (ps : list Prospect) :
  (Z.of_nat (totalProspects ps) < 2 ^ 32)%Z ->
  let t := totalProspects ps in
  let c := closedProspects ps in
  (~ half_way c t ->
     conversionRate NumberToString ps = amended_conversionRate t c) /\
  (half_way c t ->
     conversionRate NumberToString ps = amended_conversionRate t c \/
     conversionRate NumberToString ps =
       one_decimal (round_tenths (100 * (of_nat c / of_nat t)) - 1)).
Proof.
  intros H32 t c.
  destruct (Nat.eq_dec t 0) as [E0|Epos].
  - (* the empty list *)
    assert (Hrate : conversionRate NumberToString ps = "0").
    { unfold conversionRate. fold t. rewrite E0. reflexivity. }
    unfold amended_conversionRate. rewrite E0. cbn [Nat.eqb].
    split; [intros _; exact Hrate | intros _; left; exact Hrate].
  - destruct (conversionRate_tenths NumberToString ps ltac:(fold t; lia) H32)
      as [n64 [Hrate [Hnot Hhalf]]].
    fold c t in Hnot, Hhalf.
    unfold amended_conversionRate.
    destruct (Nat.eqb_spec t 0) as [E|_]; [contradiction|].
    split.
    + intros Hn. rewrite Hrate, (Hnot Hn). reflexivity.
    + intros Hh. rewrite Hrate.
      destruct (Hhalf Hh) as [-> | ->]; [left | right]; reflexivity.
Qed.

Lemma conversionRate_amended_witness :
  conversionRate (fun _ => "") scenario = amended_conversionRate 3 1.
Proof.
  apply (conversionRate_amended (fun _ => "") scenario).
  - reflexivity.
  - intros [_ H]. discriminate H.
Defined.

(** C1 as stated fails on the empty list, whose conversion rate is the
    text "0" and not "0.0". *)
Lemma conversionRate_empty_not_spec :
  ~ (forall (NumberToString : Q -> string) (ps : list Prospect),
        conversionRate NumberToString ps =
        spec_conversionRate (totalProspects ps) (closedProspects ps)).
Proof.
  intros H. specialize (H (fun _ => "") []). discriminate H.
Qed.

(** Both outcomes of a percentage half way between two tenths occur.  Of
    80 records, 23 closed: 100 x 23/80 is 28.75, but the double 23/80
    times 100 is 28.749999999999996, written "28.7".  Of 16 records, one
    closed: the double is 6.25 itself, written "6.3". *)
Remark conversionRate_half_way :
  half_way 23 80 /\
  conversionRate (fun _ => "") (repeat cyd 23 ++ repeat ada 57)%list = "28.7" /\
  amended_conversionRate 80 23 = "28.8" /\
  half_way 1 16 /\
  conversionRate (fun _ => "") (repeat cyd 1 ++ repeat ada 15)%list = "6.3" /\
  amended_conversionRate 16 1 = "6.3".
Proof.
  repeat split; vm_compute; reflexivity.
Qed.

(** ** Addition in binary64

    The sum of two doubles that are zero, positive or infinite is the
    double their exact sum is rounded to: the sum itself below 2^53
    units, a double within half a unit in the last place of it above, and
    Infinity from [top] on.  Rounding of this kind is monotone, and it is
    exact where the exact sum is itself a double. *)

Section Addition.

Local Open Scope Z_scope.

Lemma pow2_gt0 (a : Z) : 0 <= a -> 0 < 2 ^ a.
Proof. intros H. apply Z.pow_pos_nonneg; lia. Qed.

Lemma pow2_divide (a b : Z) : 0 <= a <= b -> (2 ^ a | 2 ^ b).
Proof.
  intros H. exists (2 ^ (b - a)). rewrite <- Z.pow_add_r by lia.
  f_equal. lia.
Qed.

Lemma pow2_le (a b : Z) : a <= b -> 2 ^ a <= 2 ^ b.
Proof. intros H. apply Z.pow_le_mono_r; lia. Qed.

Lemma pow2_digits (q d : Z) (k : Z) :
  0 <= k -> 2 ^ (d - 1) <= q < 2 ^ k -> d <= k.
Proof.
  intros Hk Hq. destruct (Z_le_gt_dec d k) as [H|H]; [exact H|].
  assert (2 ^ k <= 2 ^ (d - 1)) by (apply pow2_le; lia). lia.
Qed.

(** Two multiples of [u], one of them within half of [u] of [q]. *)
Lemma near_upper (u r q B : Z) :
  0 < u -> (u | r) -> (u | B) -> 2 * (r - q) <= u -> q <= B -> r <= B.
Proof.
  intros Hu Hr HB Herr Hq.
  destruct (Z_le_gt_dec r B) as [H|H]; [exact H|].
  assert (Hd : (u | r - B)) by now apply Z.divide_sub_r.
  apply Z.divide_pos_le in Hd; lia.
Qed.

Lemma near_lower (u r q B : Z) :
  0 < u -> (u | r) -> (u | B) -> - u <= 2 * (r - q) -> B <= q -> B <= r.
Proof.
  intros Hu Hr HB Herr Hq.
  destruct (Z_le_gt_dec B r) as [H|H]; [exact H|].
  assert (Hd : (u | B - r)) by now apply Z.divide_sub_r.
  apply Z.divide_pos_le in Hd; lia.
Qed.

(** A double next to [q] lies in the binade of [q], ends included. *)
Lemma nearest_binade (q r d : Z) :
  53 <= d -> 2 ^ (d - 1) <= q < 2 ^ d -> (2 ^ (d - 53) | r) ->
  - 2 ^ (d - 53) <= 2 * (r - q) <= 2 ^ (d - 53) ->
  2 ^ (d - 1) <= r <= 2 ^ d.
Proof.
  intros Hd Hq Hr Herr.
  assert (Hu : 0 < 2 ^ (d - 53)) by (apply pow2_gt0; lia).
  assert (H1 : (2 ^ (d - 53) | 2 ^ (d - 1))) by (apply pow2_divide; lia).
  assert (H2 : (2 ^ (d - 53) | 2 ^ d)) by (apply pow2_divide; lia).
  split.
  - apply (near_lower (2 ^ (d - 53)) r q _ Hu Hr H1); lia.
  - apply (near_upper (2 ^ (d - 53)) r q _ Hu Hr H2); lia.
Qed.

Lemma nearest_nonneg (q r : Z) : nearest q r -> 0 <= q /\ 0 <= r.
Proof.
  intros [[Hq ->]|[d [Hd [Hq [Hr Herr]]]]]; [lia|].
  pose proof (nearest_binade q r d Hd Hq Hr Herr) as Hb.
  assert (0 < 2 ^ (d - 1)) by (apply pow2_gt0; lia). lia.
Qed.

(** Below 2^53 units every number is a double. *)
Lemma nearest_small (q r : Z) : nearest q r -> q < 2 ^ 53 -> r = q.
Proof.
  intros [[_ ->]|[d [Hd [Hq [Hr Herr]]]]] Hlt; [reflexivity|].
  assert (Hd53 : d <= 53) by (apply (pow2_digits q d 53); lia).
  replace (d - 53) with 0 in Herr by lia.
  change (2 ^ 0) with 1 in Herr. lia.
Qed.

(** From 2^53 units on, a double next to [q] is 2^53 units or more. *)
Lemma nearest_large (q r : Z) : nearest q r -> 2 ^ 53 <= q -> 2 ^ 53 <= r.
Proof.
  intros [[Hq ->]|[d [Hd [Hq [Hr Herr]]]]] Hge; [lia|].
  pose proof (nearest_binade q r d Hd Hq Hr Herr) as Hb.
  assert (Hd54 : 54 <= d).
  { destruct (Z_le_gt_dec 54 d) as [H|H]; [exact H|].
    assert (2 ^ d <= 2 ^ 53) by (apply pow2_le; lia). lia. }
  assert (2 ^ 53 <= 2 ^ (d - 1)) by (apply pow2_le; lia). lia.
Qed.

(** Rounding is monotone. *)
Lemma nearest_mono (q1 r1 q2 r2 : Z) :
  nearest q1 r1 -> nearest q2 r2 -> q1 < q2 -> r1 <= r2.
Proof.
  intros H1 H2 Hlt.
  destruct (Z_lt_le_dec q2 (2 ^ 53)) as [S2|L2].
  { rewrite (nearest_small q1 r1 H1), (nearest_small q2 r2 H2); lia. }
  pose proof (nearest_large q2 r2 H2 L2) as Hr2.
  destruct (Z_lt_le_dec q1 (2 ^ 53)) as [S1|L1].
  { rewrite (nearest_small q1 r1 H1 S1). lia. }
  destruct H1 as [[Hq1 _]|[d1 [Hd1 [Hq1 [Hr1 Herr1]]]]]; [lia|].
  destruct H2 as [[Hq2 _]|[d2 [Hd2 [Hq2 [Hr2' Herr2]]]]]; [lia|].
  assert (Hle : d1 <= d2).
  { destruct (Z_le_gt_dec d1 d2) as [H|H]; [exact H|].
    assert (2 ^ d2 <= 2 ^ (d1 - 1)) by (apply pow2_le; lia). lia. }
  destruct (Z.eq_dec d1 d2) as [E|N].
  - subst d2. set (u := 2 ^ (d1 - 53)) in *.
    assert (Hu : 0 < u) by (apply pow2_gt0; lia).
    destruct (Z_le_gt_dec r1 r2) as [H|H]; [exact H|].
    assert (Hd : (u | r1 - r2)) by now apply Z.divide_sub_r.
    apply Z.divide_pos_le in Hd; lia.
  - pose proof (nearest_binade q1 r1 d1 Hd1 Hq1 Hr1 Herr1) as Hb1.
    pose proof (nearest_binade q2 r2 d2 Hd2 Hq2 Hr2' Herr2) as Hb2.
    assert (2 ^ d1 <= 2 ^ (d2 - 1)) by (apply pow2_le; lia). lia.
Qed.

(** Rounding is exact on what is a double already. *)
Lemma nearest_exact (q r k : Z) :
  nearest q r -> 0 <= k -> (2 ^ k | q) -> q < 2 ^ (k + 53) -> r = q.
Proof.
  intros H Hk Hdiv Hlt.
  destruct H as [[_ ->]|[d [Hd [Hq [Hr Herr]]]]]; [reflexivity|].
  assert (Hdk : d <= k + 53) by (apply (pow2_digits q d (k + 53)); lia).
  set (u := 2 ^ (d - 53)) in *.
  assert (Hu : 0 < u) by (apply pow2_gt0; lia).
  assert (Huq : (u | q)).
  { apply Z.divide_trans with (2 ^ k); [|exact Hdiv].
    apply pow2_divide. lia. }
  assert (H1 : r <= q) by (apply (near_upper u r q q Hu Hr Huq); lia).
  assert (H2 : q <= r) by (apply (near_lower u r q q Hu Hr Huq); lia).
  lia.
Qed.

(** The units of a finite double. *)
Lemma units_finite (m : positive) (e : Z) :
  Z.pos m < 2 ^ 53 -> -1074 <= e <= 971 ->
  0 < Z.pos m * 2 ^ (e + 1074) < top.
Proof.
  intros Hm He.
  assert (HP : 0 < 2 ^ (e + 1074)) by (apply pow2_gt0; lia).
  assert (HQ : 2 ^ (e + 1074) <= 2 ^ 2045) by (apply pow2_le; lia).
  assert (E : top = 2 ^ 53 * 2 ^ 2045) by reflexivity.
  rewrite E. split; [lia|].
  apply Z.lt_le_trans with (2 ^ 53 * 2 ^ (e + 1074)).
  - apply Zmult_lt_compat_r; lia.
  - apply Z.mul_le_mono_nonneg_l; lia.
Qed.

Lemma units_normal (m : positive) (e : Z) :
  2 ^ 52 <= Z.pos m < 2 ^ 53 -> -1074 <= e ->
  2 ^ (52 + (e + 1074)) <= Z.pos m * 2 ^ (e + 1074) < 2 ^ (53 + (e + 1074)).
Proof.
  intros Hm He.
  assert (HP : 0 < 2 ^ (e + 1074)) by (apply pow2_gt0; lia).
  assert (E1 : 2 ^ (52 + (e + 1074)) = 2 ^ 52 * 2 ^ (e + 1074))
    by (apply Z.pow_add_r; lia).
  assert (E2 : 2 ^ (53 + (e + 1074)) = 2 ^ 53 * 2 ^ (e + 1074))
    by (apply Z.pow_add_r; lia).
  rewrite E1, E2. split.
  - apply Z.mul_le_mono_nonneg_r; lia.
  - apply Zmult_lt_compat_r; lia.
Qed.

Lemma top_pos : 0 < top.
Proof. reflexivity. Qed.

Lemma plain_range (x : spec_float) : plain x -> 0 <= units x <= top.
Proof.
  pose proof top_pos.
  intros [->|[->|[m [e [-> [Hm [He _]]]]]]]; cbn [units]; try lia.
  pose proof (units_finite m e Hm He). lia.
Qed.

(** A finite plain double is next to itself. *)
Lemma plain_nearest (x : spec_float) :
  plain x -> units x < top -> nearest (units x) (units x).
Proof.
  intros Hx Hlt.
  destruct (Z_lt_le_dec (units x) (2 ^ 53)) as [S|L].
  { left. pose proof (plain_range x Hx). lia. }
  destruct Hx as [->|[->|[m [e [-> [Hm [He Hn]]]]]]]; cbn [units] in *;
    [lia | lia |].
  assert (Hm52 : 2 ^ 52 <= Z.pos m).
  { destruct Hn as [Hn|Hn]; [exact Hn|]. subst e.
    change (2 ^ (-1074 + 1074)) with 1 in L. lia. }
  right. exists (53 + (e + 1074)).
  pose proof (units_normal m e ltac:(lia) ltac:(lia)) as Hu.
  split; [lia|]. split.
  - replace (53 + (e + 1074) - 1) with (52 + (e + 1074)) by lia. exact Hu.
  - replace (53 + (e + 1074) - 53) with (e + 1074) by lia.
    assert (HP : 0 < 2 ^ (e + 1074)) by (apply pow2_gt0; lia).
    split; [exists (Z.pos m); reflexivity|].
    replace (Z.pos m * 2 ^ (e + 1074) - Z.pos m * 2 ^ (e + 1074)) with 0
      by lia.
    lia.
Qed.

(** A finite plain double at or below [q] is at or below a double next
    to [q]. *)
Lemma nearest_above (q r : Z) (x : spec_float) :
  nearest q r -> plain x -> units x < top -> units x <= q -> units x <= r.
Proof.
  intros H Hx Hfin Hle.
  destruct (Z_lt_le_dec q (2 ^ 53)) as [S|L].
  { rewrite (nearest_small q r H S). exact Hle. }
  pose proof (nearest_large q r H L) as Hr53.
  destruct (Z_lt_le_dec (units x) (2 ^ 53)) as [Sx|Lx]; [lia|].
  destruct Hx as [->|[->|[m [e [-> [Hm [He Hn]]]]]]]; cbn [units] in *;
    [lia | lia |].
  assert (Hm52 : 2 ^ 52 <= Z.pos m).
  { destruct Hn as [Hn|Hn]; [exact Hn|]. subst e.
    change (2 ^ (-1074 + 1074)) with 1 in Lx. lia. }
  pose proof (units_normal m e ltac:(lia) ltac:(lia)) as Hu.
  destruct H as [[Hq _]|[d [Hd [Hq [Hr Herr]]]]]; [lia|].
  pose proof (nearest_binade q r d Hd Hq Hr Herr) as Hb.
  assert (Hde : 53 + (e + 1074) <= d).
  { destruct (Z_le_gt_dec (53 + (e + 1074)) d) as [H|H]; [exact H|].
    assert (2 ^ d <= 2 ^ (52 + (e + 1074))) by (apply pow2_le; lia). lia. }
  destruct (Z.eq_dec (53 + (e + 1074)) d) as [E|N].
  - assert (Hu0 : 0 < 2 ^ (d - 53)) by (apply pow2_gt0; lia).
    assert (HB : (2 ^ (d - 53) | Z.pos m * 2 ^ (e + 1074))).
    { replace (d - 53) with (e + 1074) by lia. exists (Z.pos m). reflexivity. }
    apply (near_lower (2 ^ (d - 53)) r q _ Hu0 Hr HB); lia.
  - assert (2 ^ (53 + (e + 1074)) <= 2 ^ (d - 1)) by (apply pow2_le; lia).
    lia.
Qed.

(** ** Rounding with overflow *)

(** From [top] on, a double next to [q] would be [top] or more. *)
Lemma nearest_top (q r : Z) : nearest q r -> top <= q -> top <= r.
Proof.
  unfold top.
  intros [[Hq ->]|[d [Hd [Hq [Hr Herr]]]]] Hge; [lia|].
  pose proof (nearest_binade q r d Hd Hq Hr Herr) as Hb.
  assert (Hd2 : 2099 <= d).
  { destruct (Z_le_gt_dec 2099 d) as [H|H]; [exact H|].
    assert (2 ^ d <= 2 ^ 2098) by (apply pow2_le; lia). lia. }
  assert (2 ^ 2098 <= 2 ^ (d - 1)) by (apply pow2_le; lia). lia.
Qed.

Lemma nearest_below_top (q r : Z) : nearest q r -> r < top -> q < top.
Proof.
  intros H Hr. destruct (Z_lt_le_dec q top) as [Hq|Hq]; [exact Hq|].
  pose proof (nearest_top q r H Hq). lia.
Qed.

(** A mantissa of 53 bits with an exponent beyond the format. *)
Lemma units_overflow (m : positive) (e : Z) :
  2 ^ 52 <= Z.pos m -> 972 <= e -> top <= Z.pos m * 2 ^ (e + 1074).
Proof.
  intros Hm He.
  assert (E : top = 2 ^ 52 * 2 ^ 2046) by reflexivity.
  assert (HQ : 2 ^ 2046 <= 2 ^ (e + 1074)) by (apply pow2_le; lia).
  assert (HP : 0 < 2 ^ 2046) by (apply pow2_gt0; lia).
  rewrite E.
  apply Z.le_trans with (2 ^ 52 * 2 ^ (e + 1074)).
  - apply Z.mul_le_mono_nonneg_l; lia.
  - apply Z.mul_le_mono_nonneg_r; lia.
Qed.

Lemma rounded_range (q r : Z) : rounded q r -> 0 <= r <= top.
Proof.
  pose proof top_pos.
  intros [[_ ->]|[_ [r0 [Hn ->]]]]; [lia|].
  pose proof (nearest_nonneg q r0 Hn). lia.
Qed.

Lemma rounded_mono (q1 r1 q2 r2 : Z) :
  rounded q1 r1 -> rounded q2 r2 -> q1 < q2 -> r1 <= r2.
Proof.
  intros H1 H2 Hlt.
  pose proof (rounded_range q1 r1 H1) as Hr1.
  destruct H2 as [[_ ->]|[Hq2 [b [Hb ->]]]]; [lia|].
  destruct H1 as [[Hq1 _]|[_ [a [Ha ->]]]]; [lia|].
  pose proof (nearest_mono q1 a q2 b Ha Hb Hlt). lia.
Qed.

Lemma rounded_above (q r : Z) (x : spec_float) :
  rounded q r -> plain x -> units x <= q -> units x <= r.
Proof.
  intros H Hx Hle. pose proof (plain_range x Hx) as Hr.
  destruct H as [[_ ->]|[Hq [r0 [Hn ->]]]]; [lia|].
  pose proof (nearest_above q r0 x Hn Hx ltac:(lia) Hle). lia.
Qed.

Lemma rounded_exact (q r k : Z) :
  rounded q r -> 0 <= k -> (2 ^ k | q) -> q < 2 ^ (k + 53) -> q < top ->
  r = q.
Proof.
  intros H Hk Hdiv Hlt Htop.
  destruct H as [[Hq _]|[_ [r0 [Hn ->]]]]; [lia|].
  rewrite (nearest_exact q r0 k Hn Hk Hdiv Hlt). lia.
Qed.

(** A plain double is determined by its value. *)
Lemma plain_unique (x y : spec_float) :
  plain x -> plain y -> units x = units y -> x = y.
Proof.
  intros Hx Hy E.
  destruct Hx as [->|[->|[mx [ex [-> [Hmx [Hex Hnx]]]]]]];
    destruct Hy as [->|[->|[my [ey [-> [Hmy [Hey Hny]]]]]]];
    cbn [units] in E; try reflexivity;
    try (pose proof top_pos; lia);
    try (pose proof (units_finite my ey Hmy Hey); lia);
    try (pose proof (units_finite mx ex Hmx Hex); lia).
  assert (Ee : ex = ey).
  { destruct (Z.lt_trichotomy ex ey) as [H|[H|H]]; [|exact H|].
    - assert (Hn : 2 ^ 52 <= Z.pos my) by lia.
      pose proof (units_normal my ey ltac:(lia) ltac:(lia)) as Huy.
      assert (HP : 0 < 2 ^ (ex + 1074)) by (apply pow2_gt0; lia).
      assert (Z.pos mx * 2 ^ (ex + 1074) < 2 ^ 53 * 2 ^ (ex + 1074))
        by (apply Zmult_lt_compat_r; lia).
      rewrite <- Z.pow_add_r in H0 by lia.
      assert (2 ^ (53 + (ex + 1074)) <= 2 ^ (52 + (ey + 1074)))
        by (apply pow2_le; lia). lia.
    - assert (Hn : 2 ^ 52 <= Z.pos mx) by lia.
      pose proof (units_normal mx ex ltac:(lia) ltac:(lia)) as Hux.
      assert (HP : 0 < 2 ^ (ey + 1074)) by (apply pow2_gt0; lia).
      assert (Z.pos my * 2 ^ (ey + 1074) < 2 ^ 53 * 2 ^ (ey + 1074))
        by (apply Zmult_lt_compat_r; lia).
      rewrite <- Z.pow_add_r in H0 by lia.
      assert (2 ^ (53 + (ey + 1074)) <= 2 ^ (52 + (ex + 1074)))
        by (apply pow2_le; lia). lia. }
  subst ey.
  assert (HP : 0 < 2 ^ (ex + 1074)) by (apply pow2_gt0; lia).
  assert (Em : Z.pos mx = Z.pos my).
  { apply (Z.mul_cancel_r _ _ (2 ^ (ex + 1074))); lia. }
  injection Em as ->. reflexivity.
Qed.

(** The comparison of doubles orders plain doubles by their value. *)
Lemma plain_leb (x y : spec_float) :
  plain x -> plain y -> units x <= units y -> SFleb x y = true.
Proof.
  intros Hx Hy Hle.
  destruct Hx as [->|[->|[mx [ex [-> [Hmx [Hex Hnx]]]]]]];
    destruct Hy as [->|[->|[my [ey [-> [Hmy [Hey Hny]]]]]]];
    cbn [units] in Hle; try reflexivity;
    try (pose proof top_pos; lia);
    try (pose proof (units_finite my ey Hmy Hey); lia);
    try (pose proof (units_finite mx ex Hmx Hex); lia).
  unfold SFleb, SFcompare.
  destruct (Z.compare_spec ex ey) as [E|L|G].
  - subst ey. fold (Pos.compare mx my).
    assert (HP : 0 < 2 ^ (ex + 1074)) by (apply pow2_gt0; lia).
    assert (Hm : Z.pos mx <= Z.pos my).
    { apply (Zmult_le_reg_r _ _ (2 ^ (ex + 1074))); lia. }
    destruct (Pos.compare_spec mx my) as [E|L|G]; try reflexivity. lia.
  - reflexivity.
  - assert (Hn : 2 ^ 52 <= Z.pos mx) by lia.
    pose proof (units_normal mx ex ltac:(lia) ltac:(lia)) as Hux.
    assert (HP : 0 < 2 ^ (ey + 1074)) by (apply pow2_gt0; lia).
    assert (Z.pos my * 2 ^ (ey + 1074) < 2 ^ 53 * 2 ^ (ey + 1074))
      by (apply Zmult_lt_compat_r; lia).
    rewrite <- Z.pow_add_r in H by lia.
    assert (2 ^ (53 + (ey + 1074)) <= 2 ^ (52 + (ex + 1074)))
      by (apply pow2_le; lia). lia.
Qed.

Lemma shl_align_value (m : positive) (e e' : Z) :
  e' <= e -> Z.pos (fst (shl_align m e e')) = Z.pos m * 2 ^ (e - e').
Proof.
  intros H. unfold shl_align.
  destruct (e' - e) as [|d|d] eqn:E; cbn [fst].
  - replace (e - e') with 0 by lia. lia.
  - lia.
  - rewrite pos_iter_xO. f_equal. f_equal. lia.
Qed.

(** The sum of two integers of fewer than 53 bits in the least exponent
    is exact. *)
Lemma binary_round_least (p : positive) :
  Z.pos p < 2 ^ 53 ->
  binary_round prec emax false p (-1074) = S754_finite false p (-1074).
Proof.
  intros Hp. unfold binary_round.
  pose proof (digits2_pos_bounds p) as Hdig.
  set (d := Z.pos (digits2_pos p)) in *.
  assert (Hd : d <= 53) by (apply (pow2_digits (Z.pos p) d 53); lia).
  assert (Ef : fexp prec emax (d + -1074) = -1074).
  { unfold fexp, SpecFloat.emin, prec, emax. lia. }
  rewrite Ef. unfold shl_align. rewrite Z.sub_diag.
  unfold binary_round_aux, shr_fexp.
  cbn [Zdigits2]. fold d. rewrite Ef, Z.sub_diag.
  cbn [shr shr_record_of_loc shr_m loc_of_shr_record shr_r shr_s
       round_nearest_even Zdigits2].
  fold d. rewrite Ef, Z.sub_diag.
  cbn [shr shr_record_of_loc shr_m]. reflexivity.
Qed.

(** The sum of two plain doubles is the plain double their exact sum is
    rounded to. *)
Lemma SFadd_plain (x y : spec_float) :
  plain x -> plain y ->
  plain (SFadd prec emax x y) /\
  rounded (units x + units y) (units (SFadd prec emax x y)).
Proof.
  intros Hx Hy.
  assert (Hself : forall z, plain z -> rounded (units z) (units z)).
  { intros z Hz. pose proof (plain_range z Hz) as Hr.
    destruct (Z.eq_dec (units z) top) as [E|N].
    - left. lia.
    - right. split; [lia|]. exists (units z).
      split; [apply plain_nearest; [exact Hz | lia] | lia]. }
  pose proof (plain_range x Hx) as Rx. pose proof (plain_range y Hy) as Ry.
  assert (Hinf : forall q, top <= q -> rounded q top).
  { intros q Hq. left. split; [exact Hq | reflexivity]. }
  destruct Hx as [->|[->|[mx [ex [-> [Hmx [Hex Hnx]]]]]]].
  { (* +0 and y *)
    assert (E : SFadd prec emax (S754_zero false) y = y).
    { destruct Hy as [->|[->|[my [ey [-> _]]]]]; reflexivity. }
    rewrite E. change (units (S754_zero false)) with 0.
    rewrite Z.add_0_l. split; [exact Hy | now apply Hself]. }
  { (* Infinity and y *)
    assert (E : SFadd prec emax (S754_infinity false) y
                = S754_infinity false).
    { destruct Hy as [->|[->|[my [ey [-> _]]]]]; reflexivity. }
    rewrite E. split; [right; left; reflexivity|].
    apply Hinf. cbn [units]. lia. }
  destruct Hy as [->|[->|[my [ey [-> [Hmy [Hey Hny]]]]]]].
  { cbn [SFadd]. change (units (S754_zero false)) with 0.
    rewrite Z.add_0_r.
    assert (P : plain (S754_finite false mx ex)).
    { right. right. exists mx, ex. auto. }
    split; [exact P | now apply Hself]. }
  { cbn [SFadd]. split; [right; left; reflexivity|].
    apply Hinf. cbn [units] in *. lia. }
  clear Hself.
  cbn [SFadd cond_Zopp units] in *.
  set (ez := Z.min ex ey).
  assert (Hez : -1074 <= ez <= 971) by (subst ez; lia).
  rewrite (shl_align_value mx ex ez) by (subst ez; lia).
  rewrite (shl_align_value my ey ez) by (subst ez; lia).
  assert (HPx : 0 < 2 ^ (ex - ez)) by (apply pow2_gt0; subst ez; lia).
  assert (HPy : 0 < 2 ^ (ey - ez)) by (apply pow2_gt0; subst ez; lia).
  assert (HP : 0 < 2 ^ (ez + 1074)) by (apply pow2_gt0; lia).
  assert (Ex : Z.pos mx * 2 ^ (ex + 1074)
               = Z.pos mx * 2 ^ (ex - ez) * 2 ^ (ez + 1074)).
  { rewrite <- Z.mul_assoc, <- Z.pow_add_r by (subst ez; lia).
    do 2 f_equal. lia. }
  assert (Ey : Z.pos my * 2 ^ (ey + 1074)
               = Z.pos my * 2 ^ (ey - ez) * 2 ^ (ez + 1074)).
  { rewrite <- Z.mul_assoc, <- Z.pow_add_r by (subst ez; lia).
    do 2 f_equal. lia. }
  rewrite Ex, Ey in *. rewrite <- Z.mul_add_distr_r in *.
  set (M := Z.pos mx * 2 ^ (ex - ez) + Z.pos my * 2 ^ (ey - ez)) in *.
  assert (HM0 : 0 < M) by (subst M; nia).
  assert (HMn : -1074 < ez -> 2 ^ 53 <= M).
  { intros Hgt.
    assert (2 ^ 52 <= Z.pos mx) by (subst ez; lia).
    assert (2 ^ 52 <= Z.pos my) by (subst ez; lia).
    change (2 ^ 53) with (2 ^ 52 + 2 ^ 52). subst M. nia. }
  destruct M as [|p|p] eqn:EM; [lia| |lia].
  cbn [binary_normalize].
  destruct (Z_lt_le_dec (Z.pos p) (2 ^ 53)) as [Small|Large].
  { (* a sum in the least exponent, exact *)
    assert (Eez : ez = -1074).
    { destruct (Z.eq_dec ez (-1074)) as [E|N]; [exact E|].
      specialize (HMn ltac:(lia)). lia. }
    rewrite Eez. rewrite (binary_round_least p Small).
    change (2 ^ (-1074 + 1074)) with 1. rewrite Z.mul_1_r.
    cbn [units]. change (2 ^ (-1074 + 1074)) with 1. rewrite Z.mul_1_r.
    split.
    - right. right. exists p, (-1074). split; [reflexivity|].
      split; [exact Small|]. split; [lia | right; reflexivity].
    - assert (Hlt : Z.pos p < top).
      { apply Z.lt_trans with (2 ^ 53); [exact Small | reflexivity]. }
      right. split; [exact Hlt|]. exists (Z.pos p).
      split; [left; lia|]. symmetry. apply Z.min_l, Z.lt_le_incl, Hlt. }
  unfold binary_round.
  pose proof (digits2_pos_bounds p) as Hdig.
  set (d := Z.pos (digits2_pos p)) in *.
  assert (Hd54 : 54 <= d).
  { destruct (Z_le_gt_dec 54 d) as [H|H]; [exact H|].
    assert (2 ^ d <= 2 ^ 53) by (apply pow2_le; lia). lia. }
  rewrite (fexp_normal (d + ez)) by lia.
  assert (Halign : shl_align p ez (d + ez - 53) = (p, ez)).
  { unfold shl_align. destruct (d + ez - 53 - ez) eqn:E; try reflexivity. lia. }
  rewrite Halign.
  pose proof (binary_round_aux_wide false (Z.pos p) 1 ez
                ltac:(lia) ltac:(lia)) as H.
  cbv zeta in H. rewrite Z.div_1_r, loc_of_exact in H.
  change (Zdigits2 (Z.pos p)) with d in H.
  specialize (H ltac:(lia) ltac:(lia)).
  destruct H as [m [e [Hr [Hm [He Herr]]]]].
  rewrite Hr.
  assert (Hu : 0 < 2 ^ (d - 53)) by (apply pow2_gt0; lia).
  assert (Hee : 0 < 2 ^ (e - ez)) by (apply pow2_gt0; lia).
  assert (Er : Z.pos m * 2 ^ (e + 1074)
               = Z.pos m * 2 ^ (e - ez) * 2 ^ (ez + 1074)).
  { rewrite <- Z.mul_assoc, <- Z.pow_add_r by lia. do 2 f_equal. lia. }
  (* the double next to the exact sum, before the test of overflow *)
  assert (Hnear : nearest (Z.pos p * 2 ^ (ez + 1074))
                    (Z.pos m * 2 ^ (e + 1074))).
  { right. exists (d + (ez + 1074)).
    split; [lia|]. split; [|split].
    - replace (d + (ez + 1074) - 1) with ((d - 1) + (ez + 1074)) by lia.
      rewrite (Z.pow_add_r 2 (d - 1)), (Z.pow_add_r 2 d) by lia. split.
      + apply Z.mul_le_mono_nonneg_r; lia.
      + apply Zmult_lt_compat_r; lia.
    - replace (d + (ez + 1074) - 53) with ((d - 53) + (ez + 1074)) by lia.
      rewrite Er, Z.pow_add_r by lia.
      apply Z.mul_divide_mono_r.
      exists (Z.pos m * 2 ^ (e - ez - (d - 53))).
      rewrite <- Z.mul_assoc, <- Z.pow_add_r by lia. do 2 f_equal. lia.
    - replace (d + (ez + 1074) - 53) with ((d - 53) + (ez + 1074)) by lia.
      rewrite Er, Z.pow_add_r by lia.
      rewrite !Z.mul_1_r in Herr.
      replace (2 * (Z.pos m * 2 ^ (e - ez) * 2 ^ (ez + 1074)
                    - Z.pos p * 2 ^ (ez + 1074)))
        with (2 * (Z.pos m * 2 ^ (e - ez) - Z.pos p) * 2 ^ (ez + 1074))
        by lia.
      rewrite <- Z.mul_opp_l. split.
      + apply Z.mul_le_mono_nonneg_r; lia.
      + apply Z.mul_le_mono_nonneg_r; lia. }
  unfold emax, prec. change (1024 - 53) with 971.
  destruct (Z.leb_spec e 971) as [Hfin|Hover].
  - (* a finite double *)
    assert (Helo : -1074 <= e) by lia.
    pose proof (units_finite m e (proj2 Hm) (conj Helo Hfin)) as Huf.
    cbn [units]. split.
    + right. right. exists m, e. split; [reflexivity|].
      split; [lia|]. split; [lia | left; lia].
    + right. split.
      * apply (nearest_below_top _ _ Hnear), Huf.
      * exists (Z.pos m * 2 ^ (e + 1074)). split; [exact Hnear|].
        symmetry. apply Z.min_l, Z.lt_le_incl, Huf.
  - (* overflow *)
    cbn [units]. split; [right; left; reflexivity|].
    assert (Hehi : 972 <= e) by lia.
    pose proof (units_overflow m e (proj1 Hm) Hehi) as Hbig.
    destruct (Z_lt_le_dec (Z.pos p * 2 ^ (ez + 1074)) top) as [Hq|Hq].
    + right. split; [exact Hq|]. exists (Z.pos m * 2 ^ (e + 1074)).
      split; [exact Hnear|]. symmetry. apply Z.min_r, Hbig.
    + left. split; [exact Hq | reflexivity].
Qed.

End Addition.

(** ** The doubles of the totals *)

Lemma sum_over_filter (keep : Prospect -> bool) (f : Prospect -> Q)
    (ps : list Prospect) :
  sum_over (fun _ => true) f (filter keep ps) == sum_over keep f ps.
Proof.
  induction ps as [|p ps IH]; cbn; [reflexivity|].
  destruct (keep p); cbn; rewrite IH; lra.
Qed.

Lemma sum_over_nonneg (keep : Prospect -> bool) (f : Prospect -> Q)
    (ps : list Prospect) :
  (forall p, In p ps -> 0 <= f p) -> 0 <= sum_over keep f ps.
Proof.
  induction ps as [|p ps IH]; intros H; cbn; [apply Qle_refl|].
  assert (Hp : 0 <= f p) by (apply H; now left).
  assert (Hps : 0 <= sum_over keep f ps).
  { apply IH. intros q Hq. apply H. now right. }
  destruct (keep p); lra.
Qed.

(** A sum over some of the records is at most the sum over all of them
    when no term is negative. *)
Lemma sum_over_le_all (keep : Prospect -> bool) (f : Prospect -> Q)
    (ps : list Prospect) :
  (forall p, In p ps -> 0 <= f p) ->
  sum_over keep f ps <= sum_over (fun _ => true) f ps.
Proof.
  induction ps as [|p ps IH]; intros H; cbn; [apply Qle_refl|].
  assert (Hp : 0 <= f p) by (apply H; now left).
  assert (Hps : sum_over keep f ps <= sum_over (fun _ => true) f ps).
  { apply IH. intros q Hq. apply H. now right. }
  destruct (keep p); lra.
Qed.

Lemma filter_all {A : Type} (f : A -> bool) (l : list A) :
  (forall x, In x l -> f x = true) -> filter f l = l.
Proof.
  induction l as [|a l IH]; intros H; cbn; [reflexivity|].
  rewrite (H a (or_introl eq_refl)). f_equal. apply IH.
  intros x Hx. apply H. now right.
Qed.

Lemma filter_none {A : Type} (f : A -> bool) (l : list A) :
  (forall x, In x l -> f x = false) -> filter f l = [].
Proof.
  induction l as [|a l IH]; intros H; cbn; [reflexivity|].
  rewrite (H a (or_introl eq_refl)). apply IH.
  intros x Hx. apply H. now right.
Qed.

Lemma filter_filter {A : Type} (f g : A -> bool) (l : list A) :
  filter f (filter g l) = filter (fun x => g x && f x) l.
Proof.
  induction l as [|a l IH]; cbn; [reflexivity|].
  destruct (g a); cbn; [destruct (f a)|]; now rewrite IH.
Qed.

Lemma filter_comm {A : Type} (f g : A -> bool) (l : list A) :
  filter f (filter g l) = filter g (filter f l).
Proof.
  rewrite !filter_filter. apply filter_ext. intros a. apply andb_comm.
Qed.

Lemma of_nat_add (a b : nat) : of_nat (a + b) == of_nat a + of_nat b.
Proof.
  unfold of_nat. rewrite Nat2Z.inj_add, inject_Z_plus. reflexivity.
Qed.

Lemma of_nat_nonneg (n : nat) : 0 <= of_nat n.
Proof.
  unfold of_nat. change 0 with (inject_Z 0). rewrite <- Zle_Qle. lia.
Qed.

Lemma of_nat_inj (a b : nat) : of_nat a == of_nat b -> a = b.
Proof.
  unfold of_nat. intros H.
  apply (inject_Z_injective (Z.of_nat a) (Z.of_nat b)) in H. lia.
Qed.

Section PlainDoubles.

Local Open Scope Z_scope.

Lemma Prim2SF_zero : Prim2SF 0 = S754_zero false.
Proof. reflexivity. Qed.

(** The units of a whole number below 2^53 are short of overflow. *)
Lemma whole_units_lt (n : Z) :
  0 <= n < 2 ^ 53 -> n * 2 ^ 1074 < 2 ^ (1074 + 53) /\ n * 2 ^ 1074 < top.
Proof.
  intros Hn.
  assert (HP : 0 < 2 ^ 1074) by (apply pow2_gt0; lia).
  assert (H1 : n * 2 ^ 1074 < 2 ^ 53 * 2 ^ 1074)
    by (apply Zmult_lt_compat_r; lia).
  assert (E : 2 ^ (1074 + 53) = 2 ^ 53 * 2 ^ 1074) by reflexivity.
  assert (H2 : 2 ^ (1074 + 53) < top) by reflexivity.
  rewrite E in *. split; [exact H1|].
  apply Z.lt_trans with (2 ^ 53 * 2 ^ 1074); assumption.
Qed.

(** A whole number below 2^53 is a plain double. *)
Lemma float_of_nat_plain (n : nat) :
  Z.of_nat n < 2 ^ 53 ->
  plain (Prim2SF (float_of_nat n)) /\
  units (Prim2SF (float_of_nat n)) = Z.of_nat n * 2 ^ 1074.
Proof.
  intros Hn. destruct n as [|n'].
  - split; [left; reflexivity | reflexivity].
  - set (n := S n') in *.
    assert (Hpos : 0 < Z.of_nat n < 2 ^ 53) by (subst n; lia).
    unfold float_of_nat.
    rewrite FloatAxioms.of_uint63_spec, Uint63.of_Z_spec.
    rewrite Z.mod_small.
    + destruct (binary_normalize_int (Z.of_nat n) Hpos)
        as [m [e [H [Hm [He Hv]]]]].
      rewrite H. split.
      * right. right. exists m, e. split; [reflexivity|].
        split; [lia|]. split; [lia | left; lia].
      * cbn [units]. rewrite Hv, <- Z.mul_assoc, <- Z.pow_add_r by lia.
        do 2 f_equal. lia.
    + split; [lia|]. apply Z.lt_trans with (2 ^ 53); [lia|]. reflexivity.
Qed.

(** The sum of two plain doubles of the program. *)
Lemma add_plain (a b : float) :
  plain (Prim2SF a) -> plain (Prim2SF b) ->
  plain (Prim2SF (a + b)) /\
  rounded (units (Prim2SF a) + units (Prim2SF b)) (units (Prim2SF (a + b))).
Proof.
  intros Ha Hb. rewrite FloatAxioms.add_spec. unfold SF64add.
  now apply SFadd_plain.
Qed.

(** Whole numbers add up exactly while the sum is below 2^53. *)
Lemma whole_add (a b : nat) :
  Z.of_nat (a + b) < 2 ^ 53 ->
  (float_of_nat a + float_of_nat b)%float = float_of_nat (a + b).
Proof.
  intros H.
  destruct (float_of_nat_plain a ltac:(lia)) as [Pa Ua].
  destruct (float_of_nat_plain b ltac:(lia)) as [Pb Ub].
  destruct (float_of_nat_plain (a + b) H) as [Pc Uc].
  assert (Hsum : units (Prim2SF (float_of_nat a))
                 + units (Prim2SF (float_of_nat b))
                 = Z.of_nat (a + b) * 2 ^ 1074).
  { rewrite Ua, Ub. lia. }
  destruct (whole_units_lt (Z.of_nat (a + b)) ltac:(lia)) as [Hlt Htop].
  destruct (add_plain _ _ Pa Pb) as [Ps Hn].
  rewrite Hsum in Hn.
  apply FloatAxioms.Prim2SF_inj. apply plain_unique; [exact Ps | exact Pc |].
  rewrite Uc.
  apply (rounded_exact _ _ 1074 Hn); [lia | | exact Hlt | exact Htop].
  exists (Z.of_nat (a + b)). reflexivity.
Qed.

(** A plain double is truthy unless it is 0, which [|| 0] gives back. *)
Lemma or_zero_plain (x : float) :
  plain (Prim2SF x) -> or_zero (Some x) = x.
Proof.
  intros [E|[E|[m [e [E _]]]]]; unfold or_zero, falsy_number,
    PrimFloat.is_zero, PrimFloat.is_nan.
  - rewrite !FloatAxioms.eqb_spec, E. cbn.
    apply FloatAxioms.Prim2SF_inj. now rewrite E.
  - rewrite !FloatAxioms.eqb_spec, E. reflexivity.
  - rewrite !FloatAxioms.eqb_spec, E.
    change (Prim2SF zero) with (S754_zero false).
    unfold SFeqb, SFcompare.
    rewrite Z.compare_refl, Pos.compare_cont_refl. reflexivity.
Qed.

(** The mantissa and the exponent of a double of the format. *)
Lemma bounded_plain (m : positive) (e : Z) :
  bounded prec emax m e = true ->
  Z.pos m < 2 ^ 53 /\ -1074 <= e <= 971 /\
  (2 ^ 52 <= Z.pos m \/ e = -1074).
Proof.
  unfold bounded, canonical_mantissa. intros H.
  apply andb_true_iff in H. destruct H as [Hc He].
  apply Z.eqb_eq in Hc. apply Z.leb_le in He.
  unfold fexp, SpecFloat.emin in Hc.
  change (3 - emax - prec) with (-1074) in Hc.
  change prec with 53 in Hc. change (emax - prec) with 971 in He.
  pose proof (digits2_pos_bounds m) as Hd.
  set (d := Z.pos (digits2_pos m)) in *.
  assert (Hd53 : d <= 53) by lia.
  assert (H53 : 2 ^ d <= 2 ^ 53) by (apply pow2_le; lia).
  split; [lia|]. split; [lia|].
  destruct (Z.eq_dec e (-1074)) as [E|N]; [right; exact E | left].
  assert (Ed : d = 53) by lia. rewrite Ed in Hd. apply Hd.
Qed.

(** A non-negative number is, after [|| 0], a plain double. *)
Lemma nonneg_plain (v : float) :
  (0 <=? v)%float = true -> plain (Prim2SF (or_zero (Some v))).
Proof.
  intros H. rewrite FloatAxioms.leb_spec in H.
  change (Prim2SF 0) with (S754_zero false) in H.
  pose proof (FloatAxioms.Prim2SF_valid v) as Hv.
  destruct (Prim2SF v) as [s|s| |s m e] eqn:E.
  - assert (F : falsy_number v = true).
    { unfold falsy_number, PrimFloat.is_zero.
      rewrite FloatAxioms.eqb_spec, E. reflexivity. }
    unfold or_zero. rewrite F. left. reflexivity.
  - destruct s; [discriminate H|].
    assert (Pv : plain (Prim2SF v)) by (rewrite E; right; left; reflexivity).
    rewrite (or_zero_plain v Pv), E. right. left. reflexivity.
  - discriminate H.
  - destruct s; [discriminate H|].
    assert (Pv : plain (Prim2SF v)).
    { rewrite E. right. right. exists m, e. split; [reflexivity|].
      apply bounded_plain. exact Hv. }
    rewrite (or_zero_plain v Pv). exact Pv.
Qed.

(** The reduction over a part of the list stays at or below the reduction
    over the list, step by step: both sums are plain doubles, a rounded
    sum is monotone in its operands, and adding a number that is not
    negative does not lower a sum. *)
Lemma fold_part (f : Prospect -> bool) (ps : list Prospect) :
  (forall p, In p ps -> plain (Prim2SF (or_zero (value p)))) ->
  forall c t : float,
    plain (Prim2SF c) -> plain (Prim2SF t) ->
    units (Prim2SF c) <= units (Prim2SF t) ->
    plain (Prim2SF (fold_left add_value (filter f ps) c)) /\
    plain (Prim2SF (fold_left add_value ps t)) /\
    units (Prim2SF (fold_left add_value (filter f ps) c))
    <= units (Prim2SF (fold_left add_value ps t)).
Proof.
  induction ps as [|p ps IH]; intros Hps c t Pc Pt Hct.
  - cbn [filter fold_left]. auto.
  - pose proof (Hps p (or_introl eq_refl)) as Pv.
    assert (Hps' : forall q, In q ps ->
              plain (Prim2SF (or_zero (value q)))).
    { intros q Hq. apply Hps. now right. }
    pose proof (plain_range _ Pv) as Hv0.
    destruct (add_plain t (or_zero (value p)) Pt Pv) as [Pt' Nt].
    cbn [filter fold_left].
    destruct (f p).
    + cbn [fold_left].
      destruct (add_plain c (or_zero (value p)) Pc Pv) as [Pc' Nc].
      apply IH; try assumption.
      destruct (Z.eq_dec (units (Prim2SF c)) (units (Prim2SF t))) as [E|N].
      * assert (Ect : c = t).
        { apply FloatAxioms.Prim2SF_inj. now apply plain_unique. }
        subst t. lia.
      * apply (rounded_mono _ _ _ _ Nc Nt). lia.
    + apply IH; try assumption.
      apply Z.le_trans with (units (Prim2SF t)); [exact Hct|].
      apply (rounded_above _ _ _ Nt Pt). lia.
Qed.

End PlainDoubles.

(** The real number of a finite plain double, from its units. *)
Lemma real_units (x : float) :
  plain (Prim2SF x) -> (units (Prim2SF x) < top)%Z ->
  real x == inject_Z (units (Prim2SF x)) * pow2 (-1074).
Proof.
  unfold real. intros [E|[E|[m [e [E [_ [He _]]]]]]] Hlt;
    rewrite E in *; cbn [units] in *.
  - rewrite Qmult_0_l. reflexivity.
  - exfalso. apply (Z.lt_irrefl top Hlt).
  - unfold SFvalue. rewrite inject_Z_mult, pow2_of_Z by lia.
    rewrite <- Qmult_assoc, <- pow2_plus.
    replace (e + 1074 + -1074)%Z with e by lia. reflexivity.
Qed.

Lemma real_float_of_nat (n : nat) :
  (Z.of_nat n < 2 ^ 53)%Z -> real (float_of_nat n) == of_nat n.
Proof.
  intros H. destruct (float_of_nat_plain n H) as [P U].
  destruct (whole_units_lt (Z.of_nat n) ltac:(lia)) as [_ Htop].
  rewrite (real_units _ P) by (rewrite U; exact Htop).
  rewrite U. unfold of_nat.
  rewrite inject_Z_mult, pow2_of_Z by lia.
  rewrite <- Qmult_assoc, <- pow2_plus.
  replace (1074 + -1074)%Z with 0%Z by reflexivity.
  change (pow2 0) with 1. apply Qmult_1_r.
Qed.

(** What a record adds to a total of whole numbers. *)
Lemma or_zero_whole (p : Prospect) :
  (forall v, value p = Some v -> whole v) ->
  exists n : nat,
    (Z.of_nat n < 2 ^ 53)%Z /\
    or_zero (value p) = float_of_nat n /\
    value_or_absent p == of_nat n.
Proof.
  intros H. unfold value_or_absent. destruct (value p) as [v|].
  - destruct (H v eq_refl) as [n [Hn ->]]. exists n.
    split; [exact Hn|]. split.
    + apply or_zero_plain. apply (float_of_nat_plain n Hn).
    + apply real_float_of_nat. exact Hn.
  - exists 0%nat. split; [reflexivity|]. split; reflexivity.
Qed.

Lemma whole_nonneg (ps : list Prospect) :
  (forall p v, In p ps -> value p = Some v -> whole v) ->
  forall p, In p ps -> 0 <= value_or_absent p.
Proof.
  intros H p Hp.
  destruct (or_zero_whole p (fun v => H p v Hp)) as [n [_ [_ ->]]].
  apply of_nat_nonneg.
Qed.

(** The reduction of whole numbers over a part of the list, from a whole
    number on, is the exact sum. *)
Lemma fold_whole (f : Prospect -> bool) (ps : list Prospect) :
  (forall p v, In p ps -> value p = Some v -> whole v) ->
  forall a : nat,
    of_nat a + sum_over (fun _ => true) value_or_absent ps
    < inject_Z (2 ^ 53) ->
    exists N : nat,
      (Z.of_nat N < 2 ^ 53)%Z /\
      fold_left add_value (filter f ps) (float_of_nat a) = float_of_nat N /\
      of_nat N == of_nat a + sum_over f value_or_absent ps.
Proof.
  induction ps as [|p ps IH]; intros Hw a Hlt.
  - exists a. cbn [filter fold_left sum_over] in *. split.
    + assert (H : of_nat a < inject_Z (2 ^ 53)) by lra.
      unfold of_nat in H. now rewrite <- Zlt_Qlt in H.
    + split; [reflexivity | lra].
  - assert (Hw' : forall q v, In q ps -> value q = Some v -> whole v).
    { intros q v Hq. apply Hw. now right. }
    destruct (or_zero_whole p (fun v => Hw p v (or_introl eq_refl)))
      as [n [Hn [En Vn]]].
    pose proof (sum_over_nonneg (fun _ => true) value_or_absent ps
                  (whole_nonneg ps Hw')) as Hrest.
    pose proof (of_nat_nonneg n) as Hn0.
    cbn [sum_over] in Hlt. rewrite Vn in Hlt.
    cbn [filter sum_over]. destruct (f p).
    + cbn [fold_left]. unfold add_value at 2. rewrite En.
      assert (Han : (Z.of_nat (a + n) < 2 ^ 53)%Z).
      { assert (H : of_nat (a + n) < inject_Z (2 ^ 53))
          by (rewrite of_nat_add; lra).
        unfold of_nat in H. now rewrite <- Zlt_Qlt in H. }
      rewrite (whole_add a n Han).
      destruct (IH Hw' (a + n)%nat) as [N [HN [EN VN]]].
      { rewrite of_nat_add. lra. }
      exists N. split; [exact HN|]. split; [exact EN|].
      rewrite VN, of_nat_add, Vn. lra.
    + destruct (IH Hw' a) as [N [HN [EN VN]]]; [lra|].
      exists N. split; [exact HN|]. split; [exact EN|].
      rewrite VN. lra.
Qed.

(** The totals of whole numbers. *)
Lemma whole_total (f : Prospect -> bool) (ps : list Prospect) :
  whole_values ps ->
  exists N : nat,
    (Z.of_nat N < 2 ^ 53)%Z /\
    fold_left add_value (filter f ps) 0%float = float_of_nat N /\
    of_nat N == sum_over f value_or_absent ps.
Proof.
  intros [Hw Hlt].
  destruct (fold_whole f ps Hw 0%nat) as [N [HN [EN VN]]].
  { change (of_nat 0) with 0. lra. }
  exists N. split; [exact HN|]. split; [exact EN|].
  rewrite VN. change (of_nat 0) with 0. lra.
Qed.

(** The totals of numbers that are not negative: the reduction over a
    part of the list is at most the reduction over the list. *)
Lemma nonneg_part (f : Prospect -> bool) (ps : list Prospect) :
  values_nonneg ps ->
  (fold_left add_value (filter f ps) 0 <=? fold_left add_value ps 0)%float
  = true.
Proof.
  intros Hr.
  assert (Hps : forall p, In p ps ->
            plain (Prim2SF (or_zero (value p)))).
  { intros p Hp. destruct (value p) as [v|] eqn:E.
    - apply nonneg_plain. exact (Hr p v Hp E).
    - left. reflexivity. }
  assert (P0 : plain (Prim2SF 0)) by (left; reflexivity).
  destruct (fold_part f ps Hps 0%float 0%float P0 P0 (Z.le_refl _))
    as [Pc [Pt Hle]].
  rewrite FloatAxioms.leb_spec. now apply plain_leb.
Qed.

Lemma whole_values_part (f : Prospect -> bool) (ps : list Prospect) :
  whole_values ps -> whole_values (filter f ps).
Proof.
  intros [Hw Hlt]. split.
  - intros p v Hp. apply filter_In in Hp. apply Hw. tauto.
  - rewrite sum_over_filter.
    pose proof (sum_over_le_all f value_or_absent ps (whole_nonneg ps Hw)).
    lra.
Qed.

Lemma values_nonneg_part (f : Prospect -> bool) (ps : list Prospect) :
  values_nonneg ps -> values_nonneg (filter f ps).
Proof.
  intros Hr p v Hp. apply filter_In in Hp. apply Hr. tauto.
Qed.

Lemma sum_over_ext (keep keep' : Prospect -> bool) (f : Prospect -> Q)
    (ps : list Prospect) :
  (forall p, keep p = keep' p) ->
  sum_over keep f ps == sum_over keep' f ps.
Proof.
  intros H. induction ps as [|p ps IH]; cbn [sum_over]; [reflexivity|].
  rewrite H, IH. reflexivity.
Qed.

(** The filter of the aggregator's closed value keeps the closed-stage
    records. *)
Lemma in_stage_closed (p : Prospect) : in_stage closed p = closed_stage p.
Proof. unfold in_stage, closed_stage. now destruct (stage p). Qed.

(** ** C5: the value totals *)


(** ** C8: the three-record scenario *)

(** C8: for a list of three records, the first new with value 1000, the
    second in talks with value 500 and the third closed with value 2000, the
    aggregator computes total 3, one record per stage, the conversion rate
    "33.3", the pipeline value 3500 and the closed value 2000. *)
Theorem scenario_metrics (NumberToString : Q -> string)
    (p1 p2 p3 : Prospect) :
  stage p1 = new -> value p1 = Some 1000%float ->
  stage p2 = in_talks -> value p2 = Some 500%float ->
  stage p3 = closed -> value p3 = Some 2000%float ->
  let ps := [p1; p2; p3] in
  totalProspects ps = 3%nat /\
  newProspects ps = 1%nat /\
  inTalksProspects ps = 1%nat /\
  closedProspects ps = 1%nat /\
  conversionRate NumberToString ps = "33.3" /\
  totalValue ps = 3500%float /\
  closedValue ps = 2000%float.
Proof.
  destruct p1, p2, p3. cbn [stage value].
  intros -> -> -> -> -> ->. cbv zeta.
  repeat split; vm_compute; reflexivity.
Qed.

Lemma scenario_metrics_witness :
  totalProspects scenario = 3%nat /\
  newProspects scenario = 1%nat /\
  inTalksProspects scenario = 1%nat /\
  closedProspects scenario = 1%nat /\
  conversionRate (fun _ => "") scenario = "33.3" /\
  totalValue scenario = 3500%float /\
  closedValue scenario = 2000%float.
Proof.
  apply (scenario_metrics (fun _ => "") ada bob cyd); reflexivity.
Defined.

(** ** The stage-change handler *)

Lemma stage_eqb_spec (a b : Stage) : reflect (a = b) (stage_eqb a b).
Proof. destruct a, b; constructor; congruence. Qed.

Section BoardFacts.

Import Dashboard.

Variable supabase : Req -> Completion Response.

Lemma handleDragEnd_outside (result : DropResult) (s : State) :
  destination result = None ->
  handleDragEnd supabase result s = (Normal tt, s, []).
Proof.
  intros H. unfold handleDragEnd. rewrite H. reflexivity.
Qed.

Lemma handleDragEnd_same (result : DropResult) (dest : DraggableLocation)
    (s : State) :
  destination result = Some dest ->
  droppableId (source result) = droppableId dest ->
  handleDragEnd supabase result s = (Normal tt, s, []).
Proof.
  intros H E. unfold handleDragEnd. rewrite H, E.
  destruct (stage_eqb_spec (droppableId dest) (droppableId dest));
    [reflexivity | congruence].
Qed.

Lemma handleDragEnd_success (result : DropResult)
    (dest : DraggableLocation) (s : State) :
  destination result = Some dest ->
  droppableId (source result) <> droppableId dest ->
  failure (supabase (update_stage (droppableId dest) (draggableId result)))
    = None ->
  handleDragEnd supabase result s =
  (Normal tt,
   setProspects (moved (draggableId result) (droppableId dest)) s,
   [ Request (update_stage (droppableId dest) (draggableId result));
     SetState;
     ToastShown {| title := "Prospect moved";
                   description :=
                     "Moved to " ++ stageConfig_title (droppableId dest);
                   variant := None |} ]).
Proof.
  intros H N E. unfold handleDragEnd. rewrite H.
  destruct (stage_eqb_spec (droppableId (source result)) (droppableId dest));
    [contradiction|].
  run_eff. unfold failure in E.
  destruct (supabase _) as [resp|e']; [rewrite E | inversion E]; reflexivity.
Qed.

Lemma handleDragEnd_failure (result : DropResult)
    (dest : DraggableLocation) (s : State) (e : Error) :
  destination result = Some dest ->
  droppableId (source result) <> droppableId dest ->
  failure (supabase (update_stage (droppableId dest) (draggableId result)))
    = Some e ->
  handleDragEnd supabase result s =
  (Normal tt, s,
   [ Request (update_stage (droppableId dest) (draggableId result));
     ConsoleError "Error updating prospect stage:" e;
     ToastShown {| title := "Error";
                   description := "Failed to update prospect stage";
                   variant := Some "destructive" |} ]).
Proof.
  intros H N E. unfold handleDragEnd. rewrite H.
  destruct (stage_eqb_spec (droppableId (source result)) (droppableId dest));
    [contradiction|].
  run_eff. unfold failure in E.
  destruct (supabase _) as [resp|e']; [rewrite E | inversion E]; reflexivity.
Qed.

Lemma with_stage_same (B : Stage) (p : Prospect) :
  same_but_stage p (with_stage B p).
Proof. repeat split. Qed.

Lemma same_but_stage_refl (p : Prospect) : same_but_stage p p.
Proof. repeat split. Qed.

Lemma moved_nth (r : string) (B : Stage) (prev : list Prospect)
    (i : nat) (p : Prospect) :
  nth_error prev i = Some p ->
  nth_error (moved r B prev) i =
  Some (if (id p =? r)%string then with_stage B p else p).
Proof.
  intros H. unfold moved. rewrite nth_error_map, H. reflexivity.
Qed.

(** C9: a drop outside every column (no destination) makes the handler
    return at once: nothing is sent and the state, the prospect list
    included, is as before. *)
Theorem drop_outside_is_noop (result : DropResult) (s : State) :
  destination result = None ->
  trace (handleDragEnd supabase result) s = [] /\
  final_state (handleDragEnd supabase result) s = s.
Proof.
  intros H. unfold trace, final_state.
  rewrite (handleDragEnd_outside result s H). split; reflexivity.
Qed.

(** C2: a drag of record [r] from column A to column B.  When A = B the
    handler does nothing and sends nothing.  When A <> B and the update
    succeeds, one update request is sent, the list keeps its length and
    order, a record of another id is unchanged, and a record of id [r]
    keeps every field but [stage], which becomes B. *)
Theorem stage_change_frame (result : DropResult)
    (dest : DraggableLocation) (s : State) :
  destination result = Some dest ->
  let A := droppableId (source result) in
  let B := droppableId dest in
  let r := draggableId result in
  let s' := final_state (handleDragEnd supabase result) s in
  let t := trace (handleDragEnd supabase result) s in
  (A = B -> t = [] /\ s' = s) /\
  (A <> B -> failure (supabase (update_stage B r)) = None ->
     requests t = [update_stage B r] /\
     List.length (prospects s') = List.length (prospects s) /\
     forall (i : nat) (p : Prospect),
       nth_error (prospects s) i = Some p ->
       exists p' : Prospect,
         nth_error (prospects s') i = Some p' /\
         same_but_stage p p' /\
         (id p = r -> stage p' = B) /\
         (id p <> r -> p' = p)).
Proof.
  intros H A B r s' t. subst s' t. unfold trace, final_state. split.
  - intros E. rewrite (handleDragEnd_same result dest s H E).
    split; reflexivity.
  - intros N E. rewrite (handleDragEnd_success result dest s H N E).
    cbn [fst snd requests setProspects prospects].
    split; [reflexivity|]. split.
    + unfold moved. apply length_map.
    + intros i p Hi. fold r B. rewrite (moved_nth r B _ i p Hi).
      destruct (String.eqb_spec (id p) r) as [Eid|Nid].
      * exists (with_stage B p). split; [reflexivity|].
        split; [apply with_stage_same|]. split; [reflexivity|].
        intros C. contradiction.
      * exists p. split; [reflexivity|].
        split; [apply same_but_stage_refl|]. split; [|reflexivity].
        intros C. contradiction.
Qed.

(** C3: when the update request of a stage change fails, answered with
    an error or not answered at all, the handler logs the error and shows
    the notification "Failed to update prospect stage"; the state, the
    prospect list included, is as before the drag, and it was never
    written: the handler sends the request, logs and notifies, and calls
    no state setter, neither before the request nor after it. *)
Theorem stage_change_failure (result : DropResult)
    (dest : DraggableLocation) (s : State) (e : Error) :
  destination result = Some dest ->
  droppableId (source result) <> droppableId dest ->
  failure (supabase (update_stage (droppableId dest) (draggableId result)))
    = Some e ->
  final_state (handleDragEnd supabase result) s = s /\
  trace (handleDragEnd supabase result) s =
    [ Request (update_stage (droppableId dest) (draggableId result));
      ConsoleError "Error updating prospect stage:" e;
      ToastShown {| title := "Error";
                    description := "Failed to update prospect stage";
                    variant := Some "destructive" |} ] /\
  ~ In SetState (trace (handleDragEnd supabase result) s) /\
  toasts (trace (handleDragEnd supabase result) s) =
    [ {| title := "Error";
         description := "Failed to update prospect stage";
         variant := Some "destructive" |} ] /\
  In (ConsoleError "Error updating prospect stage:" e)
     (trace (handleDragEnd supabase result) s).
Proof.
  intros H N E. unfold trace, final_state.
  rewrite (handleDragEnd_failure result dest s e H N E).
  cbn [fst snd toasts]. split; [reflexivity|]. split; [reflexivity|].
  split.
  - intros [C|[C|[C|[]]]]; discriminate C.
  - split; [reflexivity|]. right. left. reflexivity.
Qed.

End BoardFacts.

(** ** Deletion *)

Lemma filter_without_id (pid : string) (ps : list Prospect) :
  filter (fun p => negb (id p =? pid)%string) ps = without_id pid ps.
Proof.
  induction ps as [|q ps IH]; cbn; [reflexivity|].
  destruct (id q =? pid)%string; cbn; now rewrite IH.
Qed.

Lemma in_without_id (pid : string) (ps : list Prospect) (q : Prospect) :
  In q (without_id pid ps) <-> In q ps /\ id q <> pid.
Proof.
  rewrite <- filter_without_id, filter_In.
  destruct (String.eqb_spec (id q) pid); cbn; intuition congruence.
Qed.

(** A count over the list is the count over what stays plus the count over
    what goes. *)
Lemma count_split (pid : string) (f : Prospect -> bool) (ps : list Prospect) :
  (List.length (filter f (without_id pid ps)) +
   List.length (filter f (with_id pid ps)) =
   List.length (filter f ps))%nat.
Proof.
  unfold with_id.
  induction ps as [|q ps IH]; cbn; [reflexivity|].
  destruct (id q =? pid)%string; cbn; destruct (f q); cbn; lia.
Qed.

Lemma length_split (pid : string) (ps : list Prospect) :
  (List.length (without_id pid ps) + List.length (with_id pid ps) =
   List.length ps)%nat.
Proof.
  unfold with_id.
  induction ps as [|q ps IH]; cbn; [reflexivity|].
  destruct (id q =? pid)%string; cbn; lia.
Qed.

Lemma sum_over_split (pid : string) (keep : Prospect -> bool)
    (f : Prospect -> Q) (ps : list Prospect) :
  sum_over keep f (without_id pid ps) + sum_over keep f (with_id pid ps) ==
  sum_over keep f ps.
Proof.
  unfold with_id.
  induction ps as [|q ps IH]; cbn; [reflexivity|].
  destruct (id q =? pid)%string; cbn; rewrite <- IH; lra.
Qed.

Lemma with_id_occurs (pid : string) (ps : list Prospect) :
  In pid (map id ps) -> (1 <= List.length (with_id pid ps))%nat.
Proof.
  unfold with_id. intros H. apply in_map_iff in H. destruct H as [q [E Hq]].
  assert (Hin : In q (filter (fun q => (id q =? pid)%string) ps)).
  { apply filter_In. split; [exact Hq|]. now apply String.eqb_eq. }
  destruct (filter (fun q => (id q =? pid)%string) ps); [destruct Hin|].
  cbn. lia.
Qed.

(** The reductions over the records that stay and over those that go. *)
Lemma whole_split (pid : string) (ps : list Prospect) :
  whole_values ps ->
  (fold_left add_value (without_id pid ps) 0
   + fold_left add_value (with_id pid ps) 0)%float
  = fold_left add_value ps 0%float.
Proof.
  intros Hw. rewrite <- filter_without_id. unfold with_id.
  destruct (whole_total (fun p => negb (id p =? pid)%string) ps Hw)
    as [N1 [H1 [E1 V1]]].
  destruct (whole_total (fun q => (id q =? pid)%string) ps Hw)
    as [N2 [H2 [E2 V2]]].
  destruct (whole_total (fun _ => true) ps Hw) as [N [HN [EN VN]]].
  rewrite (filter_all (fun _ => true) ps (fun _ _ => eq_refl)) in EN.
  rewrite E1, E2, EN.
  assert (Esum : (N1 + N2)%nat = N).
  { apply of_nat_inj. rewrite of_nat_add, V1, V2, VN.
    rewrite <- (sum_over_split pid (fun _ => true) value_or_absent ps).
    rewrite <- filter_without_id. unfold with_id.
    rewrite !sum_over_filter. reflexivity. }
  rewrite <- Esum. apply whole_add. rewrite Esum. exact HN.
Qed.

Lemma without_id_filter (pid : string) (f : Prospect -> bool)
    (ps : list Prospect) :
  filter f (without_id pid ps) = without_id pid (filter f ps).
Proof. rewrite <- !filter_without_id. apply filter_comm. Qed.

Lemma with_id_filter (pid : string) (f : Prospect -> bool)
    (ps : list Prospect) :
  filter f (with_id pid ps) = with_id pid (filter f ps).
Proof. unfold with_id. apply filter_comm. Qed.

Section DeletionFacts.

Import Dashboard.

Variable supabase : Req -> Completion Response.

Lemma handleDeleteProspect_success (pid : string) (s : State) :
  failure (supabase (delete_by_id pid)) = None ->
  handleDeleteProspect supabase pid s =
  (Normal tt,
   setProspects
     (fun prev => filter (fun p => negb (id p =? pid)%string) prev) s,
   [ Request (delete_by_id pid);
     SetState;
     ToastShown {| title := "Prospect deleted";
                   description := "Prospect has been removed successfully";
                   variant := None |} ]).
Proof.
  intros E. unfold handleDeleteProspect.
  run_eff. unfold failure in E.
  destruct (supabase _) as [resp|e']; [rewrite E | inversion E]; reflexivity.
Qed.

(** C6: a successful deletion of a record id [pid] of the list leaves the
    list with exactly the records of that id removed, the others
    unchanged and in order.  The aggregator over the new list counts none
    of them: the total and each per-stage count are the former ones less
    the part of the removed records, and the total is strictly smaller;
    the pipeline value and the closed value are the sums, in doubles,
    over the records that stay.  These are at most the former values
    where every present value is non-negative, and they are the former
    values less the part of the removed records, exactly, where the
    values are whole numbers. *)
Theorem delete_removes (pid : string) (s : State) :
  In pid (map id (prospects s)) ->
  failure (supabase (delete_by_id pid)) = None ->
  let old := prospects s in
  let new := prospects (final_state (handleDeleteProspect supabase pid) s) in
  let gone := with_id pid old in
  new = without_id pid old /\
  (forall q, In q new <-> In q old /\ id q <> pid) /\
  (totalProspects new + totalProspects gone = totalProspects old)%nat /\
  (totalProspects new < totalProspects old)%nat /\
  (newProspects new + newProspects gone = newProspects old)%nat /\
  (inTalksProspects new + inTalksProspects gone
     = inTalksProspects old)%nat /\
  (closedProspects new + closedProspects gone = closedProspects old)%nat /\
  totalValue new = totalValue (without_id pid old) /\
  closedValue new = closedValue (without_id pid old) /\
  (values_nonneg old ->
     (totalValue new <=? totalValue old)%float = true /\
     (closedValue new <=? closedValue old)%float = true) /\
  (whole_values old ->
     (totalValue new + totalValue gone)%float = totalValue old /\
     (closedValue new + closedValue gone)%float = closedValue old).
Proof.
  intros Hin E old new gone.
  assert (Hnew : new = without_id pid old).
  { subst new. unfold final_state.
    rewrite (handleDeleteProspect_success pid s E).
    cbn [fst snd setProspects prospects]. apply filter_without_id. }
  rewrite Hnew. subst gone.
  pose proof (length_split pid old) as Hlen.
  pose proof (with_id_occurs pid old Hin) as Hocc.
  unfold totalProspects, newProspects, inTalksProspects, closedProspects.
  split; [reflexivity|].
  split; [intros q; apply in_without_id|].
  split; [exact Hlen|].
  split; [lia|].
  do 3 (split; [apply count_split|]).
  split; [reflexivity|]. split; [reflexivity|]. split.
  - intros Hc. unfold totalValue, closedValue. split.
    + rewrite <- filter_without_id. now apply nonneg_part.
    + rewrite without_id_filter, <- filter_without_id.
      apply nonneg_part. now apply values_nonneg_part.
  - intros Hw. unfold totalValue, closedValue. split.
    + now apply whole_split.
    + rewrite without_id_filter, with_id_filter.
      apply whole_split. now apply whole_values_part.
Qed.

End DeletionFacts.

Section BoardWitnesses.

Import Dashboard.

Lemma drop_outside_is_noop_witness :
  trace (handleDragEnd accepting (drag "p1" new None)) board = [] /\
  final_state (handleDragEnd accepting (drag "p1" new None)) board = board.
Proof.
  apply (drop_outside_is_noop accepting (drag "p1" new None) board).
  reflexivity.
Defined.

Lemma stage_change_frame_witness :
  requests
    (trace (handleDragEnd accepting
              (drag "p1" new (Some (mkLocation closed 0)))) board) =
    [update_stage closed "p1"] /\
  exists p' : Prospect,
    nth_error
      (prospects
         (final_state
            (handleDragEnd accepting
               (drag "p1" new (Some (mkLocation closed 0)))) board)) 0
      = Some p' /\
    same_but_stage ada p' /\ stage p' = closed.
Proof.
  destruct (stage_change_frame accepting
              (drag "p1" new (Some (mkLocation closed 0)))
              (mkLocation closed 0) board eq_refl) as [_ H].
  destruct (H ltac:(discriminate) eq_refl) as [Hreq [_ Hall]].
  split; [exact Hreq|].
  destruct (Hall 0%nat ada eq_refl) as [p' [Hn [Hsame [Hst _]]]].
  exists p'. split; [exact Hn|]. split; [exact Hsame|].
  apply Hst. reflexivity.
Defined.

Lemma stage_change_failure_witness :
  (final_state
     (handleDragEnd (rejecting "row is locked")
        (drag "p1" new (Some (mkLocation closed 0)))) board = board /\
   ~ In SetState
       (trace
          (handleDragEnd (rejecting "row is locked")
             (drag "p1" new (Some (mkLocation closed 0)))) board)) /\
  (final_state
     (handleDragEnd (unreachable "Failed to fetch")
        (drag "p1" new (Some (mkLocation closed 0)))) board = board /\
   ~ In SetState
       (trace
          (handleDragEnd (unreachable "Failed to fetch")
             (drag "p1" new (Some (mkLocation closed 0)))) board)).
Proof.
  split.
  - destruct (stage_change_failure (rejecting "row is locked")
                (drag "p1" new (Some (mkLocation closed 0)))
                (mkLocation closed 0) board (mkError "row is locked")
                eq_refl ltac:(discriminate) eq_refl)
      as [Hs [_ [Hw _]]].
    split; [exact Hs | exact Hw].
  - destruct (stage_change_failure (unreachable "Failed to fetch")
                (drag "p1" new (Some (mkLocation closed 0)))
                (mkLocation closed 0) board (mkError "Failed to fetch")
                eq_refl ltac:(discriminate) eq_refl)
      as [Hs [_ [Hw _]]].
    split; [exact Hs | exact Hw].
Defined.

Lemma delete_removes_witness :
  prospects (final_state (handleDeleteProspect accepting "p2") board) =
  without_id "p2" scenario.
Proof.
  apply (delete_removes accepting "p2" board);
    [right; left; reflexivity | reflexivity].
Defined.

End BoardWitnesses.

Lemma scenario_whole : whole_values scenario.
Proof.
  split.
  - intros p v [<-|[<-|[<-|[]]]] E; injection E as <-.
    + exists 1000%nat. split; reflexivity.
    + exists 500%nat. split; reflexivity.
    + exists 2000%nat. split; reflexivity.
  - vm_compute. reflexivity.
Qed.




(** The same three records in another order have another pipeline
    value: 2.5. *)
#[warnings="-inexact-float"]
Remark totalValue_order :
  totalValue cents_last = 2.4999999999999996%float /\
  totalValue cents_first = 2.5%float /\
  Permutation cents_last cents_first.
Proof.
  split; [reflexivity|]. split; [reflexivity|].
  exact (Permutation_cons_append _ _).
Qed.

(** ** C4: the payload of the create form *)

Lemma blank_falsy (x : option string) : blank x -> truthy x = false.
Proof. intros [-> | ->]; reflexivity. Qed.

Lemma or_null_blank (x : option string) : blank x -> or_null x = None.
Proof. intros H. unfold or_null. now rewrite (blank_falsy x H). Qed.

Section CreateFacts.

Import AddProspectDialog.

Variable supabase : Req -> Completion Response.
Variable parseFloat : string -> float.

(** Whatever the backend answers, the handler of a signed-in user sends
    one insert of the one row [prospectData]. *)
Lemma handleSubmit_requests (user : User) (formData : FormData)
    (s : State) :
  requests (trace (handleSubmit supabase parseFloat (Some user) formData) s)
  = [insert [prospectData parseFloat user formData]].
Proof.
  unfold trace, handleSubmit.
  run_eff.
  destruct (supabase (insert [prospectData parseFloat user formData]))
    as [resp|e]; [destruct (error resp)|]; reflexivity.
Qed.

(** C4: a submission with the optional fields blank and the stage as the
    form first shows it sends one insert of one row whose stage is "new"
    and whose value, phone, company and notes are absent; the name and
    the email are the texts of their fields. *)
Theorem required_fields_payload (user : User) (formData : FormData)
    (s : State) :
  blank (get formData "phone") ->
  blank (get formData "company") ->
  blank (get formData "notes") ->
  blank (get formData "value") ->
  get formData "stage" = Some "new" \/ blank (get formData "stage") ->
  exists data : ProspectData,
    requests
      (trace (handleSubmit supabase parseFloat (Some user) formData) s)
    = [insert [data]] /\
    stage data = Some "new" /\
    value data = None /\
    phone data = None /\ company data = None /\ notes data = None /\
    full_name data = get formData "fullName" /\
    email data = get formData "email" /\
    user_id data = id user.
Proof.
  intros Hphone Hcompany Hnotes Hvalue Hstage.
  exists (prospectData parseFloat user formData).
  split; [apply handleSubmit_requests|].
  unfold prospectData.
  cbn [stage value phone company notes full_name email user_id].
  rewrite (or_null_blank _ Hphone), (or_null_blank _ Hcompany),
    (or_null_blank _ Hnotes), (blank_falsy _ Hvalue).
  split.
  - unfold or_default. destruct Hstage as [E | B].
    + rewrite E. reflexivity.
    + rewrite (blank_falsy _ B). reflexivity.
  - repeat split.
Qed.

End CreateFacts.

Lemma required_fields_payload_witness :
  exists data : AddProspectDialog.ProspectData,
    requests
      (trace
         (AddProspectDialog.handleSubmit accepting (fun _ => 0%float)
            (Some (AddProspectDialog.mkUser "u1")) required_only)
         (AddProspectDialog.mkState false))
    = [AddProspectDialog.insert [data]] /\
    AddProspectDialog.stage data = Some "new" /\
    AddProspectDialog.value data = None /\
    AddProspectDialog.phone data = None /\
    AddProspectDialog.company data = None /\
    AddProspectDialog.notes data = None /\
    AddProspectDialog.full_name data = Some "Ada Lovelace" /\
    AddProspectDialog.email data = Some "ada@example.com" /\
    AddProspectDialog.user_id data = "u1".
Proof.
  apply (required_fields_payload accepting (fun _ => 0%float)
           (AddProspectDialog.mkUser "u1") required_only
           (AddProspectDialog.mkState false));
    try (right; reflexivity).
  left; reflexivity.
Defined.

(** ** C7: a rejected sign-up *)

Lemma prefix_app (a s : string) :
  prefix a s = true <-> exists post : string, s = a ++ post.
Proof.
  revert s. induction a as [|c a IH]; intros s.
  - split; [intros _; now exists s | now destruct s].
  - destruct s as [|d s]; cbn.
    + split; [discriminate | intros [post H]; discriminate H].
    + destruct (ascii_dec c d) as [->|N].
      * rewrite IH. split; intros [post H]; exists post.
        -- now rewrite H.
        -- now injection H.
      * split; [discriminate|]. intros [post H]. injection H as E _.
        congruence.
Qed.

(** [includes] decides [contains]. *)
Lemma includes_contains (s sub : string) :
  includes s sub = true <-> contains s sub.
Proof.
  unfold contains. induction s as [|c s IH]; cbn [includes].
  - rewrite orb_false_r, prefix_app. split.
    + intros [post H]. now exists "", post.
    + intros [pre [post H]]. destruct pre; [now exists post | discriminate H].
  - rewrite orb_true_iff, prefix_app, IH. split.
    + intros [[post H] | [pre [post H]]].
      * now exists "", post.
      * exists (String c pre), post. cbn. now rewrite H.
    + intros [pre [post H]]. destruct pre as [|d pre].
      * left. now exists post.
      * right. injection H as _ H. now exists pre, post.
Qed.

Section SignUpFacts.

Import Auth.

Variable useAuth : Req -> Completion Response.

(** C7: when the identity collaborator rejects a sign-up, the one
    notification shown is "Account exists" if the error message contains
    "already registered", and otherwise "Sign up failed" with the
    collaborator's message as its text. *)
Theorem sign_up_rejection (formData : FormData) (s : State) (e : Error) :
  useAuth (signUp (get formData "email") (get formData "password")
             (get formData "fullName")) = Normal {| error := Some e |} ->
  let shown := toasts (trace (handleSignUp useAuth formData) s) in
  (contains (message e) "already registered" ->
     shown = [ {| title := "Account exists";
                  description :=
                    "This email is already registered. Please sign in instead.";
                  variant := Some "destructive" |} ]) /\
  (~ contains (message e) "already registered" ->
     shown = [ {| title := "Sign up failed";
                  description := message e;
                  variant := Some "destructive" |} ]).
Proof.
  intros E shown. subst shown.
  unfold trace, handleSignUp. run_eff. rewrite E. cbn [error].
  destruct (includes (message e) "already registered") eqn:I.
  - split; [reflexivity|].
    intros N. exfalso. apply N. now apply includes_contains.
  - split; [|reflexivity].
    intros C. apply includes_contains in C. congruence.
Qed.

End SignUpFacts.

Lemma sign_up_rejection_witness :
  toasts
    (trace (Auth.handleSignUp (rejecting "User already registered")
              required_only) (Auth.mkState false)) =
  [ {| title := "Account exists";
       description :=
         "This email is already registered. Please sign in instead.";
       variant := Some "destructive" |} ] /\
  toasts
    (trace (Auth.handleSignUp (rejecting "Password too short")
              required_only) (Auth.mkState false)) =
  [ {| title := "Sign up failed";
       description := "Password too short";
       variant := Some "destructive" |} ].
Proof.
  split.
  - apply (sign_up_rejection (rejecting "User already registered")
             required_only (Auth.mkState false)
             (mkError "User already registered") eq_refl).
    now exists "User ", "".
  - apply (sign_up_rejection (rejecting "Password too short")
             required_only (Auth.mkState false)
             (mkError "Password too short") eq_refl).
    intros C. apply includes_contains in C. discriminate C.
Defined.

(** ** C10: a record whose value is 0 *)

(** The number 0 is falsy. *)
Lemma zero_falsy (v : float) :
  (v =? 0)%float = true -> falsy_number v = true.
Proof.
  intros H. unfold falsy_number.
  replace (PrimFloat.is_zero v) with true by (symmetry; exact H).
  reflexivity.
Qed.

Section CardFacts.

Import Dashboard.

Variable format_USD : float -> string.

Lemma absent_value_card (p : Prospect) :
  value p = None ->
  formatCurrency format_USD (value p) = "" /\
  render (value_slot format_USD p) = [].
Proof.
  intros E. unfold value_slot. rewrite E. split; reflexivity.
Qed.

(** C10, what the card does for a record whose value is 0: the currency
    formatter returns the empty string, as it does for an absent amount,
    and no badge is rendered; but the place of the badge holds the number
    itself, shown as text, where an absent value leaves it empty. *)
Theorem zero_value_card (p : Prospect) (v : float) :
  value p = Some v -> (v =? 0)%float = true ->
  formatCurrency format_USD (value p) = "" /\
  formatCurrency format_USD None = "" /\
  existsb is_Badge (render (value_slot format_USD p)) = false /\
  render (value_slot format_USD p) = [text_of_number v] /\
  render (value_slot format_USD p) <> [].
Proof.
  intros E Hv. apply zero_falsy in Hv.
  unfold value_slot. rewrite E. cbn [formatCurrency]. rewrite Hv.
  cbn [render existsb is_Badge orb].
  repeat split. discriminate.
Qed.

End CardFacts.

Lemma zero_value_card_witness :
  Dashboard.render (Dashboard.value_slot (fun _ => "$") dora)
    = [Dashboard.text_of_number 0] /\
  Dashboard.render (Dashboard.value_slot (fun _ => "$") dora_no_value) = [].
Proof.
  split.
  - apply (zero_value_card (fun _ => "$") dora 0 eq_refl). reflexivity.
  - reflexivity.
Defined.

(** * Further properties of the components *)

(** ** The counts of the aggregator *)

Lemma stage_lengths (ps : list Prospect) :
  (List.length (filter (in_stage new) ps) +
   List.length (filter (in_stage in_talks) ps) +
   List.length (filter (in_stage closed) ps) = List.length ps)%nat.
Proof.
  induction ps as [|p ps IH]; [reflexivity|].
  assert (H : forall s, in_stage s p = stage_eqb (stage p) s) by reflexivity.
  cbn [filter]. rewrite !H.
  destruct (stage p); cbn [stage_eqb List.length]; lia.
Qed.

(** X1: the three per-stage counts of the aggregator add up to the total
    count: every record is counted in exactly one stage. *)
Theorem stage_counts_total (ps : list Prospect) :
  (newProspects ps + inTalksProspects ps + closedProspects ps
   = totalProspects ps)%nat.
Proof.
  unfold newProspects, inTalksProspects, closedProspects, totalProspects.
  induction ps as [|p ps IH]; [reflexivity|].
  assert (H : forall s, in_stage s p = stage_eqb (stage p) s) by reflexivity.
  cbn [filter]. rewrite !H.
  destruct (stage p); cbn [stage_eqb List.length]; lia.
Qed.

Lemma filter_length_perm (f : Prospect -> bool) (ps ps' : list Prospect) :
  Permutation ps ps' ->
  List.length (filter f ps) = List.length (filter f ps').
Proof.
  induction 1 as [|p l l' _ IH|p q l|l l' l'' _ IH1 _ IH2]; cbn.
  - reflexivity.
  - destruct (f p); cbn; now rewrite IH.
  - destruct (f p), (f q); reflexivity.
  - now rewrite IH1.
Qed.

Lemma sum_over_perm (keep : Prospect -> bool) (f : Prospect -> Q)
    (ps ps' : list Prospect) :
  Permutation ps ps' -> sum_over keep f ps == sum_over keep f ps'.
Proof.
  induction 1 as [|p l l' _ IH|p q l|l l' l'' _ IH1 _ IH2]; cbn.
  - reflexivity.
  - now rewrite IH.
  - destruct (keep p), (keep q); lra.
  - now rewrite IH1.
Qed.

Lemma whole_values_perm (ps ps' : list Prospect) :
  Permutation ps ps' -> whole_values ps -> whole_values ps'.
Proof.
  intros H [Hw Hlt]. split.
  - intros p v Hp. apply Hw.
    apply (Permutation_in p (Permutation_sym H) Hp).
  - now rewrite <- (sum_over_perm (fun _ => true) value_or_absent ps ps' H).
Qed.

(** The reduction of whole numbers over a part of the list does not
    depend on the order of the list. *)
Lemma whole_part_perm (f : Prospect -> bool) (ps ps' : list Prospect) :
  Permutation ps ps' -> whole_values ps ->
  fold_left add_value (filter f ps') 0%float
  = fold_left add_value (filter f ps) 0%float.
Proof.
  intros H Hw.
  destruct (whole_total f ps Hw) as [N [_ [E V]]].
  destruct (whole_total f ps' (whole_values_perm ps ps' H Hw))
    as [N' [_ [E' V']]].
  rewrite E, E'. f_equal. apply of_nat_inj.
  rewrite V, V'. symmetry. now apply sum_over_perm.
Qed.

(** X2: the counts and the conversion rate do not depend on the order of
    the list: two lists with the same records in another order have the
    same total and per-stage counts and the same conversion rate.  The
    pipeline value and the closed value, sums of doubles in the order of
    the list, are the same for the two lists when the values are whole
    numbers. *)
Theorem metrics_of_permutation (NumberToString : Q -> string)
    (ps ps' : list Prospect) :
  Permutation ps ps' ->
  totalProspects ps' = totalProspects ps /\
  newProspects ps' = newProspects ps /\
  inTalksProspects ps' = inTalksProspects ps /\
  closedProspects ps' = closedProspects ps /\
  conversionRate NumberToString ps' = conversionRate NumberToString ps /\
  (whole_values ps ->
     totalValue ps' = totalValue ps /\ closedValue ps' = closedValue ps).
Proof.
  intros H.
  assert (Ht : totalProspects ps' = totalProspects ps).
  { symmetry. apply Permutation_length. exact H. }
  assert (Hc : closedProspects ps' = closedProspects ps).
  { symmetry. apply filter_length_perm. exact H. }
  split; [exact Ht|].
  split; [symmetry; apply filter_length_perm; exact H|].
  split; [symmetry; apply filter_length_perm; exact H|].
  split; [exact Hc|].
  split; [unfold conversionRate; now rewrite Ht, Hc|].
  intros Hw. unfold totalValue, closedValue. split.
  - rewrite <- (filter_all (fun _ => true) ps (fun _ _ => eq_refl)).
    rewrite <- (filter_all (fun _ => true) ps' (fun _ _ => eq_refl)).
    now apply whole_part_perm.
  - now apply whole_part_perm.
Qed.

Lemma metrics_of_permutation_witness :
  totalProspects [bob; ada; cyd] = totalProspects scenario /\
  newProspects [bob; ada; cyd] = newProspects scenario /\
  inTalksProspects [bob; ada; cyd] = inTalksProspects scenario /\
  closedProspects [bob; ada; cyd] = closedProspects scenario /\
  conversionRate (fun _ => "") [bob; ada; cyd]
  = conversionRate (fun _ => "") scenario /\
  totalValue [bob; ada; cyd] = totalValue scenario /\
  closedValue [bob; ada; cyd] = closedValue scenario.
Proof.
  destruct (metrics_of_permutation (fun _ => "") scenario [bob; ada; cyd]
              (perm_swap bob ada [cyd]))
    as [H1 [H2 [H3 [H4 [H5 H6]]]]].
  destruct (H6 scenario_whole) as [H7 H8].
  repeat split; assumption.
Defined.

(** ** The percentage of a stage *)

Section BreakdownFacts.

Variable NumberToString : Q -> string.

(** The text of the binary64 percentage of [c] in [t]: the tenths of the
    exact percentage, or one less where it lies half way. *)
Lemma percentage_text (c t : nat) :
  (c <= t)%nat -> (0 < t)%nat -> (Z.of_nat t < 2 ^ 32)%Z ->
  exists n64 : Z,
    toFixed NumberToString (float_of_nat c / float_of_nat t * 100)%float 1
    = one_decimal n64 /\
    (~ half_way c t ->
       n64 = round_tenths (100 * (of_nat c / of_nat t))) /\
    (half_way c t ->
       n64 = round_tenths (100 * (of_nat c / of_nat t)) \/
       n64 = (round_tenths (100 * (of_nat c / of_nat t)) - 1)%Z).
Proof.
  intros Hle Hpos H32.
  set (n := round_tenths (100 * (of_nat c / of_nat t))).
  assert (Ht53 : (Z.of_nat t < 2 ^ 53)%Z).
  { apply Z.lt_trans with (2 ^ 32)%Z; [exact H32 | reflexivity]. }
  destruct (Nat.eq_dec c 0) as [Ec|Ec].
  - exists 0%Z. rewrite Ec, rate_of_none by lia.
    assert (En : n = 0%Z).
    { subst n. rewrite Ec. unfold round_tenths. apply Qfloor_between.
      - change (of_nat 0) with 0. rewrite (Qmult_comm 100).
        unfold Qdiv. rewrite !Qmult_0_l. discriminate.
      - change (of_nat 0) with 0. unfold Qdiv. rewrite (Qmult_comm 100).
        rewrite !Qmult_0_l. reflexivity. }
    rewrite En. split; [reflexivity|]. split; [reflexivity | left; reflexivity].
  - destruct (percentage_binary64 c t ltac:(lia) Ht53)
      as [m [e [Eprim [Hlo Hhi]]]].
    destruct (percentage_range c t Hle Hpos) as [_ H100].
    assert (Hq0 : 0 <= SFvalue m e).
    { unfold SFvalue. apply Qmult_le_0_compat.
      - change 0 with (inject_Z 0). rewrite <- Zle_Qle. lia.
      - pose proof (pow2_pos e). lra. }
    assert (Hq21 : SFvalue m e < inject_Z (10 ^ 21)).
    { change (inject_Z (10 ^ 21)) with (1000000000000000000000 # 1).
      unfold unit_roundoff in Hlo. lra. }
    exists (round_tenths (SFvalue m e)). split.
    + unfold toFixed. rewrite Eprim. apply toFixed_one; assumption.
    + apply tenths_close; [lia | lia | exact Hlo | exact Hhi].
Qed.

Lemma half_way_dec (c t : nat) : {half_way c t} + {~ half_way c t}.
Proof.
  unfold half_way.
  destruct (Z_lt_dec 0 (Z.of_nat t)) as [Ht|Ht];
    [|right; intros [H _]; contradiction].
  destruct (Z.eq_dec
              ((2000 * Z.of_nat c + Z.of_nat t) mod (2 * Z.of_nat t)) 0)
    as [E|E].
  - left. split; assumption.
  - right. intros [_ H]. contradiction.
Qed.

(** The tenths of a percentage lie between 0 and 1000, and a percentage
    half way between two tenths is at least half a tenth. *)
Lemma tenths_range (c t : nat) :
  (c <= t)%nat -> (0 < t)%nat ->
  (0 <= round_tenths (100 * (of_nat c / of_nat t)) <= 1000)%Z /\
  (half_way c t -> (1 <= round_tenths (100 * (of_nat c / of_nat t)))%Z).
Proof.
  intros Hle Hpos. rewrite round_tenths_quotient by lia.
  set (N := (2000 * Z.of_nat c + Z.of_nat t)%Z).
  set (D := (2 * Z.of_nat t)%Z).
  assert (HD : (0 < D)%Z) by (subst D; lia).
  pose proof (Z.div_mod N D ltac:(lia)) as E.
  pose proof (Z.mod_pos_bound N D HD) as Hm.
  split.
  - split; [apply Z.div_pos; subst N; lia|].
    apply Z.lt_succ_r. apply Z.div_lt_upper_bound; subst N D; lia.
  - intros [_ Hhalf]. fold N D in Hhalf. subst N D. nia.
Qed.

(** X3: each row of the stage breakdown of a non-empty list (an array, of
    fewer than 2^32 records) shows a percentage between 0.0 and 100.0
    with one decimal place: the share of the stage in the list rounded to
    a tenth, or one tenth less where the share lies half way between two
    tenths and the binary64 product falls below the half. *)
Theorem stage_percentage (ps : list Prospect) (stage : Stage) :
  (0 < totalProspects ps)%nat ->
  (Z.of_nat (totalProspects ps) < 2 ^ 32)%Z ->
  exists n64 : Z,
    MetricsDialog.percentage NumberToString ps stage = one_decimal n64 /\
    (0 <= n64 <= 1000)%Z /\
    (~ half_way (MetricsDialog.count ps stage) (totalProspects ps) ->
       n64 = round_tenths
               (100 * (of_nat (MetricsDialog.count ps stage)
                       / of_nat (totalProspects ps)))) /\
    (half_way (MetricsDialog.count ps stage) (totalProspects ps) ->
       n64 = round_tenths
               (100 * (of_nat (MetricsDialog.count ps stage)
                       / of_nat (totalProspects ps))) \/
       n64 = (round_tenths
                (100 * (of_nat (MetricsDialog.count ps stage)
                        / of_nat (totalProspects ps))) - 1)%Z).
Proof.
  intros Hpos H32.
  assert (Hle : (MetricsDialog.count ps stage <= totalProspects ps)%nat)
    by apply filter_length_le.
  destruct (percentage_text _ _ Hle Hpos H32) as [n64 [E [Hno Hhalf]]].
  destruct (tenths_range _ _ Hle Hpos) as [Hr H1].
  exists n64. split.
  - unfold MetricsDialog.percentage.
    destruct (Nat.ltb_spec 0 (totalProspects ps)); [exact E | lia].
  - split; [|split; assumption].
    destruct (half_way_dec (MetricsDialog.count ps stage) (totalProspects ps))
      as [Hh|Hn].
    + specialize (H1 Hh). destruct (Hhalf Hh) as [-> | ->]; lia.
    + rewrite (Hno Hn). exact Hr.
Qed.

(** The closed row of the stage breakdown shows the text of the
    conversion rate card, and the counts of the three rows are the
    counts of the aggregator. *)
Remark breakdown_agrees (ps : list Prospect) :
  MetricsDialog.breakdown NumberToString ps =
  [ ("New Prospects", MetricsDialog.percentage NumberToString ps new,
     newProspects ps);
    ("In Talks", MetricsDialog.percentage NumberToString ps in_talks,
     inTalksProspects ps);
    ("Closed Deals", conversionRate NumberToString ps,
     closedProspects ps) ].
Proof. reflexivity. Qed.

(** X4: when every record of a non-empty list is in one stage, the
    breakdown shows "100.0" for that stage and "0.0" for the two others;
    the conversion rate is "100.0" if the stage is closed and "0.0" if
    it is not. *)
Theorem single_stage_percentages (ps : list Prospect) (S : Stage) :
  (0 < totalProspects ps)%nat ->
  (Z.of_nat (totalProspects ps) < 2 ^ 32)%Z ->
  (forall p, In p ps -> stage p = S) ->
  MetricsDialog.percentage NumberToString ps S = "100.0" /\
  (forall S', S' <> S ->
     MetricsDialog.percentage NumberToString ps S' = "0.0") /\
  (S = closed -> conversionRate NumberToString ps = "100.0") /\
  (S <> closed -> conversionRate NumberToString ps = "0.0").
Proof.
  intros Hpos H32 Hall.
  assert (Hin : MetricsDialog.count ps S = totalProspects ps).
  { unfold MetricsDialog.count, totalProspects. rewrite filter_all;
      [reflexivity|].
    intros p Hp. unfold in_stage. rewrite (Hall p Hp).
    now destruct S. }
  assert (Hout : forall S', S' <> S -> MetricsDialog.count ps S' = 0%nat).
  { intros S' N. unfold MetricsDialog.count. rewrite filter_none;
      [reflexivity|].
    intros p Hp. unfold in_stage. rewrite (Hall p Hp).
    destruct (stage_eqb_spec S S'); [congruence | reflexivity]. }
  assert (Hfull : MetricsDialog.percentage NumberToString ps S = "100.0").
  { destruct (percentage_text (totalProspects ps) (totalProspects ps)
                (Nat.le_refl _) Hpos H32) as [n64 [E [Hno _]]].
    unfold MetricsDialog.percentage. rewrite Hin.
    destruct (Nat.ltb_spec 0 (totalProspects ps)); [|lia].
    rewrite E, Hno.
    - rewrite round_tenths_quotient by lia.
      replace ((2000 * Z.of_nat (totalProspects ps)
                + Z.of_nat (totalProspects ps))
               / (2 * Z.of_nat (totalProspects ps)))%Z with 1000%Z;
        [reflexivity|].
      apply Z.div_unique with (Z.of_nat (totalProspects ps)); lia.
    - intros [_ Hh].
      rewrite <- (Z.mod_unique _ _ 1000 (Z.of_nat (totalProspects ps)))
        in Hh; lia. }
  assert (Hzero : forall S', S' <> S ->
            MetricsDialog.percentage NumberToString ps S' = "0.0").
  { intros S' N. unfold MetricsDialog.percentage. rewrite (Hout S' N).
    destruct (Nat.ltb_spec 0 (totalProspects ps)); [|lia].
    rewrite rate_of_none; [reflexivity|].
    split; [lia|]. apply Z.lt_trans with (2 ^ 32)%Z; [exact H32|reflexivity]. }
  split; [exact Hfull|]. split; [exact Hzero|]. split.
  - intros ->. exact Hfull.
  - intros N. apply (Hzero closed). congruence.
Qed.

End BreakdownFacts.

Lemma stage_percentage_witness :
  exists n64 : Z,
    MetricsDialog.percentage (fun _ => "") scenario in_talks
    = one_decimal n64 /\
    (0 <= n64 <= 1000)%Z /\
    (~ half_way (MetricsDialog.count scenario in_talks)
         (totalProspects scenario) ->
       n64 = round_tenths
               (100 * (of_nat (MetricsDialog.count scenario in_talks)
                       / of_nat (totalProspects scenario)))) /\
    (half_way (MetricsDialog.count scenario in_talks)
       (totalProspects scenario) ->
       n64 = round_tenths
               (100 * (of_nat (MetricsDialog.count scenario in_talks)
                       / of_nat (totalProspects scenario))) \/
       n64 = (round_tenths
                (100 * (of_nat (MetricsDialog.count scenario in_talks)
                        / of_nat (totalProspects scenario))) - 1)%Z).
Proof.
  apply (stage_percentage (fun _ => "") scenario in_talks).
  - cbn. lia.
  - cbn. lia.
Defined.

Lemma single_stage_percentages_witness :
  MetricsDialog.percentage (fun _ => "") [cyd; cyd] closed = "100.0" /\
  (forall S', S' <> closed ->
     MetricsDialog.percentage (fun _ => "") [cyd; cyd] S' = "0.0") /\
  (closed = closed -> conversionRate (fun _ => "") [cyd; cyd] = "100.0") /\
  (closed <> closed -> conversionRate (fun _ => "") [cyd; cyd] = "0.0").
Proof.
  apply (single_stage_percentages (fun _ => "") [cyd; cyd] closed).
  - cbn. lia.
  - cbn. lia.
  - intros p [<-|[<-|[]]]; reflexivity.
Defined.

(** ** The pie chart *)

(** X5: the card "Pipeline Distribution" shows "No data to display"
    exactly when the list is empty; otherwise it shows the pie. *)
Theorem pie_card_no_data (ps : list Prospect) :
  MetricsDialog.pie_card ps = MetricsDialog.NoData <-> ps = [].
Proof.
  pose proof (stage_lengths ps) as Hsum.
  unfold MetricsDialog.pie_card, MetricsDialog.pieData.
  unfold newProspects, inTalksProspects, closedProspects.
  cbn [filter MetricsDialog.value]. split.
  - intros H.
    destruct (Nat.ltb_spec 0 (List.length (filter (in_stage new) ps)))
      as [Ha|Ha]; [discriminate H|].
    destruct (Nat.ltb_spec 0 (List.length (filter (in_stage in_talks) ps)))
      as [Hb|Hb]; [discriminate H|].
    destruct (Nat.ltb_spec 0 (List.length (filter (in_stage closed) ps)))
      as [Hc|Hc]; [discriminate H|].
    apply length_zero_iff_nil. lia.
  - intros ->. reflexivity.
Qed.

(** X6: the pie holds an entry for each stage that has a record and for
    no other, in the order new, in talks, closed; the value of each
    entry is positive and the values add up to the total count. *)
Theorem pie_entries (ps : list Prospect) :
  map MetricsDialog.name (MetricsDialog.pieData ps) =
    map MetricsDialog.stageLabels
      (filter (fun s => (0 <? MetricsDialog.count ps s)%nat)
         MetricsDialog.stages) /\
  (forall item, In item (MetricsDialog.pieData ps) ->
     (0 < MetricsDialog.value item)%nat) /\
  pie_total (MetricsDialog.pieData ps) = totalProspects ps.
Proof.
  pose proof (stage_lengths ps) as Hsum.
  split; [|split].
  - unfold MetricsDialog.pieData, MetricsDialog.stages, MetricsDialog.count.
    unfold newProspects, inTalksProspects, closedProspects.
    cbn [filter MetricsDialog.value].
    destruct (0 <? List.length (filter (in_stage new) ps))%nat,
      (0 <? List.length (filter (in_stage in_talks) ps))%nat,
      (0 <? List.length (filter (in_stage closed) ps))%nat; reflexivity.
  - intros item H. unfold MetricsDialog.pieData in H.
    apply filter_In in H. destruct H as [_ H].
    now apply Nat.ltb_lt in H.
  - unfold MetricsDialog.pieData, totalProspects.
    unfold newProspects, inTalksProspects, closedProspects.
    cbn [filter MetricsDialog.value].
    destruct (Nat.ltb_spec 0 (List.length (filter (in_stage new) ps))),
      (Nat.ltb_spec 0 (List.length (filter (in_stage in_talks) ps))),
      (Nat.ltb_spec 0 (List.length (filter (in_stage closed) ps)));
      cbn [pie_total fold_right MetricsDialog.value]; lia.
Qed.

(** ** The records of the last thirty days *)

Lemma filter_length_mono {A : Type} (f g : A -> bool) (l : list A) :
  (forall x, f x = true -> g x = true) ->
  (List.length (filter f l) <= List.length (filter g l))%nat.
Proof.
  intros H. induction l as [|a l IH]; cbn; [lia|].
  destruct (f a) eqn:E.
  - rewrite (H a E). cbn. lia.
  - destruct (g a); cbn; lia.
Qed.

(** X7: the count "added this month" never grows as the clock advances
    (read at two times of the clock of a date, from 1970 on), and it is
    at most the total count. *)
Theorem recent_never_grows (Date_parse : string -> option Z)
    (ps : list Prospect) (now now' : Z) :
  (0 <= now <= now')%Z -> (now' <= 8640000000000000)%Z ->
  (MetricsDialog.getRecentProspects ps Date_parse now'
   <= MetricsDialog.getRecentProspects ps Date_parse now)%nat /\
  (MetricsDialog.getRecentProspects ps Date_parse now
   <= totalProspects ps)%nat.
Proof.
  intros Hnow Hmax. split; [|apply filter_length_le].
  apply filter_length_mono. intros p.
  unfold MetricsDialog.thirtyDaysAgo, MetricsDialog.TimeClip.
  destruct (Z.leb_spec (Z.abs (now' - 30 * 24 * 60 * 60 * 1000))
              8640000000000000); [|lia].
  destruct (Z.leb_spec (Z.abs (now - 30 * 24 * 60 * 60 * 1000))
              8640000000000000); [|lia].
  unfold MetricsDialog.date_ge.
  destruct (Date_parse (created_at p)) as [d|]; [|discriminate].
  intros Hge. apply Z.leb_le in Hge. apply Z.leb_le. lia.
Qed.

(** A parser that knows the date of one record of the scenario. *)
Lemma recent_never_grows_witness :
  (MetricsDialog.getRecentProspects scenario
     (fun text => if (text =? "2025-08-05T08:03:50Z")%string
                  then Some 1754381030000%Z else None)
     1757000000000
   <= MetricsDialog.getRecentProspects scenario
        (fun text => if (text =? "2025-08-05T08:03:50Z")%string
                     then Some 1754381030000%Z else None)
        1756000000000)%nat /\
  (MetricsDialog.getRecentProspects scenario
     (fun text => if (text =? "2025-08-05T08:03:50Z")%string
                  then Some 1754381030000%Z else None)
     1756000000000
   <= totalProspects scenario)%nat.
Proof.
  apply (recent_never_grows
           (fun text => if (text =? "2025-08-05T08:03:50Z")%string
                        then Some 1754381030000%Z else None)
           scenario 1756000000000 1757000000000); lia.
Defined.

(** ** The columns of the board *)

Lemma in_column (ps : list Prospect) (p : Prospect) (s : Stage) :
  In p (Pipeline.stageProspects ps s) <-> In p ps /\ stage p = s.
Proof.
  unfold Pipeline.stageProspects. rewrite filter_In. unfold in_stage.
  destruct (stage_eqb_spec (stage p) s); intuition congruence.
Qed.

(** X8: the three columns of the board are a partition of the list: put
    one after the other they hold the records of the list, each as often
    as the list does, and a record is in a column exactly when it is in
    the list with the stage of the column; the three card counts add up
    to the length of the list. *)
Theorem columns_partition (ps : list Prospect) :
  Permutation
    (Pipeline.stageProspects ps new ++
     Pipeline.stageProspects ps in_talks ++
     Pipeline.stageProspects ps closed) ps /\
  (forall p s, In p (Pipeline.stageProspects ps s) <->
               In p ps /\ stage p = s) /\
  (List.length (Pipeline.stageProspects ps new) +
   List.length (Pipeline.stageProspects ps in_talks) +
   List.length (Pipeline.stageProspects ps closed) = List.length ps)%nat.
Proof.
  split; [|split; [apply in_column | apply stage_lengths]].
  unfold Pipeline.stageProspects.
  induction ps as [|p ps IH]; [constructor|].
  assert (H : forall s, in_stage s p = stage_eqb (stage p) s) by reflexivity.
  cbn [filter]. rewrite !H. destruct (stage p); cbn [stage_eqb].
  - cbn [app]. now constructor.
  - apply Permutation_sym, Permutation_cons_app, Permutation_sym.
    exact IH.
  - rewrite app_assoc.
    apply Permutation_sym, Permutation_cons_app, Permutation_sym.
    rewrite <- app_assoc. exact IH.
Qed.

(** ** A move seen from the columns and from the metrics *)

Lemma in_moved (r : string) (B : Stage) (ps : list Prospect)
    (p' : Prospect) :
  In p' (moved r B ps) <->
  exists p, In p ps /\
            p' = if (id p =? r)%string then with_stage B p else p.
Proof.
  unfold moved. rewrite in_map_iff.
  split; intros [p [H1 H2]]; exists p; split; auto.
Qed.

Lemma moved_count (r : string) (B S : Stage) (ps : list Prospect) :
  (List.length (filter (in_stage S) (moved r B ps)) =
   List.length (filter (in_stage S) (without_id r ps)) +
   (if stage_eqb B S then List.length (with_id r ps) else 0))%nat.
Proof.
  unfold moved, with_id.
  induction ps as [|q ps IH]; cbn [map filter without_id List.length].
  - now destruct (stage_eqb B S).
  - destruct (id q =? r)%string; cbn [filter List.length].
    + change (in_stage S (with_stage B q)) with (stage_eqb B S).
      destruct (stage_eqb B S); cbn [List.length]; lia.
    + destruct (in_stage S q); cbn [List.length]; lia.
Qed.

Lemma moved_sum (r : string) (B S : Stage) (ps : list Prospect) :
  sum_over (in_stage S) value_or_absent (moved r B ps) ==
  sum_over (in_stage S) value_or_absent (without_id r ps) +
  (if stage_eqb B S
   then sum_over (fun _ => true) value_or_absent (with_id r ps) else 0).
Proof.
  unfold moved, with_id.
  induction ps as [|q ps IH]; cbn [map filter without_id sum_over].
  - destruct (stage_eqb B S); lra.
  - destruct (id q =? r)%string; cbn [filter sum_over].
    + change (in_stage S (with_stage B q)) with (stage_eqb B S).
      change (value_or_absent (with_stage B q)) with (value_or_absent q).
      rewrite IH. destruct (stage_eqb B S); lra.
    + rewrite IH. lra.
Qed.

Lemma moved_total (r : string) (B : Stage) (ps : list Prospect) :
  sum_over (fun _ => true) value_or_absent (moved r B ps) ==
  sum_over (fun _ => true) value_or_absent ps.
Proof.
  unfold moved.
  induction ps as [|q ps IH]; cbn [map sum_over]; [reflexivity|].
  rewrite IH. destruct (id q =? r)%string; reflexivity.
Qed.

(** A move changes no value: the reduction over the whole list adds the
    same doubles in the same order. *)
Lemma moved_fold (r : string) (B : Stage) (ps : list Prospect)
    (a : float) :
  fold_left add_value (moved r B ps) a = fold_left add_value ps a.
Proof.
  unfold moved. revert a.
  induction ps as [|q ps IH]; intros a; cbn [map fold_left]; [reflexivity|].
  rewrite IH. destruct (id q =? r)%string; reflexivity.
Qed.

Lemma moved_whole (r : string) (B : Stage) (ps : list Prospect) :
  whole_values ps -> whole_values (moved r B ps).
Proof.
  intros [Hw Hlt]. split.
  - intros p' v Hp' E. apply in_moved in Hp'.
    destruct Hp' as [p [Hp ->]]. apply (Hw p v Hp).
    destruct (id p =? r)%string; exact E.
  - now rewrite moved_total.
Qed.

Lemma setProspects_same (f : list Prospect -> list Prospect)
    (s : Dashboard.State) :
  f (Dashboard.prospects s) = Dashboard.prospects s ->
  Dashboard.setProspects f s = s.
Proof.
  intros H. destruct s. unfold Dashboard.setProspects. cbn in *.
  now rewrite H.
Qed.

Section MoveFacts.

Import Dashboard.

Variable supabase : Req -> Completion Response.

(** X9: after a successful move of record [r] to column B, every record
    of id [r] is a card of column B; a column other than B holds its
    former cards other than [r], and no card besides; column B keeps
    its former cards. *)
Theorem move_between_columns (result : DropResult)
    (dest : DraggableLocation) (s : State) :
  destination result = Some dest ->
  droppableId (source result) <> droppableId dest ->
  failure (supabase (update_stage (droppableId dest) (draggableId result)))
    = None ->
  (forall p, In p (prospects (final_state (handleDragEnd supabase result) s)) ->
     id p = draggableId result ->
     In p (Pipeline.stageProspects
             (prospects (final_state (handleDragEnd supabase result) s))
             (droppableId dest))) /\
  (forall S p, S <> droppableId dest ->
     In p (Pipeline.stageProspects
             (prospects (final_state (handleDragEnd supabase result) s)) S) ->
     id p <> draggableId result /\
     In p (Pipeline.stageProspects (prospects s) S)) /\
  (forall S p, In p (Pipeline.stageProspects (prospects s) S) ->
     id p <> draggableId result ->
     In p (Pipeline.stageProspects
             (prospects (final_state (handleDragEnd supabase result) s)) S)).
Proof.
  intros H N E. unfold final_state.
  rewrite (handleDragEnd_success supabase result dest s H N E).
  cbn [fst snd setProspects prospects].
  set (r := draggableId result). set (B := droppableId dest).
  split; [|split].
  - intros p' Hin Hid. apply in_column. split; [exact Hin|].
    apply in_moved in Hin. destruct Hin as [p [_ ->]].
    destruct (String.eqb_spec (id p) r) as [_|Nid]; [reflexivity|].
    contradiction.
  - intros S p' NS Hin. apply in_column in Hin. destruct Hin as [Hin HS].
    apply in_moved in Hin. destruct Hin as [p [Hp ->]].
    destruct (String.eqb_spec (id p) r) as [_|Nid].
    + cbn in HS. congruence.
    + split; [exact Nid|]. apply in_column. now split.
  - intros S p Hin Nid. apply in_column in Hin. destruct Hin as [Hin HS].
    apply in_column. split; [|exact HS].
    apply in_moved. exists p. split; [exact Hin|].
    destruct (String.eqb_spec (id p) r); [contradiction | reflexivity].
Qed.

(** X10: a successful move of record [r] to stage B changes neither the
    total count nor the pipeline value, the same sum of the same doubles;
    the count of a stage becomes the count of its records other than
    [r], plus the records of id [r] if the stage is B.  Where the values
    are whole numbers, the closed value becomes the sum over the closed
    records other than [r], plus the value of [r] if B is the closed
    stage. *)
Theorem move_metrics (result : DropResult)
    (dest : DraggableLocation) (s : State) :
  destination result = Some dest ->
  droppableId (source result) <> droppableId dest ->
  failure (supabase (update_stage (droppableId dest) (draggableId result)))
    = None ->
  totalProspects (prospects (final_state (handleDragEnd supabase result) s))
  = totalProspects (prospects s) /\
  totalValue (prospects (final_state (handleDragEnd supabase result) s))
  = totalValue (prospects s) /\
  (forall S,
     MetricsDialog.count
       (prospects (final_state (handleDragEnd supabase result) s)) S
     = (MetricsDialog.count (without_id (draggableId result) (prospects s)) S
        + (if stage_eqb (droppableId dest) S
           then List.length (with_id (draggableId result) (prospects s))
           else 0))%nat) /\
  (whole_values (prospects s) ->
   whole
     (closedValue (prospects (final_state (handleDragEnd supabase result) s)))
   /\
   real
     (closedValue (prospects (final_state (handleDragEnd supabase result) s)))
   == sum_over closed_stage value_or_absent
        (without_id (draggableId result) (prospects s))
      + (if stage_eqb (droppableId dest) closed
         then sum_over (fun _ => true) value_or_absent
                (with_id (draggableId result) (prospects s))
         else 0)).
Proof.
  intros H N E. unfold final_state.
  rewrite (handleDragEnd_success supabase result dest s H N E).
  cbn [fst snd setProspects prospects].
  split; [|split; [|split]].
  - unfold totalProspects, moved. apply length_map.
  - unfold totalValue. apply moved_fold.
  - intros S. unfold MetricsDialog.count. apply moved_count.
  - intros Hw.
    destruct (whole_total (in_stage closed) _
                (moved_whole (draggableId result) (droppableId dest) _ Hw))
      as [n [Hn [En Vn]]].
    unfold closedValue. rewrite En. split; [exists n; auto|].
    rewrite (real_float_of_nat n Hn), Vn, moved_sum.
    rewrite (sum_over_ext (in_stage closed) closed_stage value_or_absent
               _ in_stage_closed).
    reflexivity.
Qed.

(** X11: a move of record [r] from column A to column B followed by the
    move back, both accepted by the backend, leaves the board as it was,
    provided the records of id [r] were in stage A. *)
Theorem move_and_back (r : string) (A B : Stage) (i j : nat) (s : State) :
  A <> B ->
  failure (supabase (update_stage B r)) = None ->
  failure (supabase (update_stage A r)) = None ->
  (forall p, In p (prospects s) -> id p = r -> stage p = A) ->
  final_state
    (handleDragEnd supabase
       (mkDropResult r (mkLocation B j) (Some (mkLocation A i))))
    (final_state
       (handleDragEnd supabase
          (mkDropResult r (mkLocation A i) (Some (mkLocation B j)))) s)
  = s.
Proof.
  intros N EB EA Hst. unfold final_state.
  rewrite (handleDragEnd_success supabase
             (mkDropResult r (mkLocation A i) (Some (mkLocation B j)))
             (mkLocation B j) s eq_refl N EB).
  cbn [fst snd draggableId droppableId].
  rewrite (handleDragEnd_success supabase
             (mkDropResult r (mkLocation B j) (Some (mkLocation A i)))
             (mkLocation A i) _ eq_refl (not_eq_sym N) EA).
  cbn [fst snd draggableId droppableId].
  destruct s as [ps l a e m]. unfold setProspects. cbn [prospects loading
    showAddDialog editingProspect showMetrics] in *.
  f_equal. unfold moved. rewrite map_map.
  rewrite <- (map_id ps) at 2. apply map_ext_in.
  intros p Hp. specialize (Hst p Hp).
  destruct (String.eqb_spec (id p) r) as [Eid|Nid].
  - cbn [with_stage id]. rewrite Eid, String.eqb_refl.
    specialize (Hst Eid). destruct p. cbn in *. now subst.
  - destruct (String.eqb_spec (id p) r); [contradiction | reflexivity].
Qed.

(** ** Deletions that fail or find nothing *)

Lemma handleDeleteProspect_failure (pid : string) (s : State) (e : Error) :
  failure (supabase (delete_by_id pid)) = Some e ->
  handleDeleteProspect supabase pid s =
  (Normal tt, s,
   [ Request (delete_by_id pid);
     ConsoleError "Error deleting prospect:" e;
     ToastShown {| title := "Error";
                   description := "Failed to delete prospect";
                   variant := Some "destructive" |} ]).
Proof.
  intros E. unfold handleDeleteProspect.
  run_eff. unfold failure in E.
  destruct (supabase _) as [resp|e']; [rewrite E | inversion E]; reflexivity.
Qed.

(** X12: when the delete request fails, answered with an error or not
    answered at all, the handler logs the error and shows the
    notification "Failed to delete prospect"; the board, the prospect
    list included, is as before, and the one request sent is the
    delete. *)
Theorem delete_failure (pid : string) (s : State) (e : Error) :
  failure (supabase (delete_by_id pid)) = Some e ->
  final_state (handleDeleteProspect supabase pid) s = s /\
  toasts (trace (handleDeleteProspect supabase pid) s) =
    [ {| title := "Error";
         description := "Failed to delete prospect";
         variant := Some "destructive" |} ] /\
  In (ConsoleError "Error deleting prospect:" e)
     (trace (handleDeleteProspect supabase pid) s) /\
  requests (trace (handleDeleteProspect supabase pid) s)
  = [delete_by_id pid].
Proof.
  intros E. unfold trace, final_state.
  rewrite (handleDeleteProspect_failure pid s e E).
  cbn [fst snd toasts requests].
  split; [reflexivity|]. split; [reflexivity|]. split; [|reflexivity].
  right. left. reflexivity.
Qed.

(** X13: a deletion the backend accepts for an id that no record of the
    list has leaves the board as it was, and still shows the notification
    "Prospect deleted". *)
Theorem delete_absent (pid : string) (s : State) :
  ~ In pid (map id (prospects s)) ->
  failure (supabase (delete_by_id pid)) = None ->
  final_state (handleDeleteProspect supabase pid) s = s /\
  toasts (trace (handleDeleteProspect supabase pid) s) =
    [ {| title := "Prospect deleted";
         description := "Prospect has been removed successfully";
         variant := None |} ].
Proof.
  intros Hno E. unfold trace, final_state.
  rewrite (handleDeleteProspect_success supabase pid s E).
  cbn [fst snd toasts]. split; [|reflexivity].
  apply setProspects_same. apply filter_all.
  intros p Hp. destruct (String.eqb_spec (id p) pid) as [Eid|Nid];
    [|reflexivity].
  exfalso. apply Hno. rewrite <- Eid. now apply in_map.
Qed.

(** X14: whatever the backend does, the two handlers of the board end
    normally (an error is caught, never thrown on), send at most one
    request, show at most one notification, and change no cell of the
    state other than the prospect list. *)
Theorem board_handlers_contained (result : DropResult) (pid : string)
    (s : State) :
  (fst (fst (handleDragEnd supabase result s)) = Normal tt /\
   (List.length (requests (trace (handleDragEnd supabase result) s)) <= 1)%nat /\
   (List.length (toasts (trace (handleDragEnd supabase result) s)) <= 1)%nat /\
   setProspects (fun _ => prospects s)
     (final_state (handleDragEnd supabase result) s) = s) /\
  (fst (fst (handleDeleteProspect supabase pid s)) = Normal tt /\
   List.length (requests (trace (handleDeleteProspect supabase pid) s))
   = 1%nat /\
   List.length (toasts (trace (handleDeleteProspect supabase pid) s))
   = 1%nat /\
   setProspects (fun _ => prospects s)
     (final_state (handleDeleteProspect supabase pid) s) = s).
Proof.
  assert (Hs : setProspects (fun _ => prospects s) s = s)
    by now apply setProspects_same.
  split.
  - unfold trace, final_state, handleDragEnd.
    destruct (destination result) as [dest|];
      [|cbn; repeat split; try lia; exact Hs].
    destruct (stage_eqb (droppableId (source result)) (droppableId dest));
      [cbn; repeat split; try lia; exact Hs|].
    run_eff.
    destruct (supabase _) as [resp|e]; [destruct (error resp)|];
      cbn; repeat split; try lia; destruct s; reflexivity.
  - unfold trace, final_state, handleDeleteProspect. run_eff.
    destruct (supabase _) as [resp|e]; [destruct (error resp)|];
      cbn; repeat split; destruct s; reflexivity.
Qed.

End MoveFacts.

Lemma move_between_columns_witness :
  (forall p,
     In p (Dashboard.prospects
             (final_state
                (Dashboard.handleDragEnd accepting
                   (drag "p1" new (Some (Dashboard.mkLocation closed 0))))
                board)) ->
     id p = "p1" ->
     In p (Pipeline.stageProspects
             (Dashboard.prospects
                (final_state
                   (Dashboard.handleDragEnd accepting
                      (drag "p1" new (Some (Dashboard.mkLocation closed 0))))
                   board))
             closed)) /\
  (forall S p, S <> closed ->
     In p (Pipeline.stageProspects
             (Dashboard.prospects
                (final_state
                   (Dashboard.handleDragEnd accepting
                      (drag "p1" new (Some (Dashboard.mkLocation closed 0))))
                   board)) S) ->
     id p <> "p1" /\
     In p (Pipeline.stageProspects (Dashboard.prospects board) S)) /\
  (forall S p,
     In p (Pipeline.stageProspects (Dashboard.prospects board) S) ->
     id p <> "p1" ->
     In p (Pipeline.stageProspects
             (Dashboard.prospects
                (final_state
                   (Dashboard.handleDragEnd accepting
                      (drag "p1" new (Some (Dashboard.mkLocation closed 0))))
                   board)) S)).
Proof.
  apply (move_between_columns accepting
           (drag "p1" new (Some (Dashboard.mkLocation closed 0)))
           (Dashboard.mkLocation closed 0) board).
  - reflexivity.
  - discriminate.
  - reflexivity.
Defined.

Lemma move_metrics_witness :
  totalProspects
    (Dashboard.prospects
       (final_state
          (Dashboard.handleDragEnd accepting
             (drag "p1" new (Some (Dashboard.mkLocation closed 0))))
          board))
  = 3%nat /\
  totalValue
    (Dashboard.prospects
       (final_state
          (Dashboard.handleDragEnd accepting
             (drag "p1" new (Some (Dashboard.mkLocation closed 0))))
          board))
  = totalValue scenario /\
  (forall S,
     MetricsDialog.count
       (Dashboard.prospects
          (final_state
             (Dashboard.handleDragEnd accepting
                (drag "p1" new (Some (Dashboard.mkLocation closed 0))))
             board)) S
     = (MetricsDialog.count (without_id "p1" scenario) S
        + (if stage_eqb closed S
           then List.length (with_id "p1" scenario)
           else 0))%nat) /\
  real
    (closedValue
       (Dashboard.prospects
          (final_state
             (Dashboard.handleDragEnd accepting
                (drag "p1" new (Some (Dashboard.mkLocation closed 0))))
             board)))
  == sum_over closed_stage value_or_absent (without_id "p1" scenario)
     + sum_over (fun _ => true) value_or_absent (with_id "p1" scenario).
Proof.
  destruct (move_metrics accepting
              (drag "p1" new (Some (Dashboard.mkLocation closed 0)))
              (Dashboard.mkLocation closed 0) board
              eq_refl ltac:(discriminate) eq_refl)
    as [H1 [H2 [H3 H4]]].
  destruct (H4 scenario_whole) as [_ H5].
  split; [exact H1|]. split; [exact H2|]. split; [exact H3 | exact H5].
Defined.

Lemma move_and_back_witness :
  final_state
    (Dashboard.handleDragEnd accepting
       (Dashboard.mkDropResult "p1" (Dashboard.mkLocation closed 0)
          (Some (Dashboard.mkLocation new 0))))
    (final_state
       (Dashboard.handleDragEnd accepting
          (Dashboard.mkDropResult "p1" (Dashboard.mkLocation new 0)
             (Some (Dashboard.mkLocation closed 0)))) board)
  = board.
Proof.
  apply (move_and_back accepting "p1" new closed 0 0 board).
  - discriminate.
  - reflexivity.
  - reflexivity.
  - intros p [<-|[<-|[<-|[]]]] E; [reflexivity | discriminate E
                                   | discriminate E].
Defined.

Lemma delete_failure_witness :
  final_state (Dashboard.handleDeleteProspect (unreachable "offline") "p2")
    board = board /\
  toasts
    (trace (Dashboard.handleDeleteProspect (unreachable "offline") "p2")
       board) =
    [ {| title := "Error";
         description := "Failed to delete prospect";
         variant := Some "destructive" |} ] /\
  In (ConsoleError "Error deleting prospect:" (mkError "offline"))
     (trace (Dashboard.handleDeleteProspect (unreachable "offline") "p2")
        board) /\
  requests
    (trace (Dashboard.handleDeleteProspect (unreachable "offline") "p2")
       board)
  = [Dashboard.delete_by_id "p2"].
Proof.
  apply (delete_failure (unreachable "offline") "p2" board
           (mkError "offline")).
  reflexivity.
Defined.

Lemma delete_absent_witness :
  final_state (Dashboard.handleDeleteProspect accepting "p9") board
  = board /\
  toasts (trace (Dashboard.handleDeleteProspect accepting "p9") board) =
    [ {| title := "Prospect deleted";
         description := "Prospect has been removed successfully";
         variant := None |} ].
Proof.
  apply (delete_absent accepting "p9" board).
  - intros [E|[E|[E|[]]]]; discriminate E.
  - reflexivity.
Defined.

(** ** Loading the list *)

Section FetchFacts.

Import Dashboard.

Variable supabase : Pipeline.Req -> Completion Pipeline.Rows.

(** X15: whatever the backend does, loading the list sends the one
    select, ends normally and leaves the [loading] flag off; the cells of
    the state other than the list and the flag are untouched. *)
Theorem fetch_settles (s : State) :
  fst (fst (Pipeline.fetchProspects supabase s)) = Normal tt /\
  requests (trace (Pipeline.fetchProspects supabase) s)
  = [Pipeline.select_all] /\
  loading (final_state (Pipeline.fetchProspects supabase) s) = false /\
  showAddDialog (final_state (Pipeline.fetchProspects supabase) s)
  = showAddDialog s /\
  editingProspect (final_state (Pipeline.fetchProspects supabase) s)
  = editingProspect s /\
  showMetrics (final_state (Pipeline.fetchProspects supabase) s)
  = showMetrics s.
Proof.
  unfold trace, final_state, Pipeline.fetchProspects. run_eff.
  destruct (supabase Pipeline.select_all) as [resp|e];
    [destruct (Pipeline.error resp)|]; cbn; repeat split.
Qed.


(** X17: when the select fails, answered with an error (with or without
    rows) or not answered at all, the list stays as it was, the error is
    logged and the one notification shown is "Failed to load
    prospects". *)
Theorem fetch_failure (s : State) (e : Error) :
  (exists rows,
     supabase Pipeline.select_all
     = Normal {| Pipeline.data := rows; Pipeline.error := Some e |}) \/
  supabase Pipeline.select_all = Throw e ->
  prospects (final_state (Pipeline.fetchProspects supabase) s)
  = prospects s /\
  toasts (trace (Pipeline.fetchProspects supabase) s) =
    [ {| title := "Error";
         description := "Failed to load prospects";
         variant := Some "destructive" |} ] /\
  In (ConsoleError "Error fetching prospects:" e)
     (trace (Pipeline.fetchProspects supabase) s).
Proof.
  intros E. unfold trace, final_state, Pipeline.fetchProspects. run_eff.
  destruct E as [[rows E] | E]; rewrite E; cbn;
    (split; [reflexivity|]); (split; [reflexivity|]);
    right; left; reflexivity.
Qed.

End FetchFacts.


Lemma fetch_failure_witness :
  Dashboard.prospects
    (final_state (Pipeline.fetchProspects (refusing "permission denied"))
       board)
  = scenario /\
  toasts (trace (Pipeline.fetchProspects (refusing "permission denied"))
            board) =
    [ {| title := "Error";
         description := "Failed to load prospects";
         variant := Some "destructive" |} ] /\
  In (ConsoleError "Error fetching prospects:"
        (mkError "permission denied"))
     (trace (Pipeline.fetchProspects (refusing "permission denied"))
        board).
Proof.
  apply (fetch_failure (refusing "permission denied") board
           (mkError "permission denied")).
  left. exists None. reflexivity.
Defined.

(** ** The initials of a name *)

Lemma split_nonempty (sep : ascii) (s : string) : Pipeline.split sep s <> [].
Proof.
  destruct s as [|c s]; cbn; [discriminate|].
  destruct (c =? sep)%char; [discriminate|].
  destruct (Pipeline.split sep s); discriminate.
Qed.

(** Splitting at the separator splits the two sides. *)
Lemma split_app (sep : ascii) (a b : string) :
  Pipeline.split sep (a ++ String sep b)
  = (Pipeline.split sep a ++ Pipeline.split sep b)%list.
Proof.
  induction a as [|c a IH]; cbn [append Pipeline.split].
  - rewrite Ascii.eqb_refl. reflexivity.
  - destruct (c =? sep)%char.
    + rewrite IH. reflexivity.
    + rewrite IH. pose proof (split_nonempty sep a) as Hne.
      destruct (Pipeline.split sep a) as [|w ws]; [contradiction|].
      reflexivity.
Qed.

Lemma split_word (w : string) :
  is_word w = true -> Pipeline.split " " w = [w].
Proof.
  induction w as [|c w IH]; cbn [is_word Pipeline.split]; [reflexivity|].
  intros H. apply andb_true_iff in H. destruct H as [Hc Hw].
  apply negb_true_iff in Hc. rewrite Hc, (IH Hw). reflexivity.
Qed.

Lemma join_app (l1 l2 : list (option ascii)) :
  Pipeline.join (l1 ++ l2) = Pipeline.join l1 ++ Pipeline.join l2.
Proof.
  induction l1 as [|[c|] l1 IH]; cbn; [reflexivity | | exact IH].
  now rewrite IH.
Qed.

Lemma first_letters_app (a b : string) :
  Pipeline.first_letters (a ++ " " ++ b)
  = Pipeline.first_letters a ++ Pipeline.first_letters b.
Proof.
  unfold Pipeline.first_letters. cbn [append].
  rewrite split_app, map_app, join_app. reflexivity.
Qed.

Lemma append_nil_r (s : string) : s ++ "" = s.
Proof. induction s as [|c s IH]; cbn; [reflexivity | now rewrite IH]. Qed.

Lemma first_letters_words (ws : list string) :
  Forall (fun w => is_word w = true) ws ->
  Pipeline.first_letters (spaced ws) = Pipeline.join (map Pipeline.first ws).
Proof.
  induction 1 as [|w ws Hw Hws IH]; [reflexivity|].
  destruct ws as [|w' ws'].
  - cbn [spaced map]. unfold Pipeline.first_letters.
    rewrite (split_word w Hw). reflexivity.
  - change (spaced (w :: w' :: ws')) with (w ++ " " ++ spaced (w' :: ws')).
    rewrite first_letters_app, IH.
    unfold Pipeline.first_letters. rewrite (split_word w Hw).
    cbn [map Pipeline.join]. destruct (Pipeline.first w); reflexivity.
Qed.

Lemma length_slice_2 (s : string) : (String.length (substring 0 2 s) <= 2)%nat.
Proof. destruct s as [|a [|b s]]; cbn; try lia. destruct s; cbn; lia. Qed.

Section InitialsFacts.

Variable toUpperCase : string -> string.

(** X18: for a name written as words with a space between two of them
    (an empty word where two spaces meet, or where the name starts or
    ends with a space), the initials are the first two characters of the
    upper-cased first characters of the words that are not empty. *)
Theorem initials_of_words (ws : list string) :
  Forall (fun w => is_word w = true) ws ->
  Pipeline.getInitials toUpperCase (spaced ws)
  = substring 0 2
      (toUpperCase
         (Pipeline.join
            (map Pipeline.first (filter (fun w => negb (w =? "")) ws)))).
Proof.
  intros H. unfold Pipeline.getInitials.
  rewrite (first_letters_words ws H). do 2 f_equal.
  clear H. induction ws as [|w ws IH]; [reflexivity|].
  cbn [filter map]. destruct w as [|c w]; cbn; [exact IH|].
  now rewrite IH.
Qed.

(** X19: the initials never hold more than two characters, and a space
    more in the name, before it, after it or between two parts of it,
    does not change them. *)
Theorem initials_ignore_spaces (name a b : string) :
  (String.length (Pipeline.getInitials toUpperCase name) <= 2)%nat /\
  Pipeline.getInitials toUpperCase (" " ++ name)
  = Pipeline.getInitials toUpperCase name /\
  Pipeline.getInitials toUpperCase (name ++ " ")
  = Pipeline.getInitials toUpperCase name /\
  Pipeline.getInitials toUpperCase (a ++ " " ++ " " ++ b)
  = Pipeline.getInitials toUpperCase (a ++ " " ++ b).
Proof.
  unfold Pipeline.getInitials.
  split; [apply length_slice_2|]. split; [|split].
  - change (" " ++ name) with ("" ++ " " ++ name).
    rewrite first_letters_app. reflexivity.
  - change (name ++ " ") with (name ++ " " ++ "").
    rewrite first_letters_app. change (Pipeline.first_letters "") with "".
    now rewrite append_nil_r.
  - rewrite !first_letters_app.
    change (" " ++ b) with ("" ++ " " ++ b).
    rewrite first_letters_app. reflexivity.
Qed.

End InitialsFacts.

Lemma initials_of_words_witness :
  Pipeline.getInitials (fun s => s) "Ada  Lovelace " = "AL".
Proof.
  apply (initials_of_words (fun s => s) ["Ada"; ""; "Lovelace"; ""]).
  repeat constructor.
Defined.

(** ** The coercions of a form payload *)

Lemma or_null_some (x : option string) (s : string) :
  or_null x = Some s <-> x = Some s /\ s <> "".
Proof.
  unfold or_null, truthy. destruct x as [t|].
  - destruct (String.eqb_spec t "") as [->|N]; cbn.
    + split; [discriminate|]. intros [E C]. injection E as <-. contradiction.
    + split.
      * intros E. injection E as <-. now split.
      * intros [E _]. exact E.
  - split; [discriminate|]. intros [E _]. discriminate E.
Qed.

Lemma or_null_none (x : option string) : or_null x = None <-> blank x.
Proof.
  split; [|apply or_null_blank].
  unfold or_null, truthy, blank. destruct x as [t|]; [|now left].
  destruct (String.eqb_spec t "") as [->|N]; cbn; [now right | discriminate].
Qed.

Lemma truthy_blank (x : option string) : truthy x = false <-> blank x.
Proof.
  split; [|apply blank_falsy].
  unfold truthy, blank. destruct x as [t|]; [|now left].
  destruct (String.eqb_spec t "") as [->|N]; cbn; [now right | discriminate].
Qed.

(** ** The create form *)

Section CreateMore.

Variable supabase : AddProspectDialog.Req -> Completion Response.
Variable parseFloat : string -> float.

(** X20: a submission of the create form.  Without a signed-in user
    nothing happens: nothing is sent or shown and the state is untouched.
    With one, the loading flag is set, and the one request sent is the
    insert of the one row; when it is accepted the handler shows "Prospect added", asks for the list to
    be loaded again, closes the dialog and resets the form, in this
    order; when it fails the handler logs the error and shows "Failed to
    add prospect", and the dialog stays open with its fields.  Either
    way the loading flag is set once more at the end, and the handler
    ends normally with the flag off. *)
Theorem create_submit (user : option AddProspectDialog.User)
    (formData : FormData) (s : AddProspectDialog.State) :
  match user with
  | None =>
      AddProspectDialog.handleSubmit supabase parseFloat None formData s
      = (Normal tt, s, [])
  | Some u =>
      fst (fst (AddProspectDialog.handleSubmit supabase parseFloat
                  (Some u) formData s)) = Normal tt /\
      AddProspectDialog.isLoading
        (final_state
           (AddProspectDialog.handleSubmit supabase parseFloat (Some u)
              formData) s) = false /\
      trace (AddProspectDialog.handleSubmit supabase parseFloat (Some u)
               formData) s
      = SetState
        :: Request
          (AddProspectDialog.insert
             [AddProspectDialog.prospectData parseFloat u formData])
        :: match failure
                   (supabase
                      (AddProspectDialog.insert
                         [AddProspectDialog.prospectData parseFloat u
                            formData])) with
           | None =>
               [ ToastShown
                   {| title := "Prospect added";
                      description :=
                        "New prospect has been added successfully";
                      variant := None |};
                 Callback "onProspectAdded" None;
                 Callback "onOpenChange" (Some false);
                 Callback "reset" None;
                 SetState ]
           | Some e =>
               [ ConsoleError "Error adding prospect:" e;
                 ToastShown
                   {| title := "Error";
                      description := "Failed to add prospect";
                      variant := Some "destructive" |};
                 SetState ]
           end
  end.
Proof.
  destruct user as [u|]; [|reflexivity].
  unfold trace, final_state, AddProspectDialog.handleSubmit, failure.
  run_eff.
  destruct (supabase _) as [resp|e]; [destruct (error resp)|];
    cbn; repeat split.
Qed.

(** X21: the row the create form sends.  The user id is the session's;
    name and email are the texts of their fields; phone, company and
    notes are the text of the field when it is not empty and absent
    otherwise, never the empty text; the stage is the text of the field
    when it is not empty and "new" otherwise; the value is absent exactly
    when the field is blank, and otherwise the number parsed from its
    text. *)
Theorem create_payload (user : AddProspectDialog.User)
    (formData : FormData) (text : string) :
  AddProspectDialog.user_id
    (AddProspectDialog.prospectData parseFloat user formData)
  = AddProspectDialog.id user /\
  AddProspectDialog.full_name
    (AddProspectDialog.prospectData parseFloat user formData)
  = get formData "fullName" /\
  AddProspectDialog.email
    (AddProspectDialog.prospectData parseFloat user formData)
  = get formData "email" /\
  (AddProspectDialog.phone
     (AddProspectDialog.prospectData parseFloat user formData) = Some text
   <-> get formData "phone" = Some text /\ text <> "") /\
  (AddProspectDialog.company
     (AddProspectDialog.prospectData parseFloat user formData) = Some text
   <-> get formData "company" = Some text /\ text <> "") /\
  (AddProspectDialog.notes
     (AddProspectDialog.prospectData parseFloat user formData) = Some text
   <-> get formData "notes" = Some text /\ text <> "") /\
  (AddProspectDialog.stage
     (AddProspectDialog.prospectData parseFloat user formData) = Some text
   <-> (get formData "stage" = Some text /\ text <> "") \/
       (blank (get formData "stage") /\ text = "new")) /\
  (AddProspectDialog.value
     (AddProspectDialog.prospectData parseFloat user formData) = None
   <-> blank (get formData "value")) /\
  (get formData "value" = Some text -> text <> "" ->
   AddProspectDialog.value
     (AddProspectDialog.prospectData parseFloat user formData)
   = Some (parseFloat text)).
Proof.
  unfold AddProspectDialog.prospectData.
  cbn [AddProspectDialog.user_id AddProspectDialog.full_name
       AddProspectDialog.email AddProspectDialog.phone
       AddProspectDialog.company AddProspectDialog.notes
       AddProspectDialog.stage AddProspectDialog.value].
  split; [reflexivity|]. split; [reflexivity|]. split; [reflexivity|].
  split; [apply or_null_some|]. split; [apply or_null_some|].
  split; [apply or_null_some|]. split; [|split].
  - unfold or_default, truthy, blank.
    destruct (get formData "stage") as [t|].
    + destruct (String.eqb_spec t "") as [->|N]; cbn.
      * split.
        -- intros E. injection E as <-. right. split; [now right | reflexivity].
        -- intros [[E C] | [_ ->]]; [|reflexivity].
           injection E as <-. contradiction.
      * split.
        -- intros E. injection E as <-. left. now split.
        -- intros [[E _] | [[E|E] _]]; [exact E | discriminate E |].
           injection E as ->. contradiction.
    + split.
      * intros E. injection E as <-. right. split; [now left | reflexivity].
      * intros [[E _] | [_ ->]]; [discriminate E | reflexivity].
  - rewrite <- truthy_blank.
    destruct (get formData "value") as [t|]; cbn.
    + destruct (negb (t =? "")); cbn; split; try discriminate; reflexivity.
    + split; reflexivity.
  - intros E N. rewrite E. cbn.
    destruct (String.eqb_spec text ""); [contradiction | reflexivity].
Qed.

End CreateMore.

(** ** The edit form *)

Section EditFacts.

Variable supabase : EditProspectDialog.Req -> Completion Response.
Variable parseFloat : string -> float.
Variable prospect : Prospect.

(** X22: a submission of the edit form sets the loading flag and sends
    one update of the row whose id is the id of the dialog's prospect.  When it is accepted the
    handler shows "Prospect updated", asks for the list to be loaded
    again and closes the dialog, in this order; when it fails the
    handler logs the error and shows "Failed to update prospect", and
    the dialog stays open.  Either way the loading flag is set once
    more at the end, and the handler ends normally with the loading flag
    off and the deleting flag as it was. *)
Theorem edit_submit (formData : FormData) (s : EditProspectDialog.State) :
  fst (fst (EditProspectDialog.handleSubmit supabase parseFloat prospect
              formData s)) = Normal tt /\
  EditProspectDialog.isLoading
    (final_state
       (EditProspectDialog.handleSubmit supabase parseFloat prospect
          formData) s) = false /\
  EditProspectDialog.isDeleting
    (final_state
       (EditProspectDialog.handleSubmit supabase parseFloat prospect
          formData) s) = EditProspectDialog.isDeleting s /\
  trace (EditProspectDialog.handleSubmit supabase parseFloat prospect
           formData) s
  = SetState
    :: Request
      (EditProspectDialog.update_eq_id
         (EditProspectDialog.updateData parseFloat formData) (id prospect))
    :: match failure
               (supabase
                  (EditProspectDialog.update_eq_id
                     (EditProspectDialog.updateData parseFloat formData)
                     (id prospect))) with
       | None =>
           [ ToastShown
               {| title := "Prospect updated";
                  description :=
                    "Prospect information has been updated successfully";
                  variant := None |};
             Callback "onProspectUpdated" None;
             Callback "onOpenChange" (Some false);
             SetState ]
       | Some e =>
           [ ConsoleError "Error updating prospect:" e;
             ToastShown
               {| title := "Error";
                  description := "Failed to update prospect";
                  variant := Some "destructive" |};
             SetState ]
       end.
Proof.
  unfold trace, final_state, EditProspectDialog.handleSubmit, failure.
  run_eff.
  destruct (supabase _) as [resp|e]; [destruct (error resp)|];
    cbn; repeat split.
Qed.

(** X23: the fields the edit form sends.  Phone, company and notes are
    the text of the field when it is not empty and absent otherwise; the
    value is absent exactly when its field is blank; the stage is what
    the form holds for it, with no default: a form without a stage
    sends none. *)
Theorem edit_payload (formData : FormData) (text : string) :
  (EditProspectDialog.phone
     (EditProspectDialog.updateData parseFloat formData) = Some text
   <-> get formData "phone" = Some text /\ text <> "") /\
  (EditProspectDialog.company
     (EditProspectDialog.updateData parseFloat formData) = Some text
   <-> get formData "company" = Some text /\ text <> "") /\
  (EditProspectDialog.notes
     (EditProspectDialog.updateData parseFloat formData) = Some text
   <-> get formData "notes" = Some text /\ text <> "") /\
  (EditProspectDialog.value
     (EditProspectDialog.updateData parseFloat formData) = None
   <-> blank (get formData "value")) /\
  EditProspectDialog.stage
    (EditProspectDialog.updateData parseFloat formData)
  = get formData "stage" /\
  (get formData "stage" = None ->
   EditProspectDialog.stage
     (EditProspectDialog.updateData parseFloat formData) = None).
Proof.
  unfold EditProspectDialog.updateData.
  cbn [EditProspectDialog.phone EditProspectDialog.company
       EditProspectDialog.notes EditProspectDialog.stage
       EditProspectDialog.value].
  split; [apply or_null_some|]. split; [apply or_null_some|].
  split; [apply or_null_some|]. split; [|split; [reflexivity | auto]].
  rewrite <- truthy_blank.
  destruct (get formData "value") as [t|]; cbn.
  - destruct (negb (t =? "")); cbn; split; try discriminate; reflexivity.
  - split; reflexivity.
Qed.


End EditFacts.

(** ** The auth screen *)

Section AuthFacts.

(** X25: signing in.  When the session provider answers, the handler
    shows one notification, "Sign in failed" with the provider's message
    as it is when the answer holds an error and "Welcome back!" when it
    holds none, and ends with the loading flag off.  When the provider
    does not answer (its promise is rejected), the handler throws the
    error on, shows nothing and leaves the loading flag on. *)
Theorem sign_in_outcome (useAuth : SignIn.Req -> Completion Response)
    (formData : FormData) (s : Auth.State) :
  match useAuth (SignIn.signIn (get formData "email")
                   (get formData "password")) with
  | Normal resp =>
      fst (fst (SignIn.handleSignIn useAuth formData s)) = Normal tt /\
      Auth.isLoading (final_state (SignIn.handleSignIn useAuth formData) s)
      = false /\
      toasts (trace (SignIn.handleSignIn useAuth formData) s)
      = [ match error resp with
          | Some e => {| title := "Sign in failed";
                         description := message e;
                         variant := Some "destructive" |}
          | None => {| title := "Welcome back!";
                       description := "You have successfully signed in.";
                       variant := None |}
          end ]
  | Throw e =>
      fst (fst (SignIn.handleSignIn useAuth formData s)) = Throw e /\
      Auth.isLoading (final_state (SignIn.handleSignIn useAuth formData) s)
      = true /\
      toasts (trace (SignIn.handleSignIn useAuth formData) s) = []
  end.
Proof.
  unfold trace, final_state, SignIn.handleSignIn. run_eff.
  destruct (useAuth _) as [resp|e]; [destruct (error resp)|];
    cbn; repeat split.
Qed.

(** X26: signing up.  When the session provider answers, the handler
    shows exactly one notification, "Account created!" when the answer
    holds no error, and ends with the loading flag off.  When the
    provider does not answer (its promise is rejected), the handler
    throws the error on, shows nothing and leaves the loading flag
    on. *)
Theorem sign_up_outcome (useAuth : Auth.Req -> Completion Response)
    (formData : FormData) (s : Auth.State) :
  match useAuth (Auth.signUp (get formData "email")
                   (get formData "password") (get formData "fullName")) with
  | Normal resp =>
      fst (fst (Auth.handleSignUp useAuth formData s)) = Normal tt /\
      Auth.isLoading (final_state (Auth.handleSignUp useAuth formData) s)
      = false /\
      List.length (toasts (trace (Auth.handleSignUp useAuth formData) s))
      = 1%nat /\
      (error resp = None ->
       toasts (trace (Auth.handleSignUp useAuth formData) s)
       = [ {| title := "Account created!";
              description :=
                "Please check your email to verify your account.";
              variant := None |} ])
  | Throw e =>
      fst (fst (Auth.handleSignUp useAuth formData s)) = Throw e /\
      Auth.isLoading (final_state (Auth.handleSignUp useAuth formData) s)
      = true /\
      toasts (trace (Auth.handleSignUp useAuth formData) s) = []
  end.
Proof.
  unfold trace, final_state, Auth.handleSignUp. run_eff.
  destruct (useAuth _) as [resp|e].
  - destruct (error resp) as [e|]; cbn.
    + destruct (includes (message e) "already registered"); cbn;
        repeat split; discriminate.
    + repeat split.
  - cbn. repeat split.
Qed.

End AuthFacts.
